(** * Camera-Pan Video Combiner: the file-ordering and merge pipeline

    A shallow embedding of the pipeline functions of [src/main.py]
    ([check_ffmpeg_binary], [browse_input_files],
    [find_video_files_in_folder], [process_selected_files],
    [parse_and_sort_files], [merge_videos_with_ffmpeg], [merge_videos])
    together with the parts of the Python runtime they call
    ([re.search], [datetime.strptime], [list.sort], [str.replace],
    [subprocess.run], [tempfile], [os.unlink]), and of the handlers of
    the window ([check_ffmpeg_on_startup], [update_input_mode], the
    browse handlers, [check_ready_to_merge], [start_merge_process]). *)

From Stdlib Require Import NArith ZArith Lia.
From stdpp Require Import base list gmap strings sorting.

Local Open Scope N_scope.

(** ** Python strings

    A Python [str] is a sequence of Unicode code points.  Literals of the
    source are written with [py], which reads an ASCII literal. *)

Abbreviation char := N (only parsing).
Abbreviation str := (list N) (only parsing).

Definition py (s : string) : str :=
  (λ a, N.of_nat (Ascii.nat_of_ascii a)) <$> String.list_ascii_of_string s.

(** What is platform or runtime specific and left open by the source:
    [os.path.basename] and [os.path.join] (ntpath on Windows, posixpath
    elsewhere) and the Unicode database behind [\d] and [int()] for the
    code points beyond ASCII ([unicode_decimal c] is the digit value of a
    decimal digit [c >= 128], [None] for any other code point; likewise
    [unicode_space] for the white space that [str.strip] removes). *)
Class Runtime := {
  basename : str → str;
  path_join : str → str → str;
  unicode_decimal : N → option N;
  unicode_space : N → bool;
}.

(** [posixpath.basename]: what follows the last slash. *)
Fixpoint posix_basename_aux (acc p : str) : str :=
  match p with
  | [] => acc
  | c :: p' => if c =? 47 then posix_basename_aux p' p' else posix_basename_aux acc p'
  end.

Definition posix_basename (p : str) : str := posix_basename_aux p p.

(** [posixpath.join a b] for the two-argument call of the source. *)
Definition posix_join (a b : str) : str :=
  match b with
  | 47 :: _ => b
  | _ => match last a with
         | None => b
         | Some c => if c =? 47 then a ++ b else a ++ [47] ++ b
         end
  end.

(** A POSIX runtime whose Unicode database adds the Arabic-Indic digits
    U+0660..U+0669 to the ASCII ones. *)
Definition posix : Runtime := {|
  basename := posix_basename;
  path_join := posix_join;
  unicode_decimal c := if (1632 <=? c) && (c <=? 1641) then Some (c - 1632) else None;
  unicode_space c := (c =? 133) || (c =? 160);
|}.

Section Pipeline.
Context {RT : Runtime}.

Definition ascii_digit (c : char) : bool := (48 <=? c) && (c <=? 57).

(** [\d] of a [str] pattern: any Unicode decimal digit. *)
Definition isdecimal (c : char) : bool :=
  if c <? 128 then ascii_digit c else bool_decide (is_Some (unicode_decimal c)).

Definition digit_value (c : char) : N :=
  if c <? 128 then c - 48 else default 0 (unicode_decimal c).

(** [int(s)] on a string of decimal digits. *)
Definition int (s : str) : N := foldl (λ acc c, 10 * acc + digit_value c) 0 s.

(** [s.startswith(p)] *)
Fixpoint startswith (s p : str) : bool :=
  match p, s with
  | [], _ => true
  | _ :: _, [] => false
  | a :: p', c :: s' => (c =? a) && startswith s' p'
  end.

(** ** Regular expressions

    The fragment of [re] used by the source and by [_strptime]: single
    characters and classes, concatenation, alternation, greedy [+] and
    [{n}] on a class, capturing groups.  [run r s] lists every way [r]
    matches a prefix of [s], in the order in which the backtracking
    matcher of [re] tries them: each result is the text matched, the
    captured groups (in the order of their opening parentheses) and what
    is left of [s]. *)

Inductive cls :=
| Chr (c : char)        (* a literal character *)
| Dig                   (* \d *)
| Rng (lo hi : char).   (* [lo-hi] *)

Inductive regex :=
| Eps
| One (k : cls)
| Cat (r1 r2 : regex)
| Alt (r1 r2 : regex)
| Plus (k : cls)
| Rep (n : nat) (k : cls)
| Grp (r : regex).

Definition cls_match (k : cls) (c : char) : bool :=
  match k with
  | Chr a => c =? a
  | Dig => isdecimal c
  | Rng lo hi => (lo <=? c) && (c <=? hi)
  end.

Definition parse := (str * list str * str)%type.

(** [k+], greedy: the longest run first. *)
Fixpoint many1 (k : cls) (s : str) : list (str * str) :=
  match s with
  | c :: s' =>
      if cls_match k c
      then ((λ mr, (c :: mr.1, mr.2)) <$> many1 k s') ++ [([c], s')]
      else []
  | [] => []
  end.

(** [k{n}] *)
Fixpoint exactly (n : nat) (k : cls) (s : str) : option (str * str) :=
  match n with
  | O => Some ([], s)
  | S n' =>
      match s with
      | c :: s' =>
          if cls_match k c
          then (λ mr, (c :: mr.1, mr.2)) <$> exactly n' k s'
          else None
      | [] => None
      end
  end.

Fixpoint run (r : regex) (s : str) : list parse :=
  match r with
  | Eps => [([], [], s)]
  | One k =>
      match s with
      | c :: s' => if cls_match k c then [([c], [], s')] else []
      | [] => []
      end
  | Cat r1 r2 =>
      p1 ← run r1 s;
      p2 ← run r2 p1.2;
      [(p1.1.1 ++ p2.1.1, p1.1.2 ++ p2.1.2, p2.2)]
  | Alt r1 r2 => run r1 s ++ run r2 s
  | Plus k => (λ mr, (mr.1, [], mr.2)) <$> many1 k s
  | Rep n k => (λ mr, (mr.1, [], mr.2)) <$> option_list (exactly n k s)
  | Grp r => (λ p, (p.1.1, p.1.1 :: p.1.2, p.2)) <$> run r s
  end.

(** [re.match]: the first way to match at the start of [s]. *)
Definition re_match (r : regex) (s : str) : option parse := head (run r s).

(** [re.search]: the match at the leftmost position that has one. *)
Fixpoint re_search (r : regex) (s : str) : option parse :=
  match re_match r s with
  | Some p => Some p
  | None => match s with
            | [] => None
            | _ :: s' => re_search r s'
            end
  end.

(** [match.group(i)] for [i >= 1]. *)
Definition group (p : parse) (i : nat) : str := default [] (p.1.2 !! pred i).

(** A literal string as a regular expression. *)
Definition lit (s : str) : regex := foldr (λ c r, Cat (One (Chr c)) r) Eps s.

Definition seq_re (rs : list regex) : regex := foldr Cat Eps rs.

(** [timestamp_pattern = r'RecM0\d+_(\d{8})_(\d{6})'] *)
Definition timestamp_pattern : regex :=
  seq_re [lit (py "RecM0"); Plus Dig; One (Chr 95);
          Grp (Rep 8 Dig); One (Chr 95); Grp (Rep 6 Dig)].

(** ** Exceptions and outcomes

    The exception classes the source tells apart in its [except] clauses;
    every one of them is a subclass of [Exception].  An exception carries
    the text that [str(e)] returns. *)

Inductive exn_class :=
| ValueError
| TimeoutExpired
| FileNotFoundError
| OtherException (name : string).

Record exn := Exn { exn_type : exn_class; exn_text : str }.

(** How a call ends: with a value, with an exception, or never (a call
    that blocks for ever on an external process). *)
Inductive outcome (A : Type) :=
| Ok (a : A)
| Raise (e : exn)
| Hang.
Global Arguments Ok {A} a.
Global Arguments Raise {A} e.
Global Arguments Hang {A}.

(** ** [datetime]

    A naive [datetime.datetime] value. *)

Record datetime := mkdt {
  year : N; month : N; day : N;
  hour : N; minute : N; second : N; microsecond : N
}.

Definition is_leap (y : N) : bool :=
  (y mod 4 =? 0) && (negb (y mod 100 =? 0) || (y mod 400 =? 0)).

Definition days_in_month (y m : N) : N :=
  if m =? 2 then (if is_leap y then 29 else 28)
  else if (m =? 4) || (m =? 6) || (m =? 9) || (m =? 11) then 30
  else 31.

(** [_check_date_fields]: [MINYEAR = 1], [MAXYEAR = 9999]. *)
Definition check_date_fields (y m d : N) : bool :=
  (1 <=? y) && (y <=? 9999) && (1 <=? m) && (m <=? 12)
  && (1 <=? d) && (d <=? days_in_month y m).

(** [_check_time_fields] *)
Definition check_time_fields (H M S us : N) : bool :=
  (H <=? 23) && (M <=? 59) && (S <=? 59) && (us <=? 999999).

(** [datetime.date(y, m, d)], of which [_strptime] only uses that it
    raises on a date that does not exist. *)
Definition date_new (y m d : N) : outcome unit :=
  if check_date_fields y m d then Ok ()
  else Raise (Exn ValueError (py "date value out of range")).

(** [datetime.datetime(y, m, d, H, M, S, us)] *)
Definition datetime_new (y m d H M S us : N) : outcome datetime :=
  if check_date_fields y m d then
    if check_time_fields H M S us then Ok (mkdt y m d H M S us)
    else Raise (Exn ValueError (py "time value out of range"))
  else Raise (Exn ValueError (py "date value out of range")).

(** The tuple comparison behind [datetime.__lt__]. *)
Fixpoint lex_compare (a b : list N) : comparison :=
  match a, b with
  | [], [] => Eq
  | [], _ :: _ => Lt
  | _ :: _, [] => Gt
  | x :: a', y :: b' =>
      match x ?= y with
      | Eq => lex_compare a' b'
      | c => c
      end
  end.

Definition dt_fields (t : datetime) : list N :=
  [year t; month t; day t; hour t; minute t; second t; microsecond t].

Definition dt_compare (a b : datetime) : comparison :=
  lex_compare (dt_fields a) (dt_fields b).

Definition dt_lt (a b : datetime) : bool :=
  match dt_compare a b with Lt => true | _ => false end.

(** ** [datetime.strptime(s, "%Y%m%d_%H%M%S")]

    [_strptime] turns the format into a regular expression, one named
    group per directive, matches it at the start of the string, refuses a
    match that leaves text over, converts the groups with [int] and
    builds first a [date] and then the [datetime] from them. *)

Definition two (a b : cls) : regex := Cat (One a) (One b).

(* %Y : (?P<Y>\d\d\d\d) *)
Definition directive_Y : regex :=
  Grp (seq_re [One Dig; One Dig; One Dig; One Dig]).
(* %m : (?P<m>1[0-2]|0[1-9]|[1-9]) *)
Definition directive_m : regex :=
  Grp (Alt (two (Chr 49) (Rng 48 50))
      (Alt (two (Chr 48) (Rng 49 57))
           (One (Rng 49 57)))).
(* %d : (?P<d>3[0-1]|[1-2]\d|0[1-9]|[1-9]| [1-9]) *)
Definition directive_d : regex :=
  Grp (Alt (two (Chr 51) (Rng 48 49))
      (Alt (two (Rng 49 50) Dig)
      (Alt (two (Chr 48) (Rng 49 57))
      (Alt (One (Rng 49 57))
           (two (Chr 32) (Rng 49 57)))))).
(* %H : (?P<H>2[0-3]|[0-1]\d|\d) *)
Definition directive_H : regex :=
  Grp (Alt (two (Chr 50) (Rng 48 51))
      (Alt (two (Rng 48 49) Dig)
           (One Dig))).
(* %M : (?P<M>[0-5]\d|\d) *)
Definition directive_M : regex :=
  Grp (Alt (two (Rng 48 53) Dig) (One Dig)).
(* %S : (?P<S>6[0-1]|[0-5]\d|\d) *)
Definition directive_S : regex :=
  Grp (Alt (two (Chr 54) (Rng 48 49))
      (Alt (two (Rng 48 53) Dig)
           (One Dig))).

(** The expression of the format ["%Y%m%d_%H%M%S"]. *)
Definition format_regex : regex :=
  seq_re [directive_Y; directive_m; directive_d; One (Chr 95);
          directive_H; directive_M; directive_S].

Definition strptime (data_string : str) : outcome datetime :=
  match re_match format_regex data_string with
  | None => Raise (Exn ValueError (py "time data does not match format"))
  | Some found =>
      match found.2 with
      | _ :: _ => Raise (Exn ValueError (py "unconverted data remains"))
      | [] =>
          let y := int (group found 1) in
          let m := int (group found 2) in
          let d := int (group found 3) in
          let H := int (group found 4) in
          let M := int (group found 5) in
          let S := int (group found 6) in
          match date_new y m d with
          | Ok _ => datetime_new y m d H M S 0
          | Raise e => Raise e
          | Hang => Hang
          end
      end
  end.

(** ** [list.sort(key=...)]

    CPython's sort is stable and compares keys with [<] only.  It is
    modelled by the stable insertion sort: [x] goes before the first
    element whose key is not smaller than its own. *)

Section Sort.
Context {A K : Type} (key : A → K) (lt : K → K → bool).

Fixpoint insert_by (x : A) (l : list A) : list A :=
  match l with
  | [] => [x]
  | y :: l' => if lt (key y) (key x) then y :: insert_by x l' else x :: l
  end.

Fixpoint list_sort (l : list A) : list A :=
  match l with
  | [] => []
  | x :: l' => insert_by x (list_sort l')
  end.

End Sort.

(** ** The world outside

    What the pipeline writes on the log pane, shows in dialogs and does to
    the file system is recorded as a sequence of events.  A message is the
    f-string of the source: its literal text and the values put into it
    (the pictographs that open some messages are left out). *)

Inductive piece :=
| Txt (text : string)
| Str (s : str)
| Int (n : Z)
| Date (t : datetime).

Definition message := list piece.

Inductive event :=
| Log (m : message)                              (* self.log_message *)
| ErrorBox (title : string) (m : message)       (* messagebox.showerror *)
| InfoBox (title : string) (m : message)        (* messagebox.showinfo *)
| YesNoBox (title : string) (m : message)        (* messagebox.askyesno *)
| Spawn (argv : list str) (timeout : option N)   (* subprocess.run *)
| CreateTemp (name : str)                        (* tempfile.NamedTemporaryFile *)
| WriteLine (name line : str)                        (* f.write *)
| Unlink (name : str)                            (* os.unlink *)
| Merging (video_files : list str) (output_path : str)
                                                 (* entry of merge_videos_with_ffmpeg *)
| ResetUI.                                       (* the finally block of merge_videos *)

(** What a run of an external command does: [subprocess.run] raises
    before or while talking to it, or the process runs for [duration]
    seconds ([None]: it never exits on its own), changes the file system
    and ends with an exit code and its captured output. *)
Inductive behaviour :=
| Fails (e : exn)
| Runs (duration : option N) (returncode : Z) (stdout stderr : str)
       (effect : gset str → gset str).

(** The answers of the environment. *)
Record Env := {
  spawn : list str → behaviour;       (* by argument vector *)
  mktemp : exn + str;                 (* NamedTemporaryFile: the name, or an error *)
  write : str → str → option exn;     (* f.write of a line to a file *)
  close : str → option exn;           (* leaving the with block *)
  unlink : str → option exn;          (* os.unlink *)
  glob : gset str → str → list str;   (* glob.glob of a pattern *)
  askyesno : bool;                    (* the user's answer *)
  bundled_ffmpeg : str;               (* get_bundled_ffmpeg_path() *)
}.

(** A computation reads and changes the set of existing paths and emits
    events. *)
Record step (A : Type) := Step {
  result : outcome A;
  disk : gset str;
  events : list event;
}.
Global Arguments Step {A} result disk events.
Global Arguments result {A} s.
Global Arguments disk {A} s.
Global Arguments events {A} s.

Definition M (A : Type) : Type := gset str → step A.

Definition ret {A} (a : A) : M A := λ fs, Step (Ok a) fs [].

Definition bind {A B} (m : M A) (k : A → M B) : M B := λ fs,
  let s := m fs in
  match result s with
  | Ok a => let s' := k a (disk s) in
            Step (result s') (disk s') (events s ++ events s')
  | Raise e => Step (Raise e) (disk s) (events s)
  | Hang => Step Hang (disk s) (events s)
  end.

Global Instance M_ret : MRet M := @ret.
Global Instance M_bind : MBind M := λ A B k m, bind m k.

Definition raise {A} (e : exn) : M A := λ fs, Step (Raise e) fs [].

Definition emit (ev : event) : M unit := λ fs, Step (Ok ()) fs [ev].

Definition log_message (m : message) : M unit := emit (Log m).

(** A pure call that may raise. *)
Definition lift {A} (o : outcome A) : M A := λ fs, Step o fs [].

(** [try: m except Exception as e: h e]; a handler for a narrower class
    re-raises what it does not handle. *)
Definition try_except {A} (m : M A) (h : exn → M A) : M A := λ fs,
  let s := m fs in
  match result s with
  | Raise e => let s' := h e (disk s) in
               Step (result s') (disk s') (events s ++ events s')
  | _ => s
  end.

(** [try: m finally: fin].  The finally block runs however [m] ends,
    unless [m] never ends; the outcome is that of [m] unless the block
    itself raises. *)
Definition try_finally {A} (m : M A) (fin : M unit) : M A := λ fs,
  let s := m fs in
  match result s with
  | Hang => s
  | r => let s' := fin (disk s) in
         Step (match result s' with
               | Ok _ => r
               | Raise e => Raise e
               | Hang => Hang
               end) (disk s') (events s ++ events s')
  end.

(** [for x in l: body], threading an accumulator. *)
Fixpoint foldM {A B} (f : B → A → M B) (acc : B) (l : list A) : M B :=
  match l with
  | [] => ret acc
  | x :: l' => acc' ← f acc x; foldM f acc' l'
  end.

Definition for_each {A} (f : A → M unit) (l : list A) : M unit :=
  foldM (λ _ x, f x) () l.

(** [os.path.exists] *)
Definition path_exists (p : str) : M bool := λ fs, Step (Ok (bool_decide (p ∈ fs))) fs [].

Context (E : Env).

(** [subprocess.run(argv, capture_output=True, text=True, timeout=...)].
    With a timeout the process is killed when it runs longer and
    [TimeoutExpired] is raised; without one the call waits for the
    process to exit. *)
Record completed := Completed { returncode : Z; stdout : str; stderr : str }.

Definition subprocess_run (argv : list str) (timeout : option N) : M completed := λ fs,
  match spawn E argv with
  | Fails e => Step (Raise e) fs [Spawn argv timeout]
  | Runs duration rc out err effect =>
      let expired :=
        match timeout, duration with
        | Some t, Some d => t <? d
        | Some _, None => true
        | None, _ => false
        end in
      Step (if expired then Raise (Exn TimeoutExpired (py "timed out"))
            else match duration with
                 | Some _ => Ok (Completed rc out err)
                 | None => Hang
                 end)
           (effect fs) [Spawn argv timeout]
  end.

(** [tempfile.NamedTemporaryFile(mode='w', delete=False, ...)] *)
Definition named_temporary_file : M str := λ fs,
  match mktemp E with
  | inl e => Step (Raise e) fs []
  | inr name => Step (Ok name) ({[name]} ∪ fs) [CreateTemp name]
  end.

Definition file_write (name line : str) : M unit := λ fs,
  match write E name line with
  | Some e => Step (Raise e) fs []
  | None => Step (Ok ()) fs [WriteLine name line]
  end.

Definition file_close (name : str) : M unit := λ fs,
  match close E name with
  | Some e => Step (Raise e) fs []
  | None => Step (Ok ()) fs []
  end.

(** [with ... as f: body]: the file is closed however the body ends. *)
Definition with_file {A} (name : str) (body : M A) : M A :=
  try_finally body (file_close name).

(** [os.unlink] *)
Definition os_unlink (name : str) : M unit := λ fs,
  match unlink E name with
  | Some e => Step (Raise e) fs []
  | None => Step (Ok ()) (fs ∖ {[name]}) [Unlink name]
  end.

(** [glob.glob] *)
Definition glob_glob (pattern : str) : M (list str) := λ fs,
  Step (Ok (glob E fs pattern)) fs [].

(** ** String helpers *)

(** [s.replace(old, new)] *)
Fixpoint replace_from (old new : str) (skip : nat) (s : str) : str :=
  match s with
  | [] => []
  | c :: s' =>
      match skip with
      | S k => replace_from old new k s'
      | O => if startswith s old
             then new ++ replace_from old new (pred (length old)) s'
             else c :: replace_from old new 0 s'
      end
  end.

Definition replace (s old new : str) : str :=
  match old with
  | [] => new ++ (s ≫= λ c, c :: new)
  | _ :: _ => replace_from old new 0 s
  end.

(** [sep.join(l)] *)
Fixpoint join (sep : str) (l : list str) : str :=
  match l with
  | [] => []
  | [x] => x
  | x :: l' => x ++ sep ++ join sep l'
  end.

(** [s.split(c)] for a one-character separator. *)
Fixpoint split (c : char) (s : str) : list str :=
  match s with
  | [] => [[]]
  | x :: s' =>
      if x =? c then [] :: split c s'
      else match split c s' with
           | [] => [[x]]
           | w :: ws => (x :: w) :: ws
           end
  end.

(** [needle in hay] *)
Fixpoint contains (hay needle : str) : bool :=
  startswith hay needle ||
  match hay with
  | [] => false
  | _ :: hay' => contains hay' needle
  end.

Definition isspace (c : char) : bool :=
  if c <? 128 then ((9 <=? c) && (c <=? 13)) || ((28 <=? c) && (c <=? 32))
  else unicode_space c.

Fixpoint lstrip (s : str) : str :=
  match s with
  | c :: s' => if isspace c then lstrip s' else s
  | [] => []
  end.

(** [s.strip()] *)
Definition strip (s : str) : str := reverse (lstrip (reverse (lstrip s))).

Definition backslash : char := 92.
Definition quote : char := 39.
Definition newline : char := 10.

(** [type(e).__name__] *)
Definition exn_name (e : exn) : string :=
  match exn_type e with
  | ValueError => "ValueError"
  | TimeoutExpired => "TimeoutExpired"
  | FileNotFoundError => "FileNotFoundError"
  | OtherException name => name
  end.

(** ** [check_ffmpeg_binary] *)

Definition version_line (out : str) (otherwise : string) : message :=
  match out with
  | [] => [Txt otherwise]
  | _ :: _ => [Str (default [] (head (split newline out)))]
  end.

Definition check_ffmpeg_binary : M (bool * message * option str) :=
  let bundled := bundled_ffmpeg E in
  found ← path_exists bundled;
  first ← (if found : bool then
             try_except
               (result ← subprocess_run [bundled; py "-version"] (Some 10);
                if (returncode result =? 0)%Z
                then ret (Some (true,
                                Txt "Using bundled FFmpeg: "
                                  :: version_line (stdout result) "Bundled FFmpeg found",
                                Some bundled))
                else ret None)
               (λ _, ret None)
           else ret None);
  match first with
  | Some answer => ret answer
  | None =>
      try_except
        (result ← subprocess_run [py "ffmpeg"; py "-version"] (Some 10);
         if (returncode result =? 0)%Z
         then ret (true,
                   Txt "Using system FFmpeg: "
                     :: version_line (stdout result) "System FFmpeg found",
                   Some (py "ffmpeg"))
         else ret (false, [Txt "FFmpeg binary found but returned error"], None))
        (λ e, match exn_type e with
              | FileNotFoundError => ret (false, [Txt "FFmpeg binary not found"], None)
              | _ => ret (false, [Txt "Error checking FFmpeg: "; Str (exn_text e)], None)
              end)
  end.

(** ** [parse_and_sort_files] *)

Definition entry := (datetime * str * str)%type.

(** The body of the loop over [video_files]. *)
Definition parse_file (parsed_files : list entry) (file_path : str) : M (list entry) :=
  let filename := basename file_path in
  match re_search timestamp_pattern filename with
  | Some m =>
      let date_str := group m 1 in
      let time_str := group m 2 in
      try_except
        (dt ← lift (strptime (date_str ++ py "_" ++ time_str));
         let parsed_files := parsed_files ++ [(dt, file_path, filename)] in
         log_message [Txt "Parsed: "; Str filename; Txt " -> "; Date dt];;
         ret parsed_files)
        (λ e, match exn_type e with
              | ValueError =>
                  log_message [Txt "Could not parse timestamp in: "; Str filename];;
                  ret parsed_files
              | _ => raise e
              end)
  | None =>
      log_message [Txt "Invalid filename format: "; Str filename];;
      ret parsed_files
  end.

Definition parse_and_sort_files (video_files : list str) : M (list str) :=
  parsed_files ← foldM parse_file [] video_files;
  match parsed_files with
  | [] =>
      log_message [Txt "No files with valid timestamp format found!"];;
      ret []
  | _ :: _ =>
      let parsed_files := list_sort (λ x : entry, x.1.1) dt_lt parsed_files in
      let sorted_files := (λ x : entry, x.1.2) <$> parsed_files in
      log_message [Txt "Sorted "; Int (Z.of_nat (length sorted_files));
                   Txt " files chronologically"];;
      for_each (λ ix : nat * entry,
                  log_message [Txt "  "; Int (Z.of_nat ix.1 + 1); Txt ". "; Str ix.2.2])
               (imap pair parsed_files);;
      ret sorted_files
  end.

(** ** File discovery *)

Definition video_extensions : list str :=
  [py "*.mp4"; py "*.MP4"; py "*.avi"; py "*.AVI"; py "*.mov"; py "*.MOV"].

(** The loop that collects the matches of every pattern into a set. *)
Definition collect (input_folder : str) : M (gset str) :=
  foldM (λ (video_files : gset str) ext,
           let pattern := path_join input_folder (py "RecM0*" ++ ext) in
           files ← glob_glob pattern;
           ret (video_files ∪ list_to_set files))
        ∅ video_extensions.

Definition find_video_files_in_folder (input_folder : str) : M (list str) :=
  log_message [Txt "Searching for video files in folder..."];;
  video_files ← collect input_folder;
  let video_files := elements video_files in
  match video_files with
  | [] =>
      log_message [Txt "No video files starting with 'RecM0' found in folder!"];;
      ret []
  | _ :: _ =>
      log_message [Txt "Found "; Int (Z.of_nat (length video_files));
                   Txt " unique video files starting with 'RecM0'"];;
      parse_and_sort_files video_files
  end.

(** The state of the application that the pipeline reads. *)
Record App := {
  selection_mode : str;
  input_folder : str;
  output_folder : str;
  selected_files : list str;
}.

Definition process_selected_files (app : App) : M (list str) :=
  log_message [Txt "Processing selected video files..."];;
  match selected_files app with
  | [] =>
      log_message [Txt "No files selected!"];;
      ret []
  | _ :: _ =>
      log_message [Txt "Processing ";
                   Int (Z.of_nat (length (selected_files app)));
                   Txt " selected files"];;
      parse_and_sort_files (selected_files app)
  end.

Definition find_video_files (app : App) (input_source : str) : M (list str) :=
  let mode := selection_mode app in
  if bool_decide (mode = py "folder")
  then find_video_files_in_folder input_source
  else process_selected_files app.

(** [browse_input_files], given the paths [files] that the dialog
    returned: the prefix filter and what it logs (the label and the
    button it also updates are presentation). *)
Definition browse_input_files (app : App) (files : list str) : M App :=
  match files with
  | [] => ret app
  | _ :: _ =>
      let valid_files := filter (λ file_path, startswith (basename file_path) (py "RecM0") = true) files in
      let invalid_files :=
        basename <$> filter (λ file_path, startswith (basename file_path) (py "RecM0") ≠ true) files in
      let app := {| selection_mode := selection_mode app;
                    input_folder := input_folder app;
                    output_folder := output_folder app;
                    selected_files := valid_files |} in
      match valid_files with
      | _ :: _ =>
          log_message [Txt "Selected "; Int (Z.of_nat (length valid_files));
                       Txt " valid video files"];;
          for_each (λ ix : nat * str,
                      log_message [Txt "  "; Int (Z.of_nat ix.1 + 1); Txt ". ";
                                   Str (basename ix.2)])
                   (imap pair valid_files)
      | [] => log_message [Txt "No valid files selected!"]
      end;;
      match invalid_files with
      | _ :: _ =>
          log_message [Txt "Ignored "; Int (Z.of_nat (length invalid_files));
                       Txt " files (don't start with 'RecM0'):"];;
          for_each (λ filename, log_message [Txt "     "; Str filename]) invalid_files
      | [] => ret ()
      end;;
      ret app
  end.

(** ** [merge_videos_with_ffmpeg] *)

(** [video_file.replace('\\', '\\\\').replace("'", "\\'")] *)
Definition escape_path (video_file : str) : str :=
  replace (replace video_file [backslash] [backslash; backslash])
          [quote] [backslash; quote].

(** The finally block. *)
Definition cleanup (concat_file_path : option str) : M unit :=
  try_except
    (match concat_file_path with
     | Some name =>
         found ← path_exists name;
         if found : bool then
           os_unlink name;;
           log_message [Txt "Cleaned up temporary files"]
         else ret ()
     | None => ret ()
     end)
    (λ e, log_message [Txt "Warning: Could not clean up temporary file: ";
                       Str (exn_text e)]).

Definition error_msg (r : completed) : message :=
  [Txt "FFmpeg process failed with return code "; Int (returncode r)]
  ++ (match stdout r with
      | [] => []
      | _ :: _ => [Str [newline]; Txt "Stdout: "; Str (stdout r)]
      end)
  ++ (match stderr r with
      | [] => []
      | _ :: _ => [Str [newline]; Txt "Stderr: "; Str (stderr r)]
      end).

Definition ffmpeg_command (ffmpeg_path concat_file_path output_path : str) : list str :=
  [ffmpeg_path;
   py "-f"; py "concat";
   py "-safe"; py "0";
   py "-i"; concat_file_path;
   py "-c"; py "copy";
   py "-avoid_negative_ts"; py "make_zero";
   py "-y";
   output_path].

(** The inner try block: the run of the tool. *)
Definition run_ffmpeg (cmd : list str) : M bool :=
  try_except
    (result ← subprocess_run cmd None;
     if (returncode result =? 0)%Z then
       log_message [Txt "Video merge completed successfully!"];;
       match stderr result with
       | [] => ret ()
       | _ :: _ =>
           for_each (λ line,
                       if contains line (py "frame=") && contains line (py "time=")
                       then ret ()
                       else if contains line (py "Duration:") || contains line (py "Stream")
                               || contains line (py "Output")
                       then log_message [Txt "FFmpeg: "; Str (strip line)]
                       else ret ())
                    (split newline (stderr result))
       end;;
       ret true
     else
       log_message (error_msg result);;
       ret false)
    (λ e, match exn_type e with
          | TimeoutExpired =>
              log_message [Txt "FFmpeg process timed out (over 5 minutes)"];;
              ret false
          | _ =>
              log_message [Txt "Error running FFmpeg process: "; Str (exn_text e)];;
              ret false
          end).

(** The outer try block.  [concat_file_path] is bound as soon as
    [NamedTemporaryFile] has returned. *)
Definition build_and_run (video_files : list str) (output_path ffmpeg_path : str) : M bool :=
  concat_file_path ← named_temporary_file;
  with_file concat_file_path
    (log_message [Txt "Creating concat file list..."];;
     for_each (λ ix : nat * str,
                 let escaped_path := escape_path ix.2 in
                 file_write concat_file_path
                   (py "file '" ++ escaped_path ++ py "'" ++ [newline]);;
                 log_message [Txt "Added to list "; Int (Z.of_nat ix.1 + 1); Txt "/";
                              Int (Z.of_nat (length video_files)); Txt ": ";
                              Str (basename ix.2)])
              (imap pair video_files);;
     log_message [Txt "Created concat file list with ";
                  Int (Z.of_nat (length video_files)); Txt " videos"]);;
  log_message [Txt "Building ffmpeg command..."];;
  let cmd := ffmpeg_command ffmpeg_path concat_file_path output_path in
  log_message [Txt "FFmpeg command: "; Str (join (py " ") cmd)];;
  log_message [Txt "Executing ffmpeg process... (this may take a while)"];;
  run_ffmpeg cmd.

(** The handler of the outer try block. *)
Definition report_unexpected (ffmpeg_path : str) (e : exn) : M bool :=
  log_message [Txt "Unexpected error during merge: "; Str (exn_text e)];;
  log_message [Txt "Error type: "; Txt (exn_name e)];;
  log_message [Txt "Debugging information:"];;
  log_message [Txt "  - Using FFmpeg path: "; Str ffmpeg_path];;
  log_message [Txt "  - Bundled FFmpeg path: "; Str (bundled_ffmpeg E)];;
  found ← path_exists (bundled_ffmpeg E);
  log_message [Txt "  - Bundled FFmpeg exists: ";
               Txt (if found : bool then "True" else "False")];;
  ret false.

(** The try statement: [concat_file_path] is in [locals()] when the
    finally block runs exactly when [NamedTemporaryFile] has returned. *)
Definition try_merge (video_files : list str) (output_path ffmpeg_path : str) : M bool :=
  try_finally
    (try_except
       (build_and_run video_files output_path ffmpeg_path)
       (report_unexpected ffmpeg_path))
    (cleanup (match mktemp E with inr name => Some name | inl _ => None end)).

Definition merge_videos_with_ffmpeg (video_files : list str) (output_path : str) : M bool :=
  emit (Merging video_files output_path);;
  log_message [Txt "Starting video merge process..."];;
  checked ← check_ffmpeg_binary;
  let ffmpeg_available := checked.1.1 in
  let status := checked.1.2 in
  if negb ffmpeg_available then
    log_message (Txt "FFmpeg check failed: " :: status);;
    ret false
  else
    let ffmpeg_path := default [] checked.2 in
    log_message [Txt "Using FFmpeg at: "; Str ffmpeg_path];;
    try_merge video_files output_path ffmpeg_path.

(** ** [merge_videos] *)

Definition no_files_found (mode_text : string) : message :=
  [Txt "No valid video files found in "; Txt mode_text; Txt "!";
   Txt " Please ensure you have video files starting with 'RecM0' and following the naming pattern: RecM05_YYYYMMDD_HHMMSS_..."].

Definition merge_videos (app : App) : M unit :=
  try_finally
    (try_except
       (let output_folder := output_folder app in
        found ← path_exists output_folder;
        if negb found then log_message [Txt "Output folder does not exist!"]
        else
          input ← (if bool_decide (selection_mode app = py "folder") then
                     let input_folder := input_folder app in
                     found ← path_exists input_folder;
                     if negb found
                     then log_message [Txt "Input folder does not exist!"];; ret None
                     else video_files ← find_video_files app input_folder;
                          ret (Some video_files)
                   else video_files ← find_video_files app [];
                        ret (Some video_files));
          match input with
          | None => ret ()
          | Some [] =>
              let mode_text :=
                if bool_decide (selection_mode app = py "folder")
                then "folder" else "selected files" in
              emit (ErrorBox "Error" (no_files_found mode_text))
          | Some ((_ :: _) as video_files) =>
              let output_path := path_join output_folder (py "Panorama.mp4") in
              found ← path_exists output_path;
              proceed ← (if found : bool then
                           emit (YesNoBox "File Exists"
                                   [Txt "The file 'Panorama.mp4' already exists in the output folder. Do you want to overwrite it?"]);;
                           if negb (askyesno E)
                           then log_message [Txt "Merge cancelled by user"];; ret false
                           else ret true
                         else ret true);
              if proceed : bool then
                success ← merge_videos_with_ffmpeg video_files output_path;
                if success : bool then
                  log_message [Txt "MERGE COMPLETE!"];;
                  log_message [Txt "Output saved to: "; Str output_path];;
                  emit (InfoBox "Success"
                          [Txt "Merging complete! You can now upload the video to VideoArena. Output file: Panorama.mp4 Location: ";
                           Str output_folder])
                else
                  emit (ErrorBox "Error"
                          [Txt "Video merging failed! Please check the log for details."])
              else ret ()
          end)
       (λ e,
          log_message [Txt "Unexpected error: "; Str (exn_text e)];;
          emit (ErrorBox "Error" [Txt "Unexpected error: "; Str (exn_text e)])))
    (emit ResetUI).

End Pipeline.

(** * What the claims are stated with *)

Section Notions.
Context {RT : Runtime}.

(** What it means for a text to match an expression, with the groups it
    captures. *)
Inductive matches : regex → str → list str → Prop :=
| matches_eps : matches Eps [] []
| matches_one k c : cls_match k c = true → matches (One k) [c] []
| matches_cat r1 r2 m1 g1 m2 g2 :
    matches r1 m1 g1 → matches r2 m2 g2 →
    matches (Cat r1 r2) (m1 ++ m2) (g1 ++ g2)
| matches_alt_l r1 r2 m g : matches r1 m g → matches (Alt r1 r2) m g
| matches_alt_r r1 r2 m g : matches r2 m g → matches (Alt r1 r2) m g
| matches_plus k m :
    m ≠ [] → Forall (λ c, cls_match k c = true) m → matches (Plus k) m []
| matches_rep n k m :
    length m = n → Forall (λ c, cls_match k c = true) m → matches (Rep n k) m []
| matches_grp r m g : matches r m g → matches (Grp r) m (m :: g).

(** Strings of [\d] characters, and strings of the digits 0 to 9. *)
Definition digits (s : str) : Prop := Forall (λ c, isdecimal c = true) s.

Definition ascii_digits (s : str) : Prop := Forall (λ c, ascii_digit c = true) s.

Definition underscore : N := 95.

(** [RecM0<ds>_<d>_<t>] *)
Definition token (ds d t : str) : str :=
  py "RecM0" ++ ds ++ [underscore] ++ d ++ [underscore] ++ t.

Definition is_token (ds d t : str) : Prop :=
  ds ≠ [] ∧ digits ds ∧ digits d ∧ length d = 8%nat ∧ digits t ∧ length t = 6%nat.

(** A name has a token at its start. *)
Definition token_at (s : str) : Prop :=
  ∃ ds d t rest, s = token ds d t ++ rest ∧ is_token ds d t.

(** The first token of a name starts after [pre]. *)
Definition first_token (filename pre ds d t post : str) : Prop :=
  filename = pre ++ token ds d t ++ post ∧ is_token ds d t
  ∧ ∀ i, (i < length pre)%nat → ¬ token_at (drop i filename).

(** The date and time that eight and six digits spell. *)
Definition stamp (d t : str) : datetime :=
  mkdt (int (take 4 d)) (int (take 2 (drop 4 d))) (int (drop 6 d))
       (int (take 2 t)) (int (take 2 (drop 2 t))) (int (drop 4 t)) 0.

(** The dates and times of day that exist. *)
Definition valid (x : datetime) : bool :=
  check_date_fields (year x) (month x) (day x)
  && check_time_fields (hour x) (minute x) (second x) (microsecond x).

Definition one_or_two (s : str) : Prop := length s = 1%nat ∨ length s = 2%nat.

(** The timestamp that the loop body finds in a file name, if any. *)
Definition timestamp_of (filename : str) : option datetime :=
  match re_search timestamp_pattern filename with
  | Some m =>
      match strptime (group m 1 ++ py "_" ++ group m 2) with
      | Ok x => Some x
      | _ => None
      end
  | None => None
  end.

(** What the loop body writes on the log for a file. *)
Definition parse_log (file_path : str) : list event :=
  let filename := basename file_path in
  match re_search timestamp_pattern filename with
  | Some m =>
      match strptime (group m 1 ++ py "_" ++ group m 2) with
      | Ok x => [Log [Txt "Parsed: "; Str filename; Txt " -> "; Date x]]
      | _ => [Log [Txt "Could not parse timestamp in: "; Str filename]]
      end
  | None => [Log [Txt "Invalid filename format: "; Str filename]]
  end.

(** The entries that the loop collects, in the order of the input. *)
Definition parsed (video_files : list str) : list entry :=
  omap (λ p, (λ x, (x, p, basename p)) <$> timestamp_of (basename p)) video_files.

(** The entries after the sort. *)
Definition sorted_entries (video_files : list str) : list entry :=
  list_sort (λ x : entry, x.1.1) dt_lt (parsed video_files).

(** What is logged after the sort. *)
Definition sort_log (es : list entry) : list event :=
  match es with
  | [] => [Log [Txt "No files with valid timestamp format found!"]]
  | _ :: _ =>
      Log [Txt "Sorted "; Int (Z.of_nat (length es)); Txt " files chronologically"]
      :: ((λ ix : nat * entry, Log [Txt "  "; Int (Z.of_nat ix.1 + 1); Txt ". "; Str ix.2.2])
            <$> imap pair es)
  end.

(** The path and the timestamp of an entry. *)
Definition path_of (e : entry) : str := e.1.2.

Definition stamp_of (e : entry) : datetime := e.1.1.

(** Why a file is left out: no token anywhere in its name, or a first
    token whose digits spell no date and time of day that exist.  The
    message is the report that the log gets. *)
Inductive unparsable (filename : str) : message → Prop :=
| no_match :
    (∀ i, ¬ token_at (drop i filename)) →
    unparsable filename [Txt "Invalid filename format: "; Str filename]
| bad_date pre ds d t post :
    first_token filename pre ds d t post → valid (stamp d t) = false →
    unparsable filename [Txt "Could not parse timestamp in: "; Str filename].

(** What the two replacements make of one character. *)
Definition escape_char (c : N) : str :=
  if c =? backslash then [backslash; backslash]
  else if c =? quote then [backslash; quote]
  else [c].

(** The path [C:\cam's\RecM01_20240101_000000.mp4]. *)
Definition cam_path : str :=
  py "C:" ++ [backslash] ++ py "cam" ++ [quote] ++ py "s" ++ [backslash]
  ++ py "RecM01_20240101_000000.mp4".

(** The files that pass the prefix filter of [browse_input_files]. *)
Definition with_prefix (files : list str) : list str :=
  filter (λ file_path, startswith (basename file_path) (py "RecM0") = true) files.

End Notions.

(** [a] may stand before [b] in a list sorted by [key]. *)
Definition key_le {A K} (key : A → K) (lt : K → K → bool) (a b : A) : Prop :=
  lt (key b) (key a) = false.

(** [a] is not later than [b]. *)
Definition dt_le (a b : datetime) : Prop := dt_compare a b ≠ Gt.

Global Instance datetime_eq_dec : EqDecision datetime.
Proof. solve_decision. Defined.

(** A step after the events [evs]. *)
Definition prepend {A} (evs : list event) (s : step A) : step A :=
  Step (result s) (disk s) (evs ++ events s).

(** Every event that [m] emits, from whatever state, satisfies [P]. *)
Definition emits {A} (P : event → Prop) (m : M A) : Prop :=
  ∀ fs, Forall P (events (m fs)).

(** The events of the merge executor. *)
Definition executor_event (ev : event) : Prop :=
  match ev with
  | Merging _ _ | Spawn _ _ | CreateTemp _ | WriteLine _ _ | Unlink _ => True
  | _ => False
  end.

(** The same environment with another behaviour of [os.unlink]. *)
Definition with_unlink (E : Env) (u : list N → option exn) : Env :=
  {| spawn := spawn E; mktemp := mktemp E; write := write E; close := close E;
     unlink := u; glob := glob E; askyesno := askyesno E;
     bundled_ffmpeg := bundled_ffmpeg E |}.

(** What the log gets when the playlist cannot be removed. *)
Definition cleanup_warning (e : exn) : event :=
  Log [Txt "Warning: Could not clean up temporary file: "; Str (exn_text e)].

(** An environment in which everything works and the merge command runs
    for [duration] seconds before it exits with code 0 ([None]: it never
    exits); the probe takes a second. *)
Definition tool (duration : option N) : Env := {|
  spawn argv :=
    match argv with
    | [_; _] => Runs (Some 1) 0 (py "ffmpeg version 6.0") [] id
    | _ => Runs duration 0 [] [] id
    end;
  mktemp := inr (py "/tmp/tmpconcat.txt");
  write _ _ := None;
  close _ := None;
  unlink _ := None;
  glob _ _ := [];
  askyesno := true;
  bundled_ffmpeg := py "/app/ffmpeg/bin/ffmpeg.exe";
|}.

(** * Environments and applications for the runs *)

(** An application in files mode with one file selected, and one in
    folder mode. *)
Definition one_file : App := {|
  selection_mode := py "files"; input_folder := [];
  output_folder := py "/out";
  selected_files := [py "/v/RecM01_20240101_090000.mp4"];
|}.

Definition empty_folder : App := {|
  selection_mode := py "folder"; input_folder := py "/v";
  output_folder := py "/out"; selected_files := [];
|}.

(** An environment whose merge command exits with code 1. *)
Definition failing_tool : Env := {|
  spawn argv :=
    match argv with
    | [_; _] => Runs (Some 1) 0 (py "ffmpeg version 6.0") [] id
    | _ => Runs (Some 2) 1 [] (py "Invalid data found") id
    end;
  mktemp := inr (py "/tmp/tmpconcat.txt");
  write _ _ := None;
  close _ := None;
  unlink _ := None;
  glob _ _ := [];
  askyesno := true;
  bundled_ffmpeg := py "/app/ffmpeg/bin/ffmpeg.exe";
|}.

(** The scenario of the specification: three segments and a text file in
    a folder. *)
Definition scenario : Env := {|
  spawn := spawn (tool (Some 5));
  mktemp := mktemp (tool (Some 5));
  write := write (tool (Some 5));
  close := close (tool (Some 5));
  unlink := unlink (tool (Some 5));
  glob _ pattern :=
    if bool_decide (pattern = py "/v/RecM0**.mp4")
    then [py "/v/RecM01_20240101_090000.mp4"; py "/v/RecM02_20240101_091500.mp4"]
    else if bool_decide (pattern = py "/v/RecM0**.MP4")
    then [py "/v/RecM01_20240101_090000.mp4"]
    else if bool_decide (pattern = py "/v/RecM0**.mov")
    then [py "/v/RecM03_20240101_083000.mov"]
    else [];
  askyesno := true;
  bundled_ffmpeg := bundled_ffmpeg (tool (Some 5));
|}.

(** * The window

    The state of [PanoramaCombiner] that its handlers read and change,
    and the handlers themselves: [setup_variables], [setup_gui],
    [check_ffmpeg_on_startup], [update_input_mode], the three browse
    handlers, [check_ready_to_merge], [start_merge_process] and the
    finally block of [merge_videos].  Of the widgets, the state keeps
    what the handlers depend on: whether the merge button is enabled,
    whether the progress bar runs, and which browse button
    [update_input_mode] has put into [input_frame]. *)

Module Gui.

Inductive section := FolderSection | FilesSection.

Record Window := {
  app : App;                      (* selection_mode, input_folder, output_folder,
                                     selected_files *)
  is_processing : bool;
  ffmpeg_available : bool;
  ffmpeg_path : option (list N);
  merge_button : bool;            (* state == tk.NORMAL *)
  progress_bar : bool;            (* started and not stopped *)
  input_frame : option section;
}.

Definition set_app (w : Window) (a : App) : Window :=
  {| app := a; is_processing := is_processing w;
     ffmpeg_available := ffmpeg_available w; ffmpeg_path := ffmpeg_path w;
     merge_button := merge_button w; progress_bar := progress_bar w;
     input_frame := input_frame w |}.

Definition set_selection_mode (a : App) (mode : list N) : App :=
  {| selection_mode := mode; input_folder := input_folder a;
     output_folder := output_folder a; selected_files := selected_files a |}.

Definition set_input_folder (a : App) (folder : list N) : App :=
  {| selection_mode := selection_mode a; input_folder := folder;
     output_folder := output_folder a; selected_files := selected_files a |}.

Definition set_output_folder (a : App) (folder : list N) : App :=
  {| selection_mode := selection_mode a; input_folder := input_folder a;
     output_folder := folder; selected_files := selected_files a |}.

Definition set_selected_files (a : App) (files : list (list N)) : App :=
  {| selection_mode := selection_mode a; input_folder := input_folder a;
     output_folder := output_folder a; selected_files := files |}.

Definition set_merge_button (w : Window) (enabled : bool) : Window :=
  {| app := app w; is_processing := is_processing w;
     ffmpeg_available := ffmpeg_available w; ffmpeg_path := ffmpeg_path w;
     merge_button := enabled; progress_bar := progress_bar w;
     input_frame := input_frame w |}.

Definition set_input_frame (w : Window) (s : section) : Window :=
  {| app := app w; is_processing := is_processing w;
     ffmpeg_available := ffmpeg_available w; ffmpeg_path := ffmpeg_path w;
     merge_button := merge_button w; progress_bar := progress_bar w;
     input_frame := Some s |}.

(** The truth value of a string or a list: it is not empty. *)
Definition truthy {A} (l : list A) : bool :=
  match l with [] => false | _ :: _ => true end.

(** [setup_variables], with the merge button as [setup_gui] creates it
    ([state=tk.DISABLED]) and [input_frame] still empty. *)
Definition setup_variables : Window := {|
  app := {| selection_mode := py "folder"; input_folder := [];
            output_folder := []; selected_files := [] |};
  is_processing := false;
  ffmpeg_available := false;
  ffmpeg_path := None;
  merge_button := false;
  progress_bar := false;
  input_frame := None;
|}.

Definition check_ready_to_merge (w : Window) : Window :=
  let ready :=
    if truthy (output_folder (app w)) && negb (is_processing w) && ffmpeg_available w
    then if bool_decide (selection_mode (app w) = py "folder")
         then truthy (input_folder (app w))
         else truthy (selected_files (app w))
    else false in
  set_merge_button w ready.

Definition update_input_mode (w : Window) : Window :=
  let mode := selection_mode (app w) in
  let w :=
    if bool_decide (mode = py "folder")
    then set_app (set_input_frame w FolderSection) (set_selected_files (app w) [])
    else set_app (set_input_frame w FilesSection) (set_input_folder (app w) []) in
  check_ready_to_merge w.

(** The end of [setup_gui]: the rest of it creates widgets. *)
Definition setup_gui (w : Window) : M Window :=
  let w := update_input_mode w in
  log_message [Txt "Welcome to Camera-Pan Video Combiner!"];;
  log_message [Txt "Please select your input method and choose input/output locations to begin."];;
  ret w.

(** [browse_input_folder], given the answer [folder] of the dialog (the
    empty string when it is cancelled). *)
Definition browse_input_folder (w : Window) (folder : list N) : M Window :=
  if truthy folder then
    let w := set_app w (set_input_folder (app w) folder) in
    log_message [Txt "Input folder selected: "; Str folder];;
    ret (check_ready_to_merge w)
  else ret w.

Definition browse_output_folder (w : Window) (folder : list N) : M Window :=
  if truthy folder then
    let w := set_app w (set_output_folder (app w) folder) in
    log_message [Txt "Output folder selected: "; Str folder];;
    ret (check_ready_to_merge w)
  else ret w.

(** The finally block of [merge_videos]. *)
Definition reset_ui (w : Window) : Window :=
  check_ready_to_merge
    {| app := app w; is_processing := false;
       ffmpeg_available := ffmpeg_available w; ffmpeg_path := ffmpeg_path w;
       merge_button := merge_button w; progress_bar := false;
       input_frame := input_frame w |}.

(** [start_merge_process]; the boolean tells whether the merge thread
    was started. *)
Definition start_merge_process (w : Window) : M (Window * bool) :=
  if is_processing w then ret (w, false)
  else if negb (ffmpeg_available w) then
    emit (ErrorBox "FFmpeg Not Available"
            [Txt "FFmpeg is required for video merging but is not available. Please ensure the application is properly installed with all components."]);;
    ret (w, false)
  else
    ret ({| app := app w; is_processing := true;
            ffmpeg_available := ffmpeg_available w; ffmpeg_path := ffmpeg_path w;
            merge_button := false; progress_bar := true;
            input_frame := input_frame w |}, true).

Section Handlers.
Context {RT : Runtime} (E : Env).

(** [browse_input_files] with what it does to the merge button. *)
Definition browse_input_files (w : Window) (files : list (list N)) : M Window :=
  a ← browse_input_files (app w) files;
  ret (if truthy files then check_ready_to_merge (set_app w a) else w).

Definition check_ffmpeg_on_startup (w : Window) : M Window :=
  checked ← check_ffmpeg_binary E;
  let status_message := checked.1.2 in
  let w :=
    {| app := app w; is_processing := is_processing w;
       ffmpeg_available := checked.1.1; ffmpeg_path := checked.2;
       merge_button := merge_button w; progress_bar := progress_bar w;
       input_frame := input_frame w |} in
  (if ffmpeg_available w then log_message status_message
   else
     log_message (Txt "FFmpeg check failed: " :: status_message);;
     log_message [Txt "Video merging will not work until FFmpeg is available."]);;
  ret w.

(** [__init__] *)
Definition init : M Window :=
  w ← setup_gui setup_variables;
  check_ffmpeg_on_startup w.

(** What happens in the window: a radio button is chosen, a browse
    dialog is answered, the merge button is pressed, the merge thread
    reaches its finally block.  A browse button can be pressed while it
    is in [input_frame], the merge button while it is enabled.  The
    handlers and the finally block run one at a time; [threads] counts
    the merge threads that were started and have not reached their
    finally block. *)
Record Session := { window : Window; threads : nat }.

Definition mode_value (s : section) : list N :=
  match s with FolderSection => py "folder" | FilesSection => py "files" end.

Inductive handle : Session → Session → Prop :=
| choose_mode w n s :
    handle {| window := w; threads := n |}
           {| window := update_input_mode (set_app w (set_selection_mode (app w) (mode_value s)));
              threads := n |}
| answer_input_folder w n folder fs w' :
    input_frame w = Some FolderSection →
    result (browse_input_folder w folder fs) = Ok w' →
    handle {| window := w; threads := n |} {| window := w'; threads := n |}
| answer_input_files w n files fs w' :
    input_frame w = Some FilesSection →
    result (browse_input_files w files fs) = Ok w' →
    handle {| window := w; threads := n |} {| window := w'; threads := n |}
| answer_output_folder w n folder fs w' :
    result (browse_output_folder w folder fs) = Ok w' →
    handle {| window := w; threads := n |} {| window := w'; threads := n |}
| press_merge w n fs w' started :
    merge_button w = true →
    result (start_merge_process w fs) = Ok (w', started) →
    handle {| window := w; threads := n |}
           {| window := w'; threads := if started : bool then S n else n |}
| thread_ends w n :
    (0 < n)%nat →
    handle {| window := w; threads := n |}
           {| window := reset_ui w; threads := pred n |}.

(** The sessions that can be reached after [__init__]. *)
Definition reachable (s : Session) : Prop :=
  ∃ fs w0, result (init fs) = Ok w0
           ∧ rtc handle {| window := w0; threads := 0 |} s.

End Handlers.

(** The condition under which the merge button is to be enabled. *)
Definition ready (w : Window) : Prop :=
  output_folder (app w) ≠ [] ∧ is_processing w = false ∧ ffmpeg_available w = true
  ∧ (selection_mode (app w) = py "folder" ∧ input_folder (app w) ≠ []
     ∨ selection_mode (app w) ≠ py "folder" ∧ selected_files (app w) ≠ []).

(** What holds of every session that can be reached. *)
Definition invariant (s : Session) : Prop :=
  let w := window s in
  (merge_button w = true ↔ ready w)
  ∧ (threads s ≤ 1)%nat
  ∧ (is_processing w = true ↔ threads s = 1%nat)
  ∧ (ffmpeg_available w = true ↔ is_Some (ffmpeg_path w))
  ∧ (selection_mode (app w) = py "folder" ∧ input_frame w = Some FolderSection
     ∧ selected_files (app w) = []
     ∨ selection_mode (app w) = py "files" ∧ input_frame w = Some FilesSection
       ∧ input_folder (app w) = []).

End Gui.

(** * What the further properties are stated with *)

Section Notions2.
Context {RT : Runtime}.

(** The line of the playlist for a file. *)
Definition playlist_line (video_file : list N) : list N :=
  py "file '" ++ escape_path video_file ++ py "'" ++ [newline].

(** The lines written to files, in the order of the writes. *)
Definition written (evs : list event) : list (list N * list N) :=
  omap (λ ev, match ev with WriteLine name line => Some (name, line) | _ => None end) evs.

(** The commands run without a timeout, and those run with one. *)
Definition unbounded_runs (evs : list event) : list (list (list N)) :=
  omap (λ ev, match ev with Spawn argv None => Some argv | _ => None end) evs.

Definition probes (evs : list event) : list (list (list N) * N) :=
  omap (λ ev, match ev with Spawn argv (Some t) => Some (argv, t) | _ => None end) evs.

(** The events of writing the playlist, and those of the steps after the
    run of the tool. *)
Definition playlist_event (ev : event) : Prop :=
  match ev with Log _ | CreateTemp _ | WriteLine _ _ => True | _ => False end.

Definition closing_event (ev : event) : Prop :=
  match ev with Log _ | Unlink _ => True | _ => False end.

(** How a call of [merge_videos_with_ffmpeg] ends when it has launched
    the command [argv]. *)
Definition exit_outcome (b : behaviour) : outcome bool :=
  match b with
  | Fails _ => Ok false
  | Runs (Some _) rc _ _ _ => Ok (bool_decide (rc = 0%Z))
  | Runs None _ _ _ _ => Hang
  end.

(** What the log gets when the merge command fails. *)
Definition failure_report (b : behaviour) : option message :=
  match b with
  | Fails e =>
      Some (match exn_type e with
            | TimeoutExpired => [Txt "FFmpeg process timed out (over 5 minutes)"]
            | _ => [Txt "Error running FFmpeg process: "; Str (exn_text e)]
            end)
  | Runs (Some _) rc out err _ =>
      if (rc =? 0)%Z then None else Some (error_msg (Completed rc out err))
  | Runs None _ _ _ _ => None
  end.

(** A file has a timestamp that the parser reads. *)
Definition parsable (file_path : list N) : Prop :=
  is_Some (timestamp_of (basename file_path)).

Global Instance parsable_dec file_path : Decision (parsable file_path).
Proof. unfold parsable. apply _. Defined.

(** A list of files in the order of their timestamps, oldest first. *)
Definition chronological (files : list (list N)) : Prop :=
  ∃ stamps, Forall2 (λ p x, timestamp_of (basename p) = Some x) files stamps
            ∧ Sorted dt_le stamps.

(** What the six patterns of [find_video_files_in_folder] match. *)
Definition globbed (E : Env) (fs : gset (list N)) (input_folder : list N)
    (file_path : list N) : Prop :=
  ∃ ext, ext ∈ video_extensions
         ∧ file_path ∈ glob E fs (path_join input_folder (py "RecM0*" ++ ext)).

(** The path that [merge_videos] writes to. *)
Definition panorama (a : App) : list N :=
  path_join (output_folder a) (py "Panorama.mp4").

(** The events of [merge_videos] before it calls the executor; the
    question whether to overwrite is only asked when the output file
    exists. *)
Definition prelude_event (a : App) (fs : gset (list N)) (ev : event) : Prop :=
  match ev with
  | Log _ => True
  | YesNoBox _ _ => panorama a ∈ fs
  | _ => False
  end.

(** What [merge_videos] does after the executor has ended with [r]. *)
Definition closing (a : App) (r : outcome bool) : list event :=
  match r with
  | Ok true =>
      [Log [Txt "MERGE COMPLETE!"];
       Log [Txt "Output saved to: "; Str (panorama a)];
       InfoBox "Success"
         [Txt "Merging complete! You can now upload the video to VideoArena. Output file: Panorama.mp4 Location: ";
          Str (output_folder a)];
       ResetUI]
  | Ok false =>
      [ErrorBox "Error" [Txt "Video merging failed! Please check the log for details."];
       ResetUI]
  | Raise e =>
      [Log [Txt "Unexpected error: "; Str (exn_text e)];
       ErrorBox "Error" [Txt "Unexpected error: "; Str (exn_text e)];
       ResetUI]
  | Hang => []
  end.

(** A probe that the bundled binary passes: it exits with code 0 within
    the ten seconds. *)
Definition passes (b : behaviour) : bool :=
  match b with
  | Runs (Some d) rc _ _ _ => negb (10 <? d) && (rc =? 0)%Z
  | _ => false
  end.

End Notions2.

(** An environment like [E] in which the file dialogs and commands are
    the same but [NamedTemporaryFile] fails. *)
Definition without_temp (E : Env) (e : exn) : Env :=
  {| spawn := spawn E; mktemp := inl e; write := write E; close := close E;
     unlink := unlink E; glob := glob E; askyesno := askyesno E;
     bundled_ffmpeg := bundled_ffmpeg E |}.

(** An environment without FFmpeg, and one in which the user declines to
    overwrite. *)
Definition no_ffmpeg : Env := {|
  spawn _ := Fails (Exn FileNotFoundError (py "No such file or directory: 'ffmpeg'"));
  mktemp := inr (py "/tmp/tmpconcat.txt");
  write _ _ := None;
  close _ := None;
  unlink _ := None;
  glob _ _ := [];
  askyesno := true;
  bundled_ffmpeg := py "/app/ffmpeg/bin/ffmpeg.exe";
|}.

Definition declining : Env := {|
  spawn := spawn (tool (Some 5));
  mktemp := mktemp (tool (Some 5));
  write := write (tool (Some 5));
  close := close (tool (Some 5));
  unlink := unlink (tool (Some 5));
  glob := glob (tool (Some 5));
  askyesno := false;
  bundled_ffmpeg := bundled_ffmpeg (tool (Some 5));
|}.

(** The window after [__init__] with a working FFmpeg on the search
    path, and the session in which an output folder and an input folder
    have then been chosen. *)
Definition started : Gui.Window := {|
  Gui.app := {| selection_mode := py "folder"; input_folder := [];
                output_folder := []; selected_files := [] |};
  Gui.is_processing := false;
  Gui.ffmpeg_available := true;
  Gui.ffmpeg_path := Some (py "ffmpeg");
  Gui.merge_button := false;
  Gui.progress_bar := false;
  Gui.input_frame := Some Gui.FolderSection;
|}.

Definition ready_session : Gui.Session := {|
  Gui.window := {|
    Gui.app := {| selection_mode := py "folder"; input_folder := py "/v";
                  output_folder := py "/out"; selected_files := [] |};
    Gui.is_processing := false;
    Gui.ffmpeg_available := true;
    Gui.ffmpeg_path := Some (py "ffmpeg");
    Gui.merge_button := true;
    Gui.progress_bar := false;
    Gui.input_frame := Some Gui.FolderSection;
  |};
  Gui.threads := 0;
|}.

(** * The regular expression matcher *)


Section Regex_facts.
Context {RT : Runtime}.

Lemma many1_spec k s m rest :
  (m, rest) ∈ many1 k s ↔
  s = m ++ rest ∧ m ≠ [] ∧ Forall (λ c, cls_match k c = true) m.
Proof.
  revert m. induction s as [|c s IH]; intros m; simpl.
  - split.
    + intros H. by apply elem_of_nil in H.
    + intros (Hs & Hm & _). destruct m; [done | discriminate].
  - destruct (cls_match k c) eqn:Hc.
    + rewrite elem_of_app, list_elem_of_fmap, list_elem_of_singleton. split.
      * intros [([m' r'] & Heq & Hin) | Heq]; simplify_eq/=.
        -- apply IH in Hin as (-> & _ & HF). auto.
        -- auto.
      * intros (Hs & Hm & HF). destruct m as [|c' m']; [done|].
        simplify_eq/=. apply Forall_cons in HF as [_ HF].
        destruct m' as [|c'' m'']; [by right|].
        left. exists (c'' :: m'', rest). split; [done|]. apply IH. auto.
    + split.
      * intros H. by apply elem_of_nil in H.
      * intros (Hs & Hm & HF). destruct m as [|c' m']; [done|].
        simplify_eq/=. apply Forall_cons in HF as [? _]. congruence.
Qed.

Lemma exactly_sound n k s m rest :
  exactly n k s = Some (m, rest) →
  s = m ++ rest ∧ length m = n ∧ Forall (λ c, cls_match k c = true) m.
Proof.
  revert s m. induction n as [|n IH]; intros s m; simpl.
  - intros [= <- <-]. auto.
  - destruct s as [|c s]; [done|].
    destruct (cls_match k c) eqn:Hc; [|done].
    destruct (exactly n k s) as [[m' r']|] eqn:He; [|done].
    intros [= <- <-]. apply IH in He as (-> & <- & HF). auto.
Qed.

Lemma exactly_complete k m rest :
  Forall (λ c, cls_match k c = true) m →
  exactly (length m) k (m ++ rest) = Some (m, rest).
Proof.
  induction 1 as [|c m Hc _ IH]; simpl; [done|]. by rewrite Hc, IH.
Qed.

Lemma exactly_spec n k s m rest :
  exactly n k s = Some (m, rest) ↔
  s = m ++ rest ∧ length m = n ∧ Forall (λ c, cls_match k c = true) m.
Proof.
  split; [apply exactly_sound|]. intros (-> & <- & HF). by apply exactly_complete.
Qed.

(** The matcher finds exactly the prefixes that match. *)
Theorem run_spec r s m g rest :
  (m, g, rest) ∈ run r s ↔ s = m ++ rest ∧ matches r m g.
Proof.
  revert s m g rest. induction r as [|k|r1 IH1 r2 IH2|r1 IH1 r2 IH2|k|n k|r IH];
    intros s m g rest; simpl.
  - rewrite list_elem_of_singleton. split.
    + intros [= -> -> ->]. split; [done | constructor].
    + intros [-> H]. by inversion H.
  - destruct s as [|c s].
    + split; [intros H; by apply elem_of_nil in H|].
      intros [Hs H]. inversion H; subst. discriminate.
    + destruct (cls_match k c) eqn:Hc.
      * rewrite list_elem_of_singleton. split.
        -- intros [= -> -> ->]. split; [done | by constructor].
        -- intros [Hs H]. inversion H; subst. by simplify_eq/=.
      * split; [intros H; by apply elem_of_nil in H|].
        intros [Hs H]. inversion H; subst. simplify_eq/=. congruence.
  - rewrite list_elem_of_bind. split.
    + intros ([[m1 g1] s1] & Hin & H1). apply list_elem_of_bind in Hin.
      destruct Hin as ([[m2 g2] s2] & Hin & H2). simpl in *.
      apply list_elem_of_singleton in Hin. simplify_eq.
      apply IH1 in H1 as [-> H1]. apply IH2 in H2 as [-> H2].
      split; [by rewrite (assoc_L (++)) | by constructor].
    + intros [-> H]. inversion H; subst.
      exists (m1, g1, m2 ++ rest). split.
      * apply list_elem_of_bind. exists (m2, g2, rest). simpl. split.
        -- by apply list_elem_of_singleton.
        -- by apply IH2.
      * apply IH1. by rewrite (assoc_L (++)).
  - rewrite elem_of_app, IH1, IH2. split.
    + intros [[-> H] | [-> H]]; (split; [done|]); [by apply matches_alt_l | by apply matches_alt_r].
    + intros [-> H]. inversion H; subst; auto.
  - rewrite list_elem_of_fmap. split.
    + intros ([m' r'] & Heq & Hin). simplify_eq/=.
      apply many1_spec in Hin as (-> & Hm & HF). split; [done | by constructor].
    + intros [-> H]. inversion H; subst. exists (m, rest). split; [done|].
      by apply many1_spec.
  - destruct (exactly n k s) as [[m' r']|] eqn:He; simpl.
    + rewrite list_elem_of_singleton. apply exactly_sound in He as (-> & Hl & HF). split.
      * intros [= -> -> ->]. split; [done | by constructor].
      * intros [Hs H]. inversion H; subst.
        match goal with Hlen : length _ = length _ |- _ =>
          destruct (app_inj_1 _ _ _ _ (eq_sym Hlen) Hs) as [-> ->] end.
        done.
    + split; [intros H; by apply elem_of_nil in H|].
      intros [-> H]. inversion H; subst.
      rewrite exactly_complete in He; done.
  - rewrite list_elem_of_fmap. split.
    + intros ([[m' g'] r'] & Heq & Hin). simplify_eq/=.
      apply IH in Hin as [-> H]. split; [done | by constructor].
    + intros [-> H]. inversion H; subst. exists (m, g0, rest). split; [done|].
      by apply IH.
Qed.


Ltac inv_matches :=
  repeat match goal with
  | H : matches Eps _ _ |- _ => inversion H; clear H; subst
  | H : matches (One _) _ _ |- _ => inversion H; clear H; subst
  | H : matches (Cat _ _) _ _ |- _ => inversion H; clear H; subst
  | H : matches (Alt _ _) _ _ |- _ => inversion H; clear H; subst
  | H : matches (Plus _) _ _ |- _ => inversion H; clear H; subst
  | H : matches (Rep _ _) _ _ |- _ => inversion H; clear H; subst
  | H : matches (Grp _) _ _ |- _ => inversion H; clear H; subst
  end.

Lemma re_match_Some_elem r s p : re_match r s = Some p → p ∈ run r s.
Proof. unfold re_match. destruct (run r s); intros [= ->]. by left. Qed.

Lemma re_match_None_nil r s : re_match r s = None ↔ run r s = [].
Proof. unfold re_match. by destruct (run r s). Qed.

Lemma re_match_unique r s p :
  p ∈ run r s → (∀ q, q ∈ run r s → q = p) → re_match r s = Some p.
Proof.
  unfold re_match. destruct (run r s) as [|x l]; intros Hin Hall.
  - by apply elem_of_nil in Hin.
  - simpl. f_equal. apply Hall. by left.
Qed.

(** [re.search] returns the match at the first offset that has one. *)
Lemma re_search_leftmost r pre s p :
  (∀ i, (i < length pre)%nat → re_match r (drop i (pre ++ s)) = None) →
  re_match r s = Some p →
  re_search r (pre ++ s) = Some p.
Proof.
  induction pre as [|c pre IH]; simpl; intros Hnone Hs.
  - destruct s; simpl; by rewrite Hs.
  - pose proof (Hnone 0%nat ltac:(lia)) as H0. simpl in H0. rewrite H0.
    apply IH; [|done]. intros i Hi. apply (Hnone (S i)). lia.
Qed.

Lemma re_search_None r s :
  re_search r s = None ↔ ∀ i, (i ≤ length s)%nat → re_match r (drop i s) = None.
Proof.
  induction s as [|c s IH]; simpl.
  - destruct (re_match r []) eqn:Hm.
    + split; [done|]. intros H. specialize (H 0%nat). simpl in H.
      rewrite Hm in H. by apply H.
    + split; [|done]. intros _ i Hi. by rewrite drop_nil.
  - destruct (re_match r (c :: s)) eqn:Hm.
    + split; [done|]. intros H. specialize (H 0%nat). simpl in H.
      rewrite Hm in H. apply H. lia.
    + rewrite IH. split.
      * intros H [|i] Hi; [done|]. simpl. apply H. lia.
      * intros H i Hi. apply (H (S i)). lia.
Qed.

Lemma re_search_Some r s p :
  re_search r s = Some p →
  ∃ i, (i ≤ length s)%nat ∧ re_match r (drop i s) = Some p
       ∧ ∀ j, (j < i)%nat → re_match r (drop j s) = None.
Proof.
  induction s as [|c s IH]; simpl.
  - destruct (re_match r []) eqn:Hm; [|done]. intros [= ->].
    exists 0%nat. split; [done|]. split; [done|]. intros; lia.
  - destruct (re_match r (c :: s)) eqn:Hm.
    + intros [= ->]. exists 0%nat. split; [lia|]. split; [done|]. intros; lia.
    + intros H. destruct (IH H) as (i & Hi & Hmi & Hlt).
      exists (S i). split; [lia|]. split; [done|].
      intros [|j] Hj; [done|]. simpl. apply Hlt. lia.
Qed.

(** ** The pattern of the file names *)

Lemma timestamp_pattern_unfold :
  timestamp_pattern =
  Cat (Cat (One (Chr 82)) (Cat (One (Chr 101)) (Cat (One (Chr 99))
        (Cat (One (Chr 77)) (Cat (One (Chr 48)) Eps)))))
   (Cat (Plus Dig) (Cat (One (Chr 95)) (Cat (Grp (Rep 8 Dig))
     (Cat (One (Chr 95)) (Cat (Grp (Rep 6 Dig)) Eps))))).
Proof. reflexivity. Qed.

Lemma matches_timestamp_pattern m g :
  matches timestamp_pattern m g ↔
  ∃ ds d t, m = token ds d t ∧ g = [d; t] ∧ is_token ds d t.
Proof.
  rewrite timestamp_pattern_unfold. split.
  - intros H. inv_matches.
    repeat match goal with
    | H : cls_match (Chr _) _ = true |- _ => apply N.eqb_eq in H; subst
    end.
    match goal with
    | H1 : ?ds ≠ [], H2 : length ?d = 8%nat, H3 : length ?t = 6%nat |- _ =>
        exists ds, d, t
    end.
    simpl. rewrite !app_nil_r. split; [done|]. split; [done|].
    by repeat split.
  - intros (ds & d & t & -> & -> & Hne & Hds & Hd & Hld & Ht & Hlt).
    unfold token.
    replace (py "RecM0" ++ ds ++ [underscore] ++ d ++ [underscore] ++ t)
      with (([82] ++ [101] ++ [99] ++ [77] ++ [48] ++ [])
              ++ ds ++ [95] ++ d ++ [95] ++ t ++ []).
    2:{ by rewrite !app_nil_r. }
    change [d; t] with (([] ++ [] ++ [] ++ [] ++ [] ++ []) ++ [] ++ [] ++ [d] ++ [] ++ [t] ++ []).
    repeat first
      [ apply matches_cat | apply matches_eps
      | by apply matches_one | by apply matches_plus
      | by (apply matches_grp; apply matches_rep) ].
Qed.

Lemma isdecimal_underscore c : isdecimal c = true → c ≠ underscore.
Proof. intros H ->. discriminate. Qed.

Lemma digits_span a a' x x' :
  digits a → digits a' →
  a ++ underscore :: x = a' ++ underscore :: x' → a = a' ∧ x = x'.
Proof.
  revert a'. induction a as [|c a IH]; intros [|c' a'] Ha Ha' Heq; simplify_eq/=.
  - done.
  - apply Forall_cons in Ha' as [Hc' _]. by apply isdecimal_underscore in Hc'.
  - apply Forall_cons in Ha as [Hc _]. by apply isdecimal_underscore in Hc.
  - apply Forall_cons in Ha as [_ Ha]. apply Forall_cons in Ha' as [_ Ha'].
    by destruct (IH a' Ha Ha' ltac:(done)) as [-> ->].
Qed.

Lemma token_inj ds d t rest ds' d' t' rest' :
  is_token ds d t → is_token ds' d' t' →
  token ds d t ++ rest = token ds' d' t' ++ rest' →
  ds = ds' ∧ d = d' ∧ t = t' ∧ rest = rest'.
Proof.
  intros (_ & Hds & Hd & Hld & Ht & Hlt) (_ & Hds' & Hd' & Hld' & Ht' & Hlt').
  unfold token. rewrite <- !(assoc_L (++)). intros Heq.
  apply app_inv_head in Heq. simpl in Heq.
  apply digits_span in Heq as [-> Heq]; [|done..].
  apply app_inj_1 in Heq as [-> Heq]; [|congruence].
  simplify_eq/=.
  apply app_inj_1 in Heq as [-> Heq]; [|congruence]. done.
Qed.

(** The matches of the pattern at the start of a name. *)
Lemma run_timestamp_pattern s m g rest :
  (m, g, rest) ∈ run timestamp_pattern s ↔
  ∃ ds d t, s = token ds d t ++ rest ∧ m = token ds d t ∧ g = [d; t]
            ∧ is_token ds d t.
Proof.
  rewrite run_spec, matches_timestamp_pattern. split.
  - intros (-> & ds & d & t & -> & -> & H). by exists ds, d, t.
  - intros (ds & d & t & -> & -> & -> & H). split; [done|]. by exists ds, d, t.
Qed.

Lemma re_match_token ds d t rest :
  is_token ds d t →
  re_match timestamp_pattern (token ds d t ++ rest)
  = Some (token ds d t, [d; t], rest).
Proof.
  intros Htok. apply re_match_unique.
  - apply run_timestamp_pattern. by exists ds, d, t.
  - intros [[m g] r] Hq. apply run_timestamp_pattern in Hq.
    destruct Hq as (ds' & d' & t' & Heq & -> & -> & Htok').
    destruct (token_inj _ _ _ _ _ _ _ _ Htok Htok' Heq) as (-> & -> & -> & ->).
    done.
Qed.

Lemma re_match_timestamp_inv s p :
  re_match timestamp_pattern s = Some p →
  ∃ ds d t, s = token ds d t ++ p.2 ∧ p = (token ds d t, [d; t], p.2)
            ∧ is_token ds d t.
Proof.
  intros H. apply re_match_Some_elem in H. destruct p as [[m g] rest].
  apply run_timestamp_pattern in H as (ds & d & t & -> & -> & -> & H).
  by exists ds, d, t.
Qed.

Lemma re_match_None_token s :
  re_match timestamp_pattern s = None ↔ ¬ token_at s.
Proof.
  split.
  - intros Hnone (ds & d & t & rest & -> & Htok).
    by rewrite re_match_token in Hnone.
  - intros Hno. destruct (re_match timestamp_pattern s) as [p|] eqn:Hm; [|done].
    apply re_match_timestamp_inv in Hm as (ds & d & t & Hs & _ & Htok).
    exfalso. apply Hno. by exists ds, d, t, p.2.
Qed.


(** ** [strptime] on the text of a token *)

Lemma ascii_digit_isdecimal c : ascii_digit c = true → isdecimal c = true.
Proof.
  intros H. unfold isdecimal. destruct (c <? 128) eqn:Hc; [done|].
  apply N.ltb_ge in Hc. unfold ascii_digit in H.
  apply andb_true_iff in H as [_ H]. apply N.leb_le in H. lia.
Qed.

Lemma ascii_digits_digits s : ascii_digits s → digits s.
Proof. intros H. eapply Forall_impl; [exact H | apply ascii_digit_isdecimal]. Qed.

Lemma ascii_digit_cases c :
  ascii_digit c = true →
  c = 48 ∨ c = 49 ∨ c = 50 ∨ c = 51 ∨ c = 52 ∨ c = 53 ∨ c = 54 ∨ c = 55
  ∨ c = 56 ∨ c = 57.
Proof.
  unfold ascii_digit. intros H. apply andb_true_iff in H as [H1 H2].
  apply N.leb_le in H1, H2. lia.
Qed.

Lemma strptime_outcome s :
  (∃ x, strptime s = Ok x ∧ valid x = true)
  ∨ (∃ msg, strptime s = Raise (Exn ValueError msg)).
Proof.
  unfold strptime. destruct (re_match format_regex s) as [found|]; [|eauto].
  destruct (found.2); [|eauto].
  unfold date_new, datetime_new, valid.
  destruct (check_date_fields _ _ _) eqn:Hd; [|eauto].
  destruct (check_time_fields _ _ _ _) eqn:Ht; [|eauto].
  left. eexists. split; [done|]. simpl. by rewrite Hd, Ht.
Qed.

Ltac directive_shape :=
  intros H; inv_matches; (split; [reflexivity|]); simpl; auto.

Lemma matches_directive_Y m g :
  matches directive_Y m g → g = [m] ∧ length m = 4%nat.
Proof. unfold directive_Y, seq_re; simpl. directive_shape. Qed.

Lemma matches_directive_m m g : matches directive_m m g → g = [m] ∧ one_or_two m.
Proof. unfold directive_m, two, one_or_two. directive_shape. Qed.

Lemma matches_directive_d m g : matches directive_d m g → g = [m] ∧ one_or_two m.
Proof. unfold directive_d, two, one_or_two. directive_shape. Qed.

Lemma matches_directive_H m g : matches directive_H m g → g = [m] ∧ one_or_two m.
Proof. unfold directive_H, two, one_or_two. directive_shape. Qed.

Lemma matches_directive_M m g : matches directive_M m g → g = [m] ∧ one_or_two m.
Proof. unfold directive_M, two, one_or_two. directive_shape. Qed.

Lemma matches_directive_S m g : matches directive_S m g → g = [m] ∧ one_or_two m.
Proof. unfold directive_S, two, one_or_two. directive_shape. Qed.

Lemma matches_format_regex m g :
  matches format_regex m g →
  ∃ gY gm gd gH gM gS,
    m = gY ++ gm ++ gd ++ [underscore] ++ gH ++ gM ++ gS
    ∧ g = [gY; gm; gd; gH; gM; gS]
    ∧ length gY = 4%nat ∧ one_or_two gm ∧ one_or_two gd
    ∧ one_or_two gH ∧ one_or_two gM ∧ one_or_two gS.
Proof.
  unfold format_regex, seq_re; simpl. intros H.
  repeat match goal with
  | H : matches (Cat _ _) _ _ |- _ => inversion H; clear H; subst
  | H : matches Eps _ _ |- _ => inversion H; clear H; subst
  | H : matches (One _) _ _ |- _ => inversion H; clear H; subst
  end.
  repeat match goal with
  | H : matches directive_Y _ _ |- _ => apply matches_directive_Y in H as [-> ?]
  | H : matches directive_m _ _ |- _ => apply matches_directive_m in H as [-> ?]
  | H : matches directive_d _ _ |- _ => apply matches_directive_d in H as [-> ?]
  | H : matches directive_H _ _ |- _ => apply matches_directive_H in H as [-> ?]
  | H : matches directive_M _ _ |- _ => apply matches_directive_M in H as [-> ?]
  | H : matches directive_S _ _ |- _ => apply matches_directive_S in H as [-> ?]
  | H : cls_match (Chr _) _ = true |- _ => apply N.eqb_eq in H; subst
  end.
  match goal with
  | |- context [?a ++ ?b ++ ?c ++ [95] ++ ?e ++ ?f ++ ?h ++ []] =>
      exists a, b, c, e, f, h
  end.
  rewrite !app_nil_r. simpl. by repeat split.
Qed.

Ltac explode l H :=
  repeat (destruct l as [|? l]; simpl in H; try discriminate H).

(** Whatever [strptime] accepts after the pattern has matched is the date
    and time that the digits spell. *)
Lemma strptime_Ok_inv d t x :
  digits d → length d = 8%nat → digits t → length t = 6%nat →
  strptime (d ++ py "_" ++ t) = Ok x → x = stamp d t ∧ valid x = true.
Proof.
  intros Hd Hld Ht Hlt Hok.
  destruct (strptime_outcome (d ++ py "_" ++ t)) as [(x' & Hx & Hv)|(msg & Hx)];
    [|congruence].
  assert (x' = x) as -> by congruence. split; [|done]. clear Hv Hx.
  unfold strptime in Hok.
  destruct (re_match format_regex _) as [[[m g] rest]|] eqn:Hm; [|done].
  simpl in Hok. destruct rest; [|done].
  apply re_match_Some_elem, run_spec in Hm as [Hs Hm]. rewrite app_nil_r in Hs.
  apply matches_format_regex in Hm
    as (gY & gm & gd & gH & gM & gS & -> & -> & HY & Hgm & Hgd & HgH & HgM & HgS).
  assert (Forall (λ c, c ≠ underscore) d) as Hd'
    by (eapply Forall_impl; [exact Hd | apply isdecimal_underscore]).
  clear Hd Ht.
  explode d Hld. explode t Hlt.
  repeat match goal with
  | H : Forall _ (_ :: _) |- _ => apply Forall_cons in H as [? H]
  end.
  explode gY HY.
  destruct Hgm as [Hgm|Hgm], Hgd as [Hgd|Hgd], HgH as [HgH|HgH],
    HgM as [HgM|HgM], HgS as [HgS|HgS];
    explode gm Hgm; explode gd Hgd; explode gH HgH; explode gM HgM;
    explode gS HgS; simplify_eq/=; try done.
  unfold group in Hok; simpl in Hok.
  unfold date_new, datetime_new in Hok.
  destruct (check_date_fields _ _ _); [|done].
  destruct (check_time_fields _ _ _ _); [|done].
  by simplify_eq.
Qed.


Lemma re_match_cat r1 r2 s p1 p2 :
  re_match r1 s = Some p1 → re_match r2 p1.2 = Some p2 →
  re_match (Cat r1 r2) s = Some (p1.1.1 ++ p2.1.1, p1.1.2 ++ p2.1.2, p2.2).
Proof.
  unfold re_match. simpl.
  destruct (run r1 s) as [|q1 l1]; [done|]. intros [= ->].
  rewrite bind_cons. destruct (run r2 p1.2) as [|q2 l2]; [done|]. by intros [= ->].
Qed.

Lemma re_match_chr c rest :
  re_match (One (Chr c)) (c :: rest) = Some ([c], [], rest).
Proof. unfold re_match. simpl. by rewrite N.eqb_refl. Qed.

Lemma re_match_eps s : re_match Eps s = Some ([], [], s).
Proof. done. Qed.

Ltac enum_digit H :=
  apply ascii_digit_cases in H;
  destruct H as [->|[->|[->|[->|[->|[->|[->|[->|[->| ->]]]]]]]]].

Ltac two_digit_field :=
  intros H1 H2 Hv; enum_digit H1; enum_digit H2;
  first [ reflexivity | exfalso; vm_compute in Hv; discriminate Hv ].

Lemma re_match_directive_Y c1 c2 c3 c4 rest :
  isdecimal c1 = true → isdecimal c2 = true →
  isdecimal c3 = true → isdecimal c4 = true →
  re_match directive_Y (c1 :: c2 :: c3 :: c4 :: rest)
  = Some ([c1; c2; c3; c4], [[c1; c2; c3; c4]], rest).
Proof.
  intros H1 H2 H3 H4. unfold re_match. simpl.
  rewrite H1; simpl. rewrite H2; simpl. rewrite H3; simpl. by rewrite H4.
Qed.

Lemma re_match_directive_m c1 c2 rest :
  ascii_digit c1 = true → ascii_digit c2 = true →
  (1 <=? int [c1; c2]) && (int [c1; c2] <=? 12) = true →
  re_match directive_m (c1 :: c2 :: rest) = Some ([c1; c2], [[c1; c2]], rest).
Proof. two_digit_field. Qed.

Lemma re_match_directive_d c1 c2 rest :
  ascii_digit c1 = true → ascii_digit c2 = true →
  (1 <=? int [c1; c2]) && (int [c1; c2] <=? 31) = true →
  re_match directive_d (c1 :: c2 :: rest) = Some ([c1; c2], [[c1; c2]], rest).
Proof. two_digit_field. Qed.

Lemma re_match_directive_H c1 c2 rest :
  ascii_digit c1 = true → ascii_digit c2 = true →
  (int [c1; c2] <=? 23) = true →
  re_match directive_H (c1 :: c2 :: rest) = Some ([c1; c2], [[c1; c2]], rest).
Proof. two_digit_field. Qed.

Lemma re_match_directive_M c1 c2 rest :
  ascii_digit c1 = true → ascii_digit c2 = true →
  (int [c1; c2] <=? 59) = true →
  re_match directive_M (c1 :: c2 :: rest) = Some ([c1; c2], [[c1; c2]], rest).
Proof. two_digit_field. Qed.

Lemma re_match_directive_S c1 c2 rest :
  ascii_digit c1 = true → ascii_digit c2 = true →
  (int [c1; c2] <=? 59) = true →
  re_match directive_S (c1 :: c2 :: rest) = Some ([c1; c2], [[c1; c2]], rest).
Proof. two_digit_field. Qed.

Lemma days_in_month_le y m : days_in_month y m ≤ 31.
Proof.
  unfold days_in_month.
  repeat match goal with |- context [if ?b then _ else _] => destruct b end; lia.
Qed.

Lemma strptime_of_match s m gY gm gd gH gM gS :
  re_match format_regex s = Some (m, [gY; gm; gd; gH; gM; gS], []) →
  valid (mkdt (int gY) (int gm) (int gd) (int gH) (int gM) (int gS) 0) = true →
  strptime s = Ok (mkdt (int gY) (int gm) (int gd) (int gH) (int gM) (int gS) 0).
Proof.
  intros Hm Hv. unfold strptime. rewrite Hm. cbn [snd].
  change (group (m, [gY; gm; gd; gH; gM; gS], []) 1) with gY.
  change (group (m, [gY; gm; gd; gH; gM; gS], []) 2) with gm.
  change (group (m, [gY; gm; gd; gH; gM; gS], []) 3) with gd.
  change (group (m, [gY; gm; gd; gH; gM; gS], []) 4) with gH.
  change (group (m, [gY; gm; gd; gH; gM; gS], []) 5) with gM.
  change (group (m, [gY; gm; gd; gH; gM; gS], []) 6) with gS.
  unfold valid in Hv. cbn [year month day hour minute second microsecond] in Hv.
  apply andb_true_iff in Hv as [Hv1 Hv2].
  unfold date_new, datetime_new. by rewrite Hv1, Hv2.
Qed.

(** A date and time of day that exist, written in ASCII digits, are
    accepted as they are spelt. *)
Lemma strptime_valid d t :
  ascii_digits d → length d = 8%nat → ascii_digits t → length t = 6%nat →
  valid (stamp d t) = true →
  strptime (d ++ py "_" ++ t) = Ok (stamp d t).
Proof.
  unfold ascii_digits. intros Hd Hld Ht Hlt Hv. change (py "_") with [underscore].
  explode d Hld. explode t Hlt.
  repeat match goal with
  | H : Forall _ (_ :: _) |- _ => apply Forall_cons in H as [? H]
  end.
  clear Hd Ht Hld Hlt.
  match goal with
  | |- strptime ?s = Ok (stamp ?d ?t) =>
      change (stamp d t) with
        (mkdt (int (take 4 d)) (int (take 2 (drop 4 d))) (int (drop 6 d))
              (int (take 2 t)) (int (take 2 (drop 2 t))) (int (drop 4 t)) 0);
      change (valid (stamp d t)) with
        (valid (mkdt (int (take 4 d)) (int (take 2 (drop 4 d))) (int (drop 6 d))
              (int (take 2 t)) (int (take 2 (drop 2 t))) (int (drop 4 t)) 0)) in Hv
  end.
  cbn [take drop] in Hv |- *. cbn [app].
  eapply strptime_of_match; [|exact Hv].
  pose proof Hv as Hv'. unfold valid in Hv'.
  cbn [year month day hour minute second microsecond] in Hv'.
  unfold check_date_fields, check_time_fields in Hv'.
  repeat match goal with
  | H : _ && _ = true |- _ => apply andb_true_iff in H as [? ?]
  end.
  match goal with
  | H : (?dd <=? days_in_month ?y ?m) = true |- _ =>
      assert ((dd <=? 31) = true)
        by (apply N.leb_le; apply N.leb_le in H;
            pose proof (days_in_month_le y m); lia)
  end.
  change format_regex with
      (Cat directive_Y (Cat directive_m (Cat directive_d (Cat (One (Chr 95))
        (Cat directive_H (Cat directive_M (Cat directive_S Eps))))))).
  etrans.
  { repeat lazymatch goal with
    | |- re_match Eps _ = _ => apply re_match_eps
    | |- re_match (Cat _ _) _ = _ => eapply re_match_cat; [|cbn [fst snd]]
    | |- re_match (One (Chr _)) _ = _ => apply re_match_chr
    | |- re_match directive_Y _ = _ =>
        apply re_match_directive_Y; by apply ascii_digit_isdecimal
    | |- re_match directive_m _ = _ =>
        apply re_match_directive_m;
        [assumption | assumption | apply andb_true_iff; split; assumption]
    | |- re_match directive_d _ = _ =>
        apply re_match_directive_d;
        [assumption | assumption | apply andb_true_iff; split; assumption]
    | |- re_match directive_H _ = _ => apply re_match_directive_H; assumption
    | |- re_match directive_M _ = _ => apply re_match_directive_M; assumption
    | |- re_match directive_S _ = _ => apply re_match_directive_S; assumption
    end. }
  cbn [fst snd app]. reflexivity.
Qed.

End Regex_facts.

(** * Sorting *)

Section Sort_facts.
Context {A K : Type} (key : A → K) (lt : K → K → bool).
Context `{EqDecision K}.
Hypothesis lt_irrefl : ∀ a, lt a a = false.
Hypothesis lt_asym : ∀ a b, lt a b = true → lt b a = false.

Lemma insert_by_perm x l : insert_by key lt x l ≡ₚ x :: l.
Proof.
  induction l as [|y l IH]; simpl; [done|].
  destruct (lt (key y) (key x)); [|done].
  rewrite IH. apply Permutation_swap.
Qed.

Lemma list_sort_perm l : list_sort key lt l ≡ₚ l.
Proof.
  induction l as [|x l IH]; simpl; [done|]. by rewrite insert_by_perm, IH.
Qed.

Lemma insert_by_sorted x l :
  Sorted (key_le key lt) l → Sorted (key_le key lt) (insert_by key lt x l).
Proof.
  induction 1 as [|y l Hl IH Hhd]; simpl.
  - by repeat constructor.
  - destruct (lt (key y) (key x)) eqn:Hyx.
    + constructor; [done|].
      destruct Hhd as [|z l Hyz]; simpl.
      * constructor. by apply lt_asym.
      * destruct (lt (key z) (key x)); constructor; [done|]. by apply lt_asym.
    + constructor; [by constructor|]. by constructor.
Qed.

Lemma list_sort_sorted l : Sorted (key_le key lt) (list_sort key lt l).
Proof.
  induction l as [|x l IH]; simpl; [constructor|]. by apply insert_by_sorted.
Qed.

(** The elements of one key keep their order. *)
Lemma insert_by_stable k x l :
  filter (λ y, key y = k) (insert_by key lt x l)
  = filter (λ y, key y = k) (x :: l).
Proof.
  induction l as [|y l IH]; simpl; [done|].
  destruct (lt (key y) (key x)) eqn:Hyx; [|done].
  rewrite filter_cons, IH, !filter_cons.
  destruct (decide (key y = k)) as [Hy|Hy], (decide (key x = k)) as [Hx|Hx];
    try done.
  rewrite Hy, Hx, lt_irrefl in Hyx. done.
Qed.

Lemma list_sort_stable k l :
  filter (λ y, key y = k) (list_sort key lt l) = filter (λ y, key y = k) l.
Proof.
  induction l as [|x l IH]; simpl; [done|].
  by rewrite insert_by_stable, !filter_cons, IH.
Qed.

Lemma list_sort_sorted_id l : Sorted (key_le key lt) l → list_sort key lt l = l.
Proof.
  induction 1 as [|x l Hl IH Hhd]; simpl; [done|].
  rewrite IH. destruct Hhd as [|y l Hxy]; simpl; [done|].
  unfold key_le in Hxy. by rewrite Hxy.
Qed.

End Sort_facts.

(** * The order of timestamps *)

Lemma lex_compare_refl a : lex_compare a a = Eq.
Proof. induction a as [|x a IH]; simpl; [done|]. by rewrite N.compare_refl. Qed.

Lemma lex_compare_antisym a b : lex_compare b a = CompOpp (lex_compare a b).
Proof.
  revert b. induction a as [|x a IH]; intros [|y b]; simpl; try done.
  rewrite (N.compare_antisym x y). destruct (x ?= y); simpl; auto.
Qed.

Lemma lex_compare_eq a b : lex_compare a b = Eq → a = b.
Proof.
  revert b. induction a as [|x a IH]; intros [|y b]; simpl; try done.
  destruct (x ?= y) eqn:Hxy; try done.
  apply N.compare_eq in Hxy as ->. intros H. by rewrite (IH b H).
Qed.

Lemma lex_compare_trans a b c :
  lex_compare a b = Lt → lex_compare b c = Lt → lex_compare a c = Lt.
Proof.
  revert b c. induction a as [|x a IH]; intros [|y b] [|z c]; simpl; try done.
  destruct (x ?= y) eqn:Hxy, (y ?= z) eqn:Hyz; try done;
    try apply N.compare_eq in Hxy as ->; try apply N.compare_eq in Hyz as ->;
    rewrite ?Hxy, ?Hyz; try done.
  - rewrite N.compare_refl. apply IH.
  - rewrite N.compare_lt_iff in Hxy, Hyz.
    assert (x < z) as Hxz by lia. apply N.compare_lt_iff in Hxz. by rewrite Hxz.
Qed.

Lemma dt_lt_irrefl a : dt_lt a a = false.
Proof. unfold dt_lt, dt_compare. by rewrite lex_compare_refl. Qed.

Lemma dt_lt_asym a b : dt_lt a b = true → dt_lt b a = false.
Proof.
  unfold dt_lt, dt_compare. rewrite (lex_compare_antisym (dt_fields a)).
  by destruct (lex_compare (dt_fields a) (dt_fields b)).
Qed.

Lemma dt_le_not_lt a b : dt_le a b ↔ dt_lt b a = false.
Proof.
  unfold dt_le, dt_lt, dt_compare. rewrite (lex_compare_antisym (dt_fields a)).
  destruct (lex_compare (dt_fields a) (dt_fields b)); simpl; split; done.
Qed.

Lemma dt_le_refl a : dt_le a a.
Proof. unfold dt_le, dt_compare. by rewrite lex_compare_refl. Qed.

Lemma dt_le_total a b : dt_le a b ∨ dt_le b a.
Proof.
  unfold dt_le, dt_compare. rewrite (lex_compare_antisym (dt_fields a)).
  destruct (lex_compare (dt_fields a) (dt_fields b)); simpl; auto.
Qed.

Lemma dt_le_antisym a b : dt_le a b → dt_le b a → a = b.
Proof.
  unfold dt_le, dt_compare. rewrite (lex_compare_antisym (dt_fields a)).
  destruct (lex_compare (dt_fields a) (dt_fields b)) eqn:Hc; simpl; try done.
  intros _ _. apply lex_compare_eq in Hc. destruct a, b. by simplify_eq/=.
Qed.

Lemma dt_le_trans a b c : dt_le a b → dt_le b c → dt_le a c.
Proof.
  unfold dt_le, dt_compare. intros Hab Hbc.
  destruct (lex_compare (dt_fields a) (dt_fields b)) eqn:H1; [| |done].
  - apply lex_compare_eq in H1. by rewrite H1.
  - destruct (lex_compare (dt_fields b) (dt_fields c)) eqn:H2; [| |done].
    + apply lex_compare_eq in H2. by rewrite <- H2, H1.
    + by rewrite (lex_compare_trans _ _ _ H1 H2).
Qed.

(** * Computations *)

Ltac munfold :=
  unfold mbind, M_bind, mret, M_ret, bind, ret, raise, emit, log_message,
    lift, try_except, try_finally, path_exists in *.

Lemma for_each_log {A} (f : A → message) (l : list A) fs :
  for_each (λ x, log_message (f x)) l fs = Step (Ok ()) fs ((λ x, Log (f x)) <$> l).
Proof.
  unfold for_each. induction l as [|x l IH]; simpl; [done|].
  munfold. simpl. by rewrite IH.
Qed.

Section Parse_facts.
Context {RT : Runtime}.

Lemma parse_file_step acc p fs :
  parse_file acc p fs = Step (Ok (acc ++ parsed [p])) fs (parse_log p).
Proof.
  unfold parse_file, parsed, parse_log, timestamp_of. cbn [omap list_omap].
  destruct (re_search timestamp_pattern (basename p)) as [m|].
  - pose proof (strptime_outcome (group m 1 ++ py "_" ++ group m 2)) as Ho.
    destruct (strptime (group m 1 ++ py "_" ++ group m 2)) as [x|e|];
      destruct Ho as [(x' & Hx & _)|(msg & Hx)]; simplify_eq; munfold; simpl.
    + done.
    + by rewrite app_nil_r.
  - munfold. simpl. by rewrite app_nil_r.
Qed.

Lemma parsed_cons p l : parsed (p :: l) = parsed [p] ++ parsed l.
Proof. unfold parsed. simpl. by destruct (timestamp_of (basename p)). Qed.

Lemma parsed_app l1 l2 : parsed (l1 ++ l2) = parsed l1 ++ parsed l2.
Proof. apply omap_app. Qed.

Lemma foldM_parse_file files acc fs :
  foldM parse_file acc files fs
  = Step (Ok (acc ++ parsed files)) fs (files ≫= parse_log).
Proof.
  revert acc. induction files as [|p files IH]; intros acc; cbn [foldM].
  - munfold. by rewrite app_nil_r.
  - unfold mbind at 1, M_bind, bind. rewrite parse_file_step.
    cbn [result disk events]. rewrite IH. cbn [result disk events].
    by rewrite (parsed_cons p files), (assoc_L (++)), bind_cons.
Qed.

(** [parse_and_sort_files] always returns: the paths of the entries in
    sorted order, with the file system untouched and only log lines
    written. *)
Lemma parse_and_sort_files_run video_files fs :
  parse_and_sort_files video_files fs
  = Step (Ok ((λ x : entry, x.1.2) <$> sorted_entries video_files)) fs
         ((video_files ≫= parse_log) ++ sort_log (sorted_entries video_files)).
Proof.
  unfold parse_and_sort_files, sorted_entries.
  unfold mbind at 1, M_bind at 1, bind at 1.
  rewrite foldM_parse_file. simpl.
  destruct (parsed video_files) as [|e es] eqn:Hp.
  - munfold. done.
  - set (sorted := list_sort _ _ (e :: es)).
    assert (sorted ≠ []) as Hne.
    { intros Hnil. pose proof (list_sort_perm (λ x : entry, x.1.1) dt_lt (e :: es)) as HP.
      fold sorted in HP. rewrite Hnil in HP. by apply Permutation_nil_cons in HP. }
    unfold mbind, M_bind, bind. simpl.
    rewrite (for_each_log (λ ix : nat * entry,
               [Txt "  "; Int (Z.of_nat ix.1 + 1); Txt ". "; Str ix.2.2])).
    simpl. unfold sort_log. destruct sorted; [done|].
    rewrite length_fmap. rewrite app_nil_r. done.
Qed.

End Parse_facts.

Section Parse_claims.
Context {RT : Runtime}.

Lemma re_search_first_token filename pre ds d t post :
  first_token filename pre ds d t post →
  re_search timestamp_pattern filename = Some (token ds d t, [d; t], post).
Proof.
  intros (-> & Htok & Hfirst). apply re_search_leftmost.
  - intros i Hi. apply re_match_None_token. by apply Hfirst.
  - by apply re_match_token.
Qed.

Lemma re_search_no_token filename :
  (∀ i, ¬ token_at (drop i filename)) → re_search timestamp_pattern filename = None.
Proof.
  intros H. apply re_search_None. intros i _. by apply re_match_None_token.
Qed.

Lemma timestamp_of_valid filename pre ds d t post :
  first_token filename pre ds d t post →
  ascii_digits d → ascii_digits t → valid (stamp d t) = true →
  timestamp_of filename = Some (stamp d t).
Proof.
  intros Hft Hd Ht Hv. unfold timestamp_of.
  rewrite (re_search_first_token _ _ _ _ _ _ Hft).
  change (group (token ds d t, [d; t], post) 1) with d.
  change (group (token ds d t, [d; t], post) 2) with t.
  destruct Hft as (_ & (_ & _ & _ & Hld & _ & Hlt) & _).
  by rewrite strptime_valid.
Qed.

Lemma timestamp_of_invalid filename pre ds d t post :
  first_token filename pre ds d t post → valid (stamp d t) = false →
  timestamp_of filename = None.
Proof.
  intros Hft Hv. unfold timestamp_of.
  rewrite (re_search_first_token _ _ _ _ _ _ Hft).
  change (group (token ds d t, [d; t], post) 1) with d.
  change (group (token ds d t, [d; t], post) 2) with t.
  destruct Hft as (_ & (_ & _ & Hd & Hld & Ht & Hlt) & _).
  destruct (strptime (d ++ py "_" ++ t)) as [x| |] eqn:Hs; try done.
  apply strptime_Ok_inv in Hs as [-> Hx]; [congruence|done..].
Qed.

Lemma elem_of_parsed e video_files :
  e ∈ parsed video_files ↔
  path_of e ∈ video_files ∧ timestamp_of (basename (path_of e)) = Some (stamp_of e)
  ∧ e.2 = basename (path_of e).
Proof.
  unfold parsed. rewrite list_elem_of_omap. split.
  - intros (p & Hp & He). destruct (timestamp_of (basename p)) eqn:Ht; simplify_eq/=.
    unfold path_of, stamp_of. simpl. done.
  - intros (Hp & Ht & Hf). exists (path_of e). split; [done|]. rewrite Ht. simpl.
    destruct e as [[x p] f]. unfold path_of, stamp_of in *. simpl in *. by subst.
Qed.

Lemma elem_of_sorted_entries e video_files :
  e ∈ sorted_entries video_files ↔ e ∈ parsed video_files.
Proof. unfold sorted_entries. by rewrite list_sort_perm. Qed.

Lemma elem_of_parse_log_Some p x :
  timestamp_of (basename p) = Some x →
  parse_log p = [Log [Txt "Parsed: "; Str (basename p); Txt " -> "; Date x]].
Proof.
  unfold timestamp_of, parse_log. simpl.
  destruct (re_search _ _); [|done]. destruct (strptime _); by intros [= ->].
Qed.

Lemma events_parse_log p video_files fs ev :
  p ∈ video_files → ev ∈ parse_log p →
  ev ∈ events (parse_and_sort_files video_files fs).
Proof.
  intros Hp Hev. rewrite parse_and_sort_files_run. simpl.
  apply elem_of_app. left. apply list_elem_of_bind. eauto.
Qed.

End Parse_claims.

Section Parse_claims2.
Context {RT : Runtime}.

Lemma paths_sorted_entries video_files p :
  p ∈ path_of <$> sorted_entries video_files ↔
  p ∈ video_files ∧ is_Some (timestamp_of (basename p)).
Proof.
  rewrite list_elem_of_fmap. split.
  - intros (e & -> & He). apply elem_of_sorted_entries, elem_of_parsed in He.
    destruct He as (? & -> & _). eauto.
  - intros (Hp & x & Hx). exists (x, p, basename p). split; [done|].
    apply elem_of_sorted_entries, elem_of_parsed. done.
Qed.

(** C1 (as amended).  When the first token [RecM0<digits>_<date>_<time>]
    of a file name spells, in ASCII digits, a date and a time of day that
    exist, [parse_and_sort_files] keeps the file, with the timestamp that
    the token spells; [RecM01_20240315_143022.mp4] gets 2024-03-15
    14:30:22. *)
Theorem parse_accepts_first_token video_files fs file_path pre ds d t post :
  file_path ∈ video_files →
  first_token (basename file_path) pre ds d t post →
  ascii_digits d → ascii_digits t → valid (stamp d t) = true →
  (∃ out, result (parse_and_sort_files video_files fs) = Ok out
     ∧ file_path ∈ out
     ∧ (stamp d t, file_path, basename file_path) ∈ sorted_entries video_files
     ∧ (Log [Txt "Parsed: "; Str (basename file_path); Txt " -> "; Date (stamp d t)])
         ∈ events (parse_and_sort_files video_files fs))
  ∧ timestamp_of (py "RecM01_20240315_143022.mp4")
    = Some (mkdt 2024 3 15 14 30 22 0).
Proof.
  intros Hin Hft Hd Ht Hv. split; [|reflexivity].
  pose proof (timestamp_of_valid _ _ _ _ _ _ Hft Hd Ht Hv) as Hts.
  exists (path_of <$> sorted_entries video_files).
  rewrite parse_and_sort_files_run. simpl. split; [done|]. split; [|split].
  - apply paths_sorted_entries. split; [done|]. by rewrite Hts.
  - apply elem_of_sorted_entries, elem_of_parsed. done.
  - apply elem_of_app. left. apply list_elem_of_bind. exists file_path.
    split; [|done]. rewrite (elem_of_parse_log_Some _ _ Hts). by left.
Qed.

Lemma unparsable_timestamp filename report :
  unparsable filename report → timestamp_of filename = None.
Proof.
  destruct 1 as [Hno|pre ds d t post Hft Hv].
  - unfold timestamp_of. by rewrite re_search_no_token.
  - by eapply timestamp_of_invalid.
Qed.

Lemma unparsable_log file_path report :
  unparsable (basename file_path) report → parse_log file_path = [Log report].
Proof.
  destruct 1 as [Hno|pre ds d t post Hft Hv]; unfold parse_log; cbv zeta.
  - by rewrite re_search_no_token.
  - pose proof (timestamp_of_invalid _ _ _ _ _ _ Hft Hv) as Hts.
    unfold timestamp_of in Hts.
    rewrite (re_search_first_token _ _ _ _ _ _ Hft) in Hts |- *.
    by destruct (strptime _).
Qed.

Lemma parsed_unparsable file_path report :
  unparsable (basename file_path) report → parsed [file_path] = [].
Proof. intros H. unfold parsed. simpl. by rewrite (unparsable_timestamp _ _ H). Qed.

(** C5.  A file whose name does not match the pattern, or matches it with
    digits that spell no existing date and time, is left out of the
    result and named on the log; no exception leaves
    [parse_and_sort_files], and the other files are handled as if the file
    had not been there. *)
Theorem parse_skips_unparsable l1 file_path l2 fs report :
  unparsable (basename file_path) report →
  ∃ out, result (parse_and_sort_files (l1 ++ file_path :: l2) fs) = Ok out
    ∧ file_path ∉ out
    ∧ (Log report) ∈ events (parse_and_sort_files (l1 ++ file_path :: l2) fs)
    ∧ result (parse_and_sort_files (l1 ++ l2) fs) = Ok out.
Proof.
  intros Hun. exists (path_of <$> sorted_entries (l1 ++ file_path :: l2)).
  split; [by rewrite parse_and_sort_files_run|]. split; [|split].
  - rewrite paths_sorted_entries, (unparsable_timestamp _ _ Hun).
    intros [_ [? ?]]. done.
  - eapply (events_parse_log file_path).
    + apply elem_of_app. right. by left.
    + rewrite (unparsable_log _ _ Hun). by left.
  - rewrite parse_and_sort_files_run. simpl. unfold sorted_entries.
    by rewrite !parsed_app, (parsed_cons file_path l2), (parsed_unparsable _ _ Hun).
Qed.

(** No exception ever leaves [parse_and_sort_files]. *)
Lemma parse_and_sort_files_returns video_files fs :
  ∃ out, result (parse_and_sort_files video_files fs) = Ok out.
Proof. rewrite parse_and_sort_files_run. eauto. Qed.

Lemma parsed_stamps video_files :
  Forall (λ e, timestamp_of (basename (path_of e)) = Some (stamp_of e))
         (parsed video_files).
Proof. apply Forall_forall. intros e He. by apply elem_of_parsed in He as (_ & ? & _). Qed.

Lemma parsed_paths es :
  Forall (λ e, timestamp_of (basename (path_of e)) = Some (stamp_of e)
               ∧ e.2 = basename (path_of e)) es →
  parsed (path_of <$> es) = es.
Proof.
  induction 1 as [|[[x p] f] es [Hts Hf] _ IH]; [done|].
  rewrite fmap_cons, parsed_cons, IH. unfold parsed, path_of, stamp_of in *.
  simpl in *. rewrite Hts. simpl. by subst.
Qed.

Lemma sorted_key_le_stamps (es : list entry) :
  Sorted (key_le stamp_of dt_lt) es ↔ Sorted dt_le (stamp_of <$> es).
Proof.
  induction es as [|e es IH]; simpl.
  - split; constructor.
  - split; intros H; apply Sorted_inv in H as [Hs Hhd]; constructor;
      try (by apply IH).
    + destruct Hhd as [|e' es' Hee]; constructor. by apply dt_le_not_lt.
    + destruct es as [|e' es']; constructor. apply HdRel_inv in Hhd.
      by apply dt_le_not_lt.
Qed.

Lemma sorted_entries_sorted video_files :
  Sorted dt_le (stamp_of <$> sorted_entries video_files).
Proof.
  apply sorted_key_le_stamps, list_sort_sorted. apply dt_lt_asym.
Qed.

(** C2.  The timestamps of the files that [parse_and_sort_files] returns
    never decrease along the result, and the sort leaves a sequence that
    is already in that order as it is: on entries, on the files of an
    input whose parsed timestamps are in order, and on its own result. *)
Theorem sorted_output video_files fs :
  ∃ out stamps,
    result (parse_and_sort_files video_files fs) = Ok out
    ∧ Forall2 (λ p x, timestamp_of (basename p) = Some x) out stamps
    ∧ Sorted dt_le stamps
    ∧ (∀ es : list entry,
         Sorted dt_le (stamp_of <$> es) → list_sort stamp_of dt_lt es = es)
    ∧ (Sorted dt_le (stamp_of <$> parsed video_files) →
       out = path_of <$> parsed video_files)
    ∧ result (parse_and_sort_files out fs) = Ok out.
Proof.
  exists (path_of <$> sorted_entries video_files),
         (stamp_of <$> sorted_entries video_files).
  assert (∀ es : list entry,
            Sorted dt_le (stamp_of <$> es) → list_sort stamp_of dt_lt es = es) as Hid.
  { intros es Hes. apply list_sort_sorted_id. by apply sorted_key_le_stamps. }
  assert (Forall (λ e, timestamp_of (basename (path_of e)) = Some (stamp_of e)
                       ∧ e.2 = basename (path_of e)) (sorted_entries video_files)) as Hall.
  { apply Forall_forall. intros e He.
    by apply elem_of_sorted_entries, elem_of_parsed in He as (_ & ? & ?). }
  split; [by rewrite parse_and_sort_files_run|]. split; [|split; [|split; [|split]]].
  - apply Forall2_fmap, Forall_Forall2_diag.
    eapply Forall_impl; [exact Hall|]. by intros e [? _].
  - apply sorted_entries_sorted.
  - exact Hid.
  - intros Hs. unfold sorted_entries. by rewrite Hid.
  - rewrite parse_and_sort_files_run. simpl. unfold sorted_entries at 1.
    rewrite (parsed_paths _ Hall). rewrite Hid; [done|]. apply sorted_entries_sorted.
Qed.

Lemma filter_paths x (es : list entry) :
  Forall (λ e, timestamp_of (basename (path_of e)) = Some (stamp_of e)) es →
  path_of <$> filter (λ e, stamp_of e = x) es
  = filter (λ p, timestamp_of (basename p) = Some x) (path_of <$> es).
Proof.
  induction 1 as [|e es He _ IH]; [done|].
  rewrite fmap_cons, !filter_cons, He.
  destruct (decide (stamp_of e = x)) as [->|Hne].
  - rewrite decide_True by done. by rewrite fmap_cons, IH.
  - rewrite decide_False by congruence. done.
Qed.

Lemma filter_parsed x video_files :
  filter (λ p, timestamp_of (basename p) = Some x) (path_of <$> parsed video_files)
  = filter (λ p, timestamp_of (basename p) = Some x) video_files.
Proof.
  induction video_files as [|p l IH]; [done|].
  rewrite parsed_cons, fmap_app, filter_app, IH, (filter_cons _ p l).
  unfold parsed. cbn [omap list_omap].
  destruct (timestamp_of (basename p)) as [y|] eqn:Hy; cbn [fmap option_fmap option_map list_fmap].
  - rewrite filter_cons, filter_nil.
    repeat case_decide; unfold path_of in *; simpl in *; try done; congruence.
  - rewrite filter_nil. by case_decide.
Qed.

(** C9.  Files with one and the same timestamp leave
    [parse_and_sort_files] in the order in which they came in. *)
Theorem stable_output video_files fs x :
  ∃ out, result (parse_and_sort_files video_files fs) = Ok out
    ∧ filter (λ p, timestamp_of (basename p) = Some x) out
      = filter (λ p, timestamp_of (basename p) = Some x) video_files.
Proof.
  exists (path_of <$> sorted_entries video_files).
  split; [by rewrite parse_and_sort_files_run|].
  rewrite <- filter_paths.
  - unfold sorted_entries.
    rewrite (list_sort_stable stamp_of dt_lt dt_lt_irrefl).
    rewrite filter_paths by apply parsed_stamps. apply filter_parsed.
  - apply Forall_forall. intros e He.
    by apply elem_of_sorted_entries, elem_of_parsed in He as (_ & ? & _).
Qed.

End Parse_claims2.

Section Escape.
Context {RT : Runtime}.

Lemma startswith_nil s : startswith s [] = true.
Proof. by destruct s. Qed.

Lemma replace_char a new s :
  replace s [a] new = s ≫= λ c, if c =? a then new else [c].
Proof.
  unfold replace. induction s as [|c s IH]; [done|].
  cbn [replace_from startswith length pred]. rewrite bind_cons, IH.
  rewrite startswith_nil, andb_true_r. by destruct (c =? a).
Qed.

Lemma escape_path_chars p : escape_path p = p ≫= escape_char.
Proof.
  unfold escape_path. rewrite !replace_char.
  induction p as [|c p IH]; [done|].
  rewrite !bind_cons, bind_app, IH. f_equal.
  unfold escape_char. destruct (c =? backslash) eqn:Hb.
  - reflexivity.
  - destruct (c =? quote) eqn:Hq.
    + apply N.eqb_eq in Hq as ->. reflexivity.
    + simpl. by rewrite Hq.
Qed.

Lemma escape_path_plain p :
  backslash ∉ p → quote ∉ p → escape_path p = p.
Proof.
  rewrite escape_path_chars. induction p as [|c p IH]; [done|].
  rewrite !not_elem_of_cons. intros [Hb Hnb] [Hq Hnq].
  rewrite bind_cons, IH by done. unfold escape_char.
  apply N.eqb_neq in Hb, Hq. rewrite N.eqb_sym in Hb. rewrite N.eqb_sym in Hq.
  by rewrite Hb, Hq.
Qed.

(** C3 (as amended).  [escape_path] doubles every backslash and then puts
    one backslash before every single quote, so that a character becomes
    [escape_char] of it; the path [C:\cam's\RecM01_20240101_000000.mp4]
    becomes [C:\\cam\'s\\RecM01_20240101_000000.mp4], and a path with
    neither character stays as it is. *)
Theorem escape_path_spec p :
  escape_path p
  = replace (replace p [backslash] [backslash; backslash]) [quote] [backslash; quote]
  ∧ escape_path p = p ≫= escape_char
  ∧ escape_path cam_path
    = py "C:" ++ [backslash; backslash] ++ py "cam" ++ [backslash; quote] ++ py "s"
      ++ [backslash; backslash] ++ py "RecM01_20240101_000000.mp4"
  ∧ (backslash ∉ p → quote ∉ p → escape_path p = p).
Proof.
  split; [reflexivity|]. split; [apply escape_path_chars|].
  split; [reflexivity|]. apply escape_path_plain.
Qed.

End Escape.

Lemma escape_path_spec_witness :
  (backslash ∉ py "/v/RecM01.mp4") ∧ (quote ∉ py "/v/RecM01.mp4")
  ∧ escape_path (py "/v/RecM01.mp4") = py "/v/RecM01.mp4".
Proof.
  assert (backslash ∉ py "/v/RecM01.mp4") as Hb.
  { intros H. vm_compute in H. repeat (apply elem_of_cons in H as [H|H]; [discriminate H|]).
    by apply elem_of_nil in H. }
  assert (quote ∉ py "/v/RecM01.mp4") as Hq.
  { intros H. vm_compute in H. repeat (apply elem_of_cons in H as [H|H]; [discriminate H|]).
    by apply elem_of_nil in H. }
  split; [exact Hb|]. split; [exact Hq|].
  exact (proj2 (proj2 (proj2 (escape_path_spec (py "/v/RecM01.mp4")))) Hb Hq).
Defined.

(** The escaped form that the specification gives for
    [C:\cam's\RecM01_20240101_000000.mp4], with four backslashes, two
    before the quote and two more, is not what [escape_path] returns. *)
Lemma escape_path_not_as_specified :
  escape_path cam_path
  ≠ py "C:" ++ [backslash; backslash; backslash; backslash] ++ py "cam"
    ++ [backslash; backslash; quote] ++ py "s" ++ [backslash; backslash]
    ++ py "RecM01_20240101_000000.mp4".
Proof. vm_compute. discriminate. Qed.

Section Prefix.
Context {RT : Runtime}.

Lemma browse_input_files_result app files fs :
  ∃ app', result (browse_input_files app files fs) = Ok app'
    ∧ selected_files app'
      = match files with [] => selected_files app | _ :: _ => with_prefix files end.
Proof.
  unfold browse_input_files. destruct files as [|f files]; [by eexists|].
  fold (with_prefix (f :: files)).
  set (invalid := basename <$> filter _ (f :: files)).
  exists {| selection_mode := selection_mode app; input_folder := input_folder app;
            output_folder := output_folder app;
            selected_files := with_prefix (f :: files) |}.
  split; [|reflexivity].
  unfold mbind, M_bind, bind.
  destruct (with_prefix (f :: files)) as [|v vs]; cbn [result disk events].
  - unfold log_message at 1, emit at 1. cbn [result disk events].
    destruct invalid; cbn [result disk events].
    + reflexivity.
    + unfold mbind, M_bind, bind. unfold log_message at 1, emit at 1.
      cbn [result disk events]. by rewrite for_each_log.
  - unfold mbind, M_bind, bind. unfold log_message at 1, emit at 1.
    cbn [result disk events].
    rewrite (for_each_log (λ ix : nat * list N,
               [Txt "  "; Int (Z.of_nat ix.1 + 1); Txt ". "; Str (basename ix.2)])).
    cbn [result disk events].
    destruct invalid; cbn [result disk events].
    + reflexivity.
    + unfold mbind, M_bind, bind. unfold log_message at 1, emit at 1.
      cbn [result disk events]. by rewrite for_each_log.
Qed.

Lemma startswith_app s p : startswith (p ++ s) p = true.
Proof. induction p as [|c p IH]; simpl; [by destruct s|]. by rewrite N.eqb_refl. Qed.

Lemma token_at_inv s :
  token_at s → ∃ c ds rest, s = py "RecM0" ++ c :: ds ++ rest ∧ isdecimal c = true.
Proof.
  intros (ds & d & t & rest & -> & Hne & Hds & _).
  destruct Hds as [|c ds Hc Hds]; [done|].
  exists c, ds, ([underscore] ++ d ++ [underscore] ++ t ++ rest). split; [|done].
  unfold token. by rewrite <- !(assoc_L (++)).
Qed.

(** After [RecM0] without a digit, a token can only start further on. *)
Lemma no_token_after_prefix rest :
  (∀ c rest', rest = c :: rest' → isdecimal c = false) →
  (∀ i, ¬ token_at (drop i rest)) →
  ∀ i, ¬ token_at (drop i (py "RecM0" ++ rest)).
Proof.
  intros Hnd Hlater i Htok.
  destruct (decide (5 ≤ i)%nat) as [Hi|Hi].
  - apply (Hlater (i - 5)%nat).
    replace (drop i (py "RecM0" ++ rest)) with (drop (i - 5) rest) in Htok; [done|].
    replace i with (length (py "RecM0") + (i - 5))%nat at 2
      by (change (length (py "RecM0")) with 5%nat; lia).
    by rewrite drop_app_add.
  - apply token_at_inv in Htok as (c & ds & rest' & Heq & Hc).
    destruct i as [|[|[|[|[|i]]]]]; try lia; simplify_eq/=.
    rewrite (Hnd c (ds ++ rest')) in Hc; done.
Qed.

(** C10 (as amended).  A file whose name starts with [RecM0] and goes on
    without a digit passes the prefix filter of [browse_input_files]; the
    pattern does not match at the start of its name, and the file is left
    out by [parse_and_sort_files] when no token starts further on in the
    name either, as for [RecM0_20240101_000000.mp4]. *)
Theorem prefix_without_digit app files file_path rest fs :
  basename file_path = py "RecM0" ++ rest →
  (∀ c rest', rest = c :: rest' → isdecimal c = false) →
  file_path ∈ files →
  (∃ app', result (browse_input_files app files fs) = Ok app'
     ∧ file_path ∈ selected_files app')
  ∧ re_match timestamp_pattern (basename file_path) = None
  ∧ ((∀ i, ¬ token_at (drop i rest)) →
     ∀ video_files fs', ∃ out,
       result (parse_and_sort_files video_files fs') = Ok out ∧ file_path ∉ out)
  ∧ (rest = py "_20240101_000000.mp4" →
     ∀ video_files fs', ∃ out,
       result (parse_and_sort_files video_files fs') = Ok out ∧ file_path ∉ out).
Proof.
  intros Hname Hnd Hin.
  assert (∀ video_files fs', timestamp_of (basename file_path) = None →
            ∃ out, result (parse_and_sort_files video_files fs') = Ok out
                   ∧ file_path ∉ out) as Hout.
  { intros video_files fs' Hts. exists (path_of <$> sorted_entries video_files).
    split; [by rewrite parse_and_sort_files_run|].
    rewrite paths_sorted_entries, Hts. intros [_ [? ?]]. done. }
  split; [|split; [|split]].
  - destruct (browse_input_files_result app files fs) as (app' & Hres & Hsel).
    exists app'. split; [done|]. rewrite Hsel.
    destruct files as [|f files]; [by apply elem_of_nil in Hin|].
    apply list_elem_of_filter. split; [|done].
    rewrite Hname. apply startswith_app.
  - apply re_match_None_token. intros Htok.
    apply token_at_inv in Htok as (c & ds & rest' & Heq & Hc).
    rewrite Hname in Heq. apply app_inv_head in Heq.
    rewrite (Hnd c (ds ++ rest')) in Hc; done.
  - intros Hlater video_files fs'. apply Hout.
    unfold timestamp_of. rewrite re_search_no_token; [done|].
    rewrite Hname. by apply no_token_after_prefix.
  - intros -> video_files fs'. apply Hout. by rewrite Hname.
Qed.

End Prefix.

Lemma prefix_without_digit_witness :
  let app := {| selection_mode := py "files"; input_folder := [];
                output_folder := py "/out"; selected_files := [] |} in
  let file_path := py "/v/RecM0_20240101_000000.mp4" in
  ∃ app', result (@browse_input_files posix app [file_path] ∅) = Ok app'
    ∧ file_path ∈ selected_files app'.
Proof.
  intros app file_path.
  refine (proj1 (@prefix_without_digit posix app [file_path] file_path
                   (py "_20240101_000000.mp4") ∅ _ _ _)).
  - reflexivity.
  - intros c rest' Heq. vm_compute in Heq. injection Heq as <- _. reflexivity.
  - apply list_elem_of_here.
Defined.

(** A name that starts with [RecM0] and an underscore and has a token
    further on passes the prefix filter and is kept by the parser. *)
Lemma prefix_without_digit_kept :
  let file_path := py "RecM0_RecM01_20240101_000000.mp4" in
  @basename posix file_path = py "RecM0" ++ py "_RecM01_20240101_000000.mp4"
  ∧ @isdecimal posix underscore = false
  ∧ @startswith (@basename posix file_path) (py "RecM0") = true
  ∧ result (@parse_and_sort_files posix [file_path] ∅) = Ok [file_path].
Proof. vm_compute. done. Qed.

(** * Running a computation *)

Lemma prepend_step {A} evs (r : outcome A) d evs' :
  prepend evs (Step r d evs') = Step r d (evs ++ evs').
Proof. reflexivity. Qed.

Lemma prepend_prepend {A} e1 e2 (s : step A) :
  prepend e1 (prepend e2 s) = prepend (e1 ++ e2) s.
Proof. unfold prepend. cbn [result disk events]. by rewrite (assoc_L (++)). Qed.

Lemma prepend_nil {A} (s : step A) : prepend [] s = s.
Proof. by destruct s. Qed.

Lemma result_prepend {A} evs (s : step A) : result (prepend evs s) = result s.
Proof. reflexivity. Qed.

Lemma disk_prepend {A} evs (s : step A) : disk (prepend evs s) = disk s.
Proof. reflexivity. Qed.

Lemma events_prepend {A} evs (s : step A) :
  events (prepend evs s) = evs ++ events s.
Proof. reflexivity. Qed.

Lemma bind_run {A B} (m : M A) (k : A → M B) fs :
  (m ≫= k) fs
  = match result (m fs) with
    | Ok a => prepend (events (m fs)) (k a (disk (m fs)))
    | Raise e => Step (Raise e) (disk (m fs)) (events (m fs))
    | Hang => Step Hang (disk (m fs)) (events (m fs))
    end.
Proof. reflexivity. Qed.

Lemma bind_ok {A B} (m : M A) (k : A → M B) fs a d evs :
  m fs = Step (Ok a) d evs → (m ≫= k) fs = prepend evs (k a d).
Proof. intros H. by rewrite bind_run, H. Qed.

Lemma ret_run {A} (a : A) fs : ret a fs = Step (Ok a) fs [].
Proof. reflexivity. Qed.

Lemma emit_run ev fs : emit ev fs = Step (Ok ()) fs [ev].
Proof. reflexivity. Qed.

Lemma log_run m fs : log_message m fs = Step (Ok ()) fs [Log m].
Proof. reflexivity. Qed.

Lemma path_exists_run p fs :
  path_exists p fs = Step (Ok (bool_decide (p ∈ fs))) fs [].
Proof. reflexivity. Qed.

Lemma bind_ret {A B} (a : A) (k : A → M B) fs : (ret a ≫= k) fs = k a fs.
Proof. rewrite (bind_ok _ _ _ _ _ _ (ret_run a fs)). apply prepend_nil. Qed.

Lemma bind_emit {B} ev (k : unit → M B) fs :
  (emit ev ≫= k) fs = prepend [ev] (k () fs).
Proof. reflexivity. Qed.

Lemma bind_log {B} m (k : unit → M B) fs :
  (log_message m ≫= k) fs = prepend [Log m] (k () fs).
Proof. reflexivity. Qed.

Lemma bind_path_exists {B} p (k : bool → M B) fs :
  (path_exists p ≫= k) fs = k (bool_decide (p ∈ fs)) fs.
Proof. rewrite (bind_ok _ _ _ _ _ _ (path_exists_run p fs)). apply prepend_nil. Qed.

Lemma bind_assoc {A B C} (m : M A) (f : A → M B) (g : B → M C) fs :
  ((m ≫= f) ≫= g) fs = (m ≫= λ a, f a ≫= g) fs.
Proof.
  rewrite !bind_run. destruct (result (m fs)) as [a| |]; [|done..].
  rewrite result_prepend, disk_prepend, events_prepend, bind_run.
  destruct (result (f a (disk (m fs)))); unfold prepend; cbn [result disk events];
    by rewrite ?(assoc_L (++)).
Qed.

Lemma try_except_run {A} (m : M A) h fs :
  try_except m h fs
  = match result (m fs) with
    | Raise e => prepend (events (m fs)) (h e (disk (m fs)))
    | _ => m fs
    end.
Proof. reflexivity. Qed.

Lemma try_finally_run {A} (m : M A) fin fs :
  try_finally m fin fs
  = match result (m fs) with
    | Hang => m fs
    | r => Step (match result (fin (disk (m fs))) with
                 | Ok _ => r
                 | Raise e => Raise e
                 | Hang => Hang
                 end)
                (disk (fin (disk (m fs))))
                (events (m fs) ++ events (fin (disk (m fs))))
    end.
Proof. unfold try_finally. by destruct (result (m fs)). Qed.

(** Runs the steps whose outcome is known. *)
Ltac mrun :=
  repeat progress
    (rewrite ?bind_assoc, ?bind_log, ?bind_emit, ?bind_ret, ?bind_path_exists,
       ?log_run, ?emit_run, ?ret_run, ?path_exists_run,
       ?prepend_prepend, ?prepend_step; cbn [app]).

(** * What a computation can emit *)

Section Emits.
Context (P : event → Prop).

Lemma emits_ret {A} (a : A) : emits P (ret a).
Proof. intros fs. constructor. Qed.

Lemma emits_raise {A} e : emits P (@raise A e).
Proof. intros fs. constructor. Qed.

Lemma emits_lift {A} (o : outcome A) : emits P (lift o).
Proof. intros fs. constructor. Qed.

Lemma emits_path_exists p : emits P (path_exists p).
Proof. intros fs. constructor. Qed.

Lemma emits_emit ev : P ev → emits P (emit ev).
Proof. intros H fs. by repeat constructor. Qed.

Lemma emits_log m : P (Log m) → emits P (log_message m).
Proof. apply emits_emit. Qed.

Lemma emits_bind {A B} (m : M A) (k : A → M B) :
  emits P m → (∀ a, emits P (k a)) → emits P (m ≫= k).
Proof.
  intros Hm Hk fs. unfold mbind, M_bind, bind. specialize (Hm fs).
  destruct (result (m fs)); simpl; [|done..].
  apply Forall_app. split; [done|]. apply Hk.
Qed.

Lemma emits_try_except {A} (m : M A) h :
  emits P m → (∀ e, emits P (h e)) → emits P (try_except m h).
Proof.
  intros Hm Hh fs. unfold try_except. specialize (Hm fs).
  destruct (result (m fs)); simpl; [done| |done].
  apply Forall_app. split; [done|]. apply Hh.
Qed.

Lemma emits_try_finally {A} (m : M A) fin :
  emits P m → emits P fin → emits P (try_finally m fin).
Proof.
  intros Hm Hf fs. unfold try_finally. specialize (Hm fs).
  destruct (result (m fs)); simpl; [| |done];
    (apply Forall_app; split; [done|]; apply Hf).
Qed.

Lemma emits_foldM {A B} (f : B → A → M B) l acc :
  (∀ b a, emits P (f b a)) → emits P (foldM f acc l).
Proof.
  intros Hf. revert acc. induction l as [|x l IH]; intros acc; simpl.
  - apply emits_ret.
  - apply emits_bind; [apply Hf | apply IH].
Qed.

Lemma emits_for_each {A} (f : A → M unit) l :
  (∀ a, emits P (f a)) → emits P (for_each f l).
Proof. intros Hf. apply emits_foldM. intros _ a. apply Hf. Qed.

Context {RT : Runtime} (E : Env).

Lemma emits_subprocess_run argv timeout :
  P (Spawn argv timeout) → emits P (subprocess_run E argv timeout).
Proof.
  intros H fs. unfold subprocess_run. destruct (spawn E argv); by repeat constructor.
Qed.

Lemma emits_named_temporary_file :
  (∀ name, mktemp E = inr name → P (CreateTemp name)) →
  emits P (named_temporary_file E).
Proof.
  intros H fs. unfold named_temporary_file.
  destruct (mktemp E) eqn:Hm; repeat constructor. by apply H.
Qed.

Lemma emits_file_write name line :
  P (WriteLine name line) → emits P (file_write E name line).
Proof.
  intros H fs. unfold file_write. destruct (write E name line); by repeat constructor.
Qed.

Lemma emits_file_close name : emits P (file_close E name).
Proof. intros fs. unfold file_close. destruct (close E name); constructor. Qed.

Lemma emits_os_unlink name : P (Unlink name) → emits P (os_unlink E name).
Proof.
  intros H fs. unfold os_unlink. destruct (unlink E name); by repeat constructor.
Qed.

Lemma emits_glob_glob pattern : emits P (glob_glob E pattern).
Proof. intros fs. constructor. Qed.

Lemma emits_parse_and_sort_files video_files :
  (∀ m, P (Log m)) → emits P (parse_and_sort_files video_files).
Proof.
  intros HP fs. rewrite parse_and_sort_files_run. simpl. apply Forall_app. split.
  - apply Forall_forall. intros ev Hev. apply list_elem_of_bind in Hev as (p & Hev & _).
    unfold parse_log in Hev. simpl in Hev.
    destruct (re_search _ _); [destruct (strptime _)|];
      apply list_elem_of_singleton in Hev as ->; apply HP.
  - unfold sort_log. destruct (sorted_entries video_files); repeat constructor; try apply HP.
    apply Forall_fmap, Forall_forall. intros ix _. apply HP.
Qed.

End Emits.

(** One step of the search through a computation for what it emits. *)
Ltac emits_step :=
  lazymatch goal with
  | |- emits _ (ret _) => apply emits_ret
  | |- emits _ (raise _) => apply emits_raise
  | |- emits _ (lift _) => apply emits_lift
  | |- emits _ (path_exists _) => apply emits_path_exists
  | |- emits _ (log_message _) => apply emits_log
  | |- emits _ (emit _) => apply emits_emit
  | |- emits _ (_ ≫= _) => apply emits_bind; [|intros ?]
  | |- emits _ (try_except _ _) => apply emits_try_except; [|intros ?]
  | |- emits _ (try_finally _ _) => apply emits_try_finally
  | |- emits _ (with_file _ _ _) => apply emits_try_finally
  | |- emits _ (for_each _ _) => apply emits_for_each; intros ?
  | |- emits _ (foldM _ _ _) => apply emits_foldM; intros ? ?
  | |- emits _ (subprocess_run _ _ _) => apply emits_subprocess_run
  | |- emits _ (named_temporary_file _) => apply emits_named_temporary_file
  | |- emits _ (file_write _ _ _) => apply emits_file_write
  | |- emits _ (file_close _ _) => apply emits_file_close
  | |- emits _ (os_unlink _ _) => apply emits_os_unlink
  | |- emits _ (glob_glob _ _) => apply emits_glob_glob
  | |- emits _ (parse_and_sort_files _) => apply emits_parse_and_sort_files
  | |- emits _ (if ?b then _ else _) => destruct b
  | |- emits _ (match ?x with _ => _ end) => destruct x
  | |- emits _ (let _ := _ in _) => cbv zeta
  end.

Section Emits_pipeline.
Context {RT : Runtime} (E : Env) (P : event → Prop).
Hypothesis P_log : ∀ m, P (Log m).
Hypothesis P_spawn : ∀ argv timeout, P (Spawn argv timeout).

Lemma emits_check_ffmpeg_binary : emits P (check_ffmpeg_binary E).
Proof. unfold check_ffmpeg_binary. repeat emits_step; auto. Qed.

Hypothesis P_temp : ∀ name, mktemp E = inr name → P (CreateTemp name).
Hypothesis P_write : ∀ name line, P (WriteLine name line).
Hypothesis P_unlink : ∀ name, P (Unlink name).

Lemma emits_merge_videos_with_ffmpeg video_files output_path :
  P (Merging video_files output_path) →
  emits P (merge_videos_with_ffmpeg E video_files output_path).
Proof.
  intros Hm. unfold merge_videos_with_ffmpeg.
  apply emits_bind; [by apply emits_emit|intros _].
  apply emits_bind; [by apply emits_log|intros _].
  apply emits_bind; [apply emits_check_ffmpeg_binary|intros checked].
  destruct (negb checked.1.1).
  - repeat emits_step; auto.
  - apply emits_bind; [by apply emits_log|intros _].
    unfold try_merge. apply emits_try_finally.
    + unfold build_and_run, run_ffmpeg, report_unexpected. repeat emits_step; auto.
    + unfold cleanup. repeat emits_step; auto.
Qed.

Lemma emits_find_video_files app input_source :
  emits P (find_video_files E app input_source).
Proof.
  unfold find_video_files, find_video_files_in_folder, process_selected_files, collect.
  repeat emits_step; auto.
Qed.

End Emits_pipeline.

Section Discovery.
Context {RT : Runtime} (E : Env).

Lemma collect_run input_folder fs :
  ∃ video_files, collect E input_folder fs = Step (Ok video_files) fs [].
Proof.
  unfold collect. generalize (∅ : gset (list N)). generalize video_extensions.
  set (f := λ (video_files : gset (list N)) (ext : list N), _).
  assert (∀ acc ext, ∃ acc', f acc ext fs = Step (Ok acc') fs []) as Hf.
  { intros acc ext. unfold f, mbind, M_bind, bind, glob_glob, ret.
    cbn [result disk events]. by eexists. }
  clearbody f.
  induction l as [|ext l IH]; intros acc; cbn [foldM].
  - by eexists.
  - destruct (Hf acc ext) as (acc' & Hacc).
    unfold mbind, M_bind, bind. rewrite Hacc. cbn [result disk events].
    destruct (IH acc') as (s & ->). by eexists.
Qed.

Lemma parsed_paths_NoDup video_files :
  NoDup video_files → NoDup (path_of <$> parsed video_files).
Proof.
  induction 1 as [|p l Hp Hl IH]; [constructor|].
  rewrite parsed_cons, fmap_app. unfold parsed at 1. simpl.
  destruct (timestamp_of (basename p)); simpl; [|done].
  constructor; [|done]. intros Hin. apply Hp.
  apply list_elem_of_fmap in Hin as (e & Heq & He).
  apply elem_of_parsed in He as (He & _).
  change (p = path_of e) in Heq. by rewrite Heq.
Qed.

Lemma sorted_paths_NoDup video_files :
  NoDup video_files → NoDup (path_of <$> sorted_entries video_files).
Proof.
  intros H. unfold sorted_entries. rewrite list_sort_perm. by apply parsed_paths_NoDup.
Qed.

(** [find_video_files_in_folder] returns the sorted paths of the set it
    collected. *)
Lemma find_video_files_in_folder_run input_folder fs :
  ∃ (video_files : gset (list N)) evs,
    collect E input_folder fs = Step (Ok video_files) fs []
    ∧ find_video_files_in_folder E input_folder fs
      = Step (Ok (path_of <$> sorted_entries (elements video_files))) fs evs.
Proof.
  destruct (collect_run input_folder fs) as (s & Hs). exists s.
  unfold find_video_files_in_folder. rewrite bind_log, (bind_ok _ _ _ _ _ _ Hs).
  destruct (elements s) as [|p l] eqn:Hel.
  - mrun. eexists. split; [done|]. reflexivity.
  - mrun. rewrite parse_and_sort_files_run. mrun. eexists. split; [done|]. reflexivity.
Qed.

(** C8.  [find_video_files_in_folder] never returns a path twice,
    whatever the six patterns match. *)
Theorem discovery_no_duplicates input_folder fs :
  ∃ out, result (find_video_files_in_folder E input_folder fs) = Ok out ∧ NoDup out.
Proof.
  destruct (find_video_files_in_folder_run input_folder fs) as (s & evs & _ & ->).
  eexists. split; [done|]. apply sorted_paths_NoDup, NoDup_elements.
Qed.

Lemma process_selected_files_run app fs :
  ∃ evs, process_selected_files app fs
         = Step (Ok (path_of <$> sorted_entries (selected_files app))) fs evs.
Proof.
  unfold process_selected_files. rewrite bind_log.
  destruct (selected_files app) as [|p l].
  - mrun. by eexists.
  - mrun. rewrite parse_and_sort_files_run. mrun. by eexists.
Qed.

(** Discovery returns, and leaves the file system as it is. *)
Lemma find_video_files_run app input_source fs :
  ∃ out evs, find_video_files E app input_source fs = Step (Ok out) fs evs.
Proof.
  unfold find_video_files. case_bool_decide.
  - destruct (find_video_files_in_folder_run input_source fs) as (s & evs & _ & ->).
    by do 2 eexists.
  - destruct (process_selected_files_run app fs) as (evs & ->). by do 2 eexists.
Qed.

(** What [merge_videos] emits when discovery comes back empty. *)
Lemma merge_videos_nothing_found app fs :
  result (find_video_files E app (input_folder app) fs) = Ok [] →
  Forall (λ ev, ¬ executor_event ev) (events (merge_videos E app fs)).
Proof.
  intros Hfind.
  assert (∀ src, selection_mode app ≠ py "folder" →
            find_video_files E app src fs = find_video_files E app (input_folder app) fs)
    as Hsrc.
  { intros src Hmode. unfold find_video_files. by rewrite !bool_decide_eq_false_2. }
  destruct (find_video_files_run app (input_folder app) fs) as (out & evs & Hrun).
  rewrite Hrun in Hfind. simpl in Hfind. injection Hfind as ->.
  assert (Forall (λ ev, ¬ executor_event ev) evs) as Hevs.
  { pose proof (emits_find_video_files E (λ ev, ¬ executor_event ev)
                  ltac:(intros m Hm; exact Hm) app (input_folder app) fs) as H.
    by rewrite Hrun in H. }
  assert (∀ evs' : list event,
            Forall (λ ev, ¬ executor_event ev) evs' →
            Forall (λ ev, ¬ executor_event ev) (evs ++ evs')) as Happ
    by (intros; by apply Forall_app).
  unfold merge_videos. rewrite try_finally_run, try_except_run.
  cbn [events emit].
  set (body := path_exists _ ≫= _).
  assert (∃ evs', body fs = Step (Ok ()) fs evs'
                  ∧ Forall (λ ev, ¬ executor_event ev) evs') as (evs' & Hbody & Hevs').
  { unfold body. rewrite bind_path_exists.
    case_bool_decide; cbn [negb].
    { case_bool_decide as Hmode.
      - rewrite bind_assoc, bind_path_exists.
        case_bool_decide; cbn [negb].
        + rewrite bind_assoc, (bind_ok _ _ _ _ _ _ Hrun). mrun.
          eexists. split; [reflexivity|]. apply Happ.
          repeat (constructor; [intros []|]); constructor.
        + mrun. eexists. split; [reflexivity|].
          repeat (constructor; [intros []|]); constructor.
      - rewrite bind_assoc, (bind_ok _ _ _ _ _ _ (eq_trans (Hsrc [] Hmode) Hrun)). mrun.
        eexists. split; [reflexivity|]. apply Happ.
        repeat (constructor; [intros []|]); constructor. }
    mrun. eexists. split; [reflexivity|].
    repeat (constructor; [intros []|]); constructor. }
  rewrite Hbody. cbn [result disk events]. apply Forall_app. split; [done|].
  repeat (constructor; [intros []|]); constructor.
Qed.

(** C6.  [merge_videos] calls [merge_videos_with_ffmpeg] only with files
    to merge: every call has a non-empty list, and when discovery and
    parsing leave no file, the run ends without a call of the executor,
    a temporary playlist or a process. *)
Theorem merge_needs_files app fs :
  (∀ video_files output_path,
     Merging video_files output_path ∈ events (merge_videos E app fs) →
     video_files ≠ [])
  ∧ (result (find_video_files E app (input_folder app) fs) = Ok [] →
     ∀ ev, ev ∈ events (merge_videos E app fs) → ¬ executor_event ev).
Proof.
  split.
  - intros video_files output_path Hin.
    assert (emits (λ ev, ∀ f o, ev = Merging f o → f ≠ []) (merge_videos E app)) as Hem.
    { unfold merge_videos.
      repeat first
        [ apply emits_merge_videos_with_ffmpeg
        | apply emits_find_video_files
        | emits_step ];
        try discriminate.
      by intros f o [= <- _]. }
    specialize (Hem fs). rewrite Forall_forall in Hem. by eapply Hem.
  - intros Hfind ev Hev.
    pose proof (merge_videos_nothing_found app fs Hfind) as H.
    rewrite Forall_forall in H. by apply H.
Qed.

End Discovery.

Section Executor.
Context {RT : Runtime} (E : Env).

(** The finally block never fails; after it the playlist is gone, or the
    failure to remove it is on the log. *)
Lemma cleanup_run concat_file_path fs :
  result (cleanup E concat_file_path fs) = Ok ()
  ∧ ∀ name, concat_file_path = Some name →
      name ∉ disk (cleanup E concat_file_path fs)
      ∨ ∃ e, unlink E name = Some e
             ∧ cleanup_warning e ∈ events (cleanup E concat_file_path fs).
Proof.
  unfold cleanup. rewrite try_except_run. destruct concat_file_path as [name|].
  - rewrite bind_path_exists. case_bool_decide as Hex.
    + assert (os_unlink E name fs
              = match unlink E name with
                | Some e => Step (Raise e) fs []
                | None => Step (Ok ()) (fs ∖ {[name]}) [Unlink name]
                end) as Hos by reflexivity.
      rewrite bind_run, Hos.
      destruct (unlink E name) as [e|] eqn:Hu; cbn [result disk events].
      * rewrite log_run, prepend_step. cbn [result disk events app].
        split; [done|]. intros n Hn. injection Hn as <-. right. exists e.
        split; [done|]. by apply list_elem_of_singleton.
      * rewrite log_run, prepend_step. cbn [result disk events app].
        split; [done|]. intros n Hn. injection Hn as <-. left. set_solver.
    + rewrite ret_run. cbn [result disk events].
      split; [done|]. intros n Hn. injection Hn as <-. by left.
  - rewrite ret_run. cbn [result disk events].
    split; [done|]. intros n Hn. discriminate Hn.
Qed.

Lemma report_unexpected_run ffmpeg_path e fs :
  result (report_unexpected E ffmpeg_path e fs) = Ok false.
Proof. unfold report_unexpected. mrun. reflexivity. Qed.

(** The outer try block with its handler raises nothing. *)
Lemma guarded_build_and_run video_files output_path ffmpeg_path fs :
  let m := try_except (build_and_run E video_files output_path ffmpeg_path)
                      (report_unexpected E ffmpeg_path) in
  result (m fs) = Hang ∨ ∃ b, result (m fs) = Ok b.
Proof.
  intros m. unfold m. rewrite try_except_run.
  destruct (result (build_and_run E video_files output_path ffmpeg_path fs)) as [b|e|] eqn:Hr.
  - right. exists b. done.
  - right. exists false. rewrite result_prepend. apply report_unexpected_run.
  - left. done.
Qed.

Lemma try_merge_result video_files output_path ffmpeg_path fs :
  result (try_merge E video_files output_path ffmpeg_path fs)
  = result (try_except (build_and_run E video_files output_path ffmpeg_path)
                       (report_unexpected E ffmpeg_path) fs).
Proof.
  unfold try_merge. rewrite try_finally_run.
  set (m := try_except _ _).
  destruct (result (m fs)) eqn:Hr; [| |done]; cbn [result];
    by rewrite (proj1 (cleanup_run _ _)).
Qed.

Lemma try_merge_cleanup video_files output_path ffmpeg_path fs name :
  let t := try_merge E video_files output_path ffmpeg_path fs in
  result t ≠ Hang → mktemp E = inr name →
  name ∉ disk t ∨ ∃ e, unlink E name = Some e ∧ cleanup_warning e ∈ events t.
Proof.
  intros t Hnh Hname. subst t. revert Hnh.
  rewrite try_merge_result. unfold try_merge. rewrite try_finally_run.
  set (m := try_except _ _). rewrite Hname.
  intros Hnh. destruct (result (m fs)) as [b|x|] eqn:Hr; [| |done]; cbn [disk events];
    (destruct (proj2 (cleanup_run (Some name) (disk (m fs))) name eq_refl)
       as [Hgone|(e & Hu & Hw)]; [by left|]; right; exists e; split; [done|];
     apply elem_of_app; by right).
Qed.

(** [subprocess.run] with a timeout comes back. *)
Lemma subprocess_run_timeout argv t fs :
  result (subprocess_run E argv (Some t) fs) ≠ Hang.
Proof.
  unfold subprocess_run. destruct (spawn E argv) as [e|[d|] rc o er eff];
    cbn [result]; [done| |done]. by destruct (t <? d).
Qed.

(** The probe of the system binary comes back. *)
Lemma probe_system_returns fs :
  ∃ checked d evs,
    try_except
      (subprocess_run E [py "ffmpeg"; py "-version"] (Some 10)
       ≫= λ result,
         if (returncode result =? 0)%Z
         then ret (true, Txt "Using system FFmpeg: "
                         :: version_line (stdout result) "System FFmpeg found",
                   Some (py "ffmpeg"))
         else ret (false, [Txt "FFmpeg binary found but returned error"], None))
      (λ e, match exn_type e with
            | FileNotFoundError => ret (false, [Txt "FFmpeg binary not found"], None)
            | _ => ret (false, [Txt "Error checking FFmpeg: "; Str (exn_text e)], None)
            end) fs = Step (Ok checked) d evs.
Proof.
  rewrite try_except_run, bind_run.
  pose proof (subprocess_run_timeout [py "ffmpeg"; py "-version"] 10 fs) as Hnh.
  destruct (subprocess_run E [py "ffmpeg"; py "-version"] (Some 10) fs)
    as [[r|e|] d evs]; [| |done]; cbn [result disk events].
  - destruct (returncode r =? 0)%Z; rewrite ret_run, prepend_step; by do 3 eexists.
  - destruct (exn_type e); rewrite ret_run, prepend_step; by do 3 eexists.
Qed.

(** The probe of the binary always comes back. *)
Lemma check_ffmpeg_binary_returns fs :
  ∃ checked d evs, check_ffmpeg_binary E fs = Step (Ok checked) d evs.
Proof.
  unfold check_ffmpeg_binary. rewrite bind_path_exists.
  case_bool_decide.
  - rewrite bind_run, try_except_run, bind_run.
    pose proof (subprocess_run_timeout [bundled_ffmpeg E; py "-version"] 10 fs) as Hnh.
    destruct (subprocess_run E [bundled_ffmpeg E; py "-version"] (Some 10) fs)
      as [[r|e|] d evs]; [| |done]; cbn [result disk events].
    + destruct (returncode r =? 0)%Z; rewrite ret_run, prepend_step;
        cbn [result disk events].
      * rewrite ret_run, prepend_step. by do 3 eexists.
      * destruct (probe_system_returns d) as (c & d' & evs' & ->).
        rewrite prepend_step. by do 3 eexists.
    + rewrite ret_run, prepend_step. cbn [result disk events].
      destruct (probe_system_returns d) as (c & d' & evs' & ->).
      rewrite prepend_step. by do 3 eexists.
  - rewrite bind_ret. apply probe_system_returns.
Qed.

(** How [merge_videos_with_ffmpeg] runs: the probe, and after a good
    probe the try statement. *)
Lemma merge_videos_with_ffmpeg_run video_files output_path fs :
  ∃ avail status path d evs,
    check_ffmpeg_binary E fs = Step (Ok (avail, status, path)) d evs
    ∧ merge_videos_with_ffmpeg E video_files output_path fs
      = let pre := Merging video_files output_path
                   :: Log [Txt "Starting video merge process..."] :: evs in
        if avail : bool
        then prepend (pre ++ [Log [Txt "Using FFmpeg at: "; Str (default [] path)]])
                     (try_merge E video_files output_path (default [] path) d)
        else Step (Ok false) d (pre ++ [Log (Txt "FFmpeg check failed: " :: status)]).
Proof.
  destruct (check_ffmpeg_binary_returns fs) as ([[avail status] path] & d & evs & Hc).
  exists avail, status, path, d, evs. split; [done|].
  unfold merge_videos_with_ffmpeg. rewrite bind_emit, bind_log, (bind_ok _ _ _ _ _ _ Hc).
  cbv zeta. cbn [fst snd]. destruct avail; cbn [negb].
  - rewrite bind_log, !prepend_prepend. reflexivity.
  - rewrite bind_log, ret_run, !prepend_step. reflexivity.
Qed.

End Executor.

Section Executor_claims.
Context {RT : Runtime} (E : Env).

(** C7.  When [merge_videos_with_ffmpeg] comes back, it comes back with a
    result and not with an exception, and the temporary playlist it
    created is gone, unless [os.unlink] failed, and then a warning is on
    the log; whether [os.unlink] fails makes no difference to the
    result. *)
Theorem playlist_removed video_files output_path fs :
  let s := merge_videos_with_ffmpeg E video_files output_path fs in
  result s ≠ Hang →
  (∃ b, result s = Ok b)
  ∧ (∀ name, CreateTemp name ∈ events s →
       name ∉ disk s ∨ ∃ e, unlink E name = Some e ∧ cleanup_warning e ∈ events s)
  ∧ (∀ u, result (merge_videos_with_ffmpeg (with_unlink E u) video_files output_path fs)
          = result s).
Proof.
  intros s Hnh.
  assert (∀ name, CreateTemp name ∈ events s → mktemp E = inr name) as Htemp.
  { intros name Hin.
    assert (emits (λ ev, ∀ n, ev = CreateTemp n → mktemp E = inr n)
              (merge_videos_with_ffmpeg E video_files output_path)) as Hem.
    { apply emits_merge_videos_with_ffmpeg; try discriminate.
      by intros n Hn ? [= <-]. }
    specialize (Hem fs). rewrite Forall_forall in Hem. by eapply Hem. }
  destruct (merge_videos_with_ffmpeg_run E video_files output_path fs)
    as (avail & status & path & d & evs & Hc & Hrun).
  assert (∀ name, CreateTemp name ∉ evs) as Hprobe.
  { intros name Hin.
    assert (emits (λ ev, ∀ n, ev ≠ CreateTemp n) (check_ffmpeg_binary E)) as Hem
      by (apply emits_check_ffmpeg_binary; repeat intro; congruence).
    specialize (Hem fs). rewrite Hc, Forall_forall in Hem. by eapply Hem. }
  split; [|split].
  - subst s. rewrite Hrun in Hnh |- *. cbv zeta in Hnh |- *.
    destruct avail; [|by eexists].
    rewrite result_prepend, try_merge_result in Hnh |- *.
    destruct (guarded_build_and_run E video_files output_path (default [] path) d)
      as [Hh|Hb]; done.
  - intros name Hin. pose proof (Htemp name Hin) as Hname.
    subst s. rewrite Hrun in Hnh, Hin |- *. cbv zeta in Hnh, Hin |- *.
    destruct avail.
    + rewrite result_prepend in Hnh. rewrite disk_prepend, events_prepend.
      destruct (try_merge_cleanup E video_files output_path (default [] path) d name
                  Hnh Hname) as [Hgone|(e & Hu & Hw)]; [by left|].
      right. exists e. split; [done|]. apply elem_of_app. by right.
    + exfalso. cbn [events app] in Hin.
      repeat (apply elem_of_cons in Hin as [Hin|Hin]; [discriminate Hin|]).
      apply elem_of_app in Hin as [Hin|Hin]; [by eapply Hprobe|].
      apply list_elem_of_singleton in Hin. discriminate Hin.
  - intros u. subst s.
    destruct (merge_videos_with_ffmpeg_run (with_unlink E u) video_files output_path fs)
      as (avail' & status' & path' & d' & evs' & Hc' & Hrun').
    change (check_ffmpeg_binary (with_unlink E u)) with (check_ffmpeg_binary E) in Hc'.
    rewrite Hc in Hc'. injection Hc' as <- <- <- <- <-.
    rewrite Hrun, Hrun'. cbv zeta.
    destruct avail; [|done].
    by rewrite !result_prepend, !try_merge_result.
Qed.

End Executor_claims.

Lemma for_each_ok {A} (f : A → M unit) l fs :
  (∀ a fs', result (f a fs') = Ok ()) → result (for_each f l fs) = Ok ().
Proof.
  intros Hf. unfold for_each. revert fs. induction l as [|x l IH]; intros fs; cbn [foldM].
  - done.
  - rewrite bind_run, Hf, result_prepend. apply IH.
Qed.

Section No_timeout.
Context {RT : Runtime}.

Lemma tool_probe duration fs :
  ∃ path status evs,
    check_ffmpeg_binary (tool duration) fs = Step (Ok (true, status, Some path)) fs evs.
Proof.
  unfold check_ffmpeg_binary. rewrite bind_path_exists. case_bool_decide.
  - do 3 eexists. reflexivity.
  - do 3 eexists. reflexivity.
Qed.

Lemma tool_run_ffmpeg duration ffmpeg_path name output_path fs :
  result (run_ffmpeg (tool duration) (ffmpeg_command ffmpeg_path name output_path) fs)
  = match duration with Some _ => Ok true | None => Hang end.
Proof. by destruct duration. Qed.

Lemma tool_build_and_run duration video_files output_path ffmpeg_path fs :
  result (build_and_run (tool duration) video_files output_path ffmpeg_path fs)
  = match duration with Some _ => Ok true | None => Hang end.
Proof.
  unfold build_and_run.
  rewrite (bind_ok _ _ _ _ _ _ (eq_refl : named_temporary_file (tool duration) fs
             = Step (Ok (py "/tmp/tmpconcat.txt")) ({[py "/tmp/tmpconcat.txt"]} ∪ fs)
                    [CreateTemp (py "/tmp/tmpconcat.txt")])).
  rewrite result_prepend, bind_run.
  set (fs' := {[py "/tmp/tmpconcat.txt"]} ∪ fs).
  match goal with
  | |- context [result (with_file ?E0 ?n ?b ?f)] =>
      assert (∃ evs, with_file E0 n b f = Step (Ok ()) f evs) as (evs & ->)
  end.
  { unfold with_file. rewrite try_finally_run, bind_log, result_prepend, disk_prepend,
      events_prepend.
    set (loop := for_each _ _).
    assert (∃ evs, loop fs' = Step (Ok ()) fs' evs) as (evs & Hloop).
    { unfold loop, for_each. generalize (imap pair video_files). intros l.
      induction l as [|ix l (evs & IH)]; cbn [foldM]; [by eexists|].
      cbv zeta. rewrite bind_assoc.
      rewrite (bind_ok _ _ _ _ _ _ (eq_refl : file_write (tool duration) _ _ fs'
                 = Step (Ok ()) fs' [WriteLine _ _])).
      rewrite bind_log, IH, !prepend_step. by eexists. }
    rewrite (bind_ok _ _ _ _ _ _ Hloop), log_run, prepend_step.
    cbn [result disk events]. by eexists. }
  cbn [result disk events]. rewrite result_prepend, !bind_log, !result_prepend.
  apply tool_run_ffmpeg.
Qed.

(** C4, what the code does where the claim fails.  However long the
    merge command runs before it exits with code 0,
    [merge_videos_with_ffmpeg] waits and reports success; and when the
    command never exits, [merge_videos_with_ffmpeg] never returns.  The
    handler for [TimeoutExpired] is there, but [subprocess.run] is called
    without a timeout. *)
Theorem merge_waits_without_bound video_files output_path fs :
  (∀ T, result (merge_videos_with_ffmpeg (tool (Some T)) video_files output_path fs)
        = Ok true)
  ∧ result (merge_videos_with_ffmpeg (tool None) video_files output_path fs) = Hang.
Proof.
  assert (∀ duration,
            result (merge_videos_with_ffmpeg (tool duration) video_files output_path fs)
            = match duration with Some _ => Ok true | None => Hang end) as H.
  { intros duration.
    destruct (merge_videos_with_ffmpeg_run (tool duration) video_files output_path fs)
      as (avail & status & path & d & evs & Hc & ->).
    destruct (tool_probe duration fs) as (path' & status' & evs' & Hp).
    rewrite Hp in Hc. injection Hc as <- <- <- <- <-. cbv zeta.
    rewrite result_prepend, try_merge_result, try_except_run, tool_build_and_run.
    destruct duration; apply tool_build_and_run. }
  split; [intros T; apply (H (Some T)) | apply (H None)].
Qed.

End No_timeout.

(** * Runs on concrete inputs *)

Section Runs.
Local Existing Instance posix.

Ltac in_list := repeat first [apply list_elem_of_here | apply list_elem_of_further].

Lemma parse_accepts_first_token_witness :
  let file_path := py "/v/RecM01_20240315_143022.mp4" in
  ∃ out, result (parse_and_sort_files [file_path] ∅) = Ok out
    ∧ (file_path ∈ out)
    ∧ (mkdt 2024 3 15 14 30 22 0, file_path, py "RecM01_20240315_143022.mp4")
        ∈ sorted_entries [file_path].
Proof.
  intros file_path.
  assert (first_token (basename file_path) [] (py "1") (py "20240315") (py "143022")
            (py ".mp4")) as Hft.
  { split; [reflexivity|]. split.
    - split; [discriminate|]. repeat split; try reflexivity; repeat constructor.
    - intros i Hi. simpl in Hi. lia. }
  destruct (parse_accepts_first_token [file_path] ∅ file_path []
              (py "1") (py "20240315") (py "143022") (py ".mp4"))
    as [(out & Hr & Hin & Hent & _) _].
  - apply list_elem_of_here.
  - exact Hft.
  - repeat constructor.
  - repeat constructor.
  - reflexivity.
  - exists out. split; [exact Hr|]. split; [exact Hin|]. exact Hent.
Defined.

(** A name with two tokens, of which only the second spells a date that
    exists: the file is left out. *)
Lemma parse_rejects_later_token :
  let file_path := py "RecM01_20241301_000000_RecM01_20240315_143022.mp4" in
  basename file_path
  = py "RecM01_20241301_000000_" ++ token (py "1") (py "20240315") (py "143022")
    ++ py ".mp4"
  ∧ is_token (py "1") (py "20240315") (py "143022")
  ∧ ascii_digits (py "20240315") ∧ ascii_digits (py "143022")
  ∧ valid (stamp (py "20240315") (py "143022")) = true
  ∧ result (parse_and_sort_files [file_path] ∅) = Ok [].
Proof.
  intros file_path. split; [reflexivity|]. split.
  { split; [discriminate|]. repeat split; try reflexivity; repeat constructor. }
  split; [repeat constructor|]. split; [repeat constructor|].
  split; reflexivity.
Qed.

Lemma parse_skips_unparsable_witness :
  let good := py "/v/RecM01_20240101_090000.mp4" in
  let bad := py "/v/RecM01_20241301_000000.mp4" in
  ∃ out, result (parse_and_sort_files ([good] ++ bad :: [good]) ∅) = Ok out
    ∧ bad ∉ out
    ∧ (Log [Txt "Could not parse timestamp in: "; Str (py "RecM01_20241301_000000.mp4")])
        ∈ events (parse_and_sort_files ([good] ++ bad :: [good]) ∅)
    ∧ result (parse_and_sort_files ([good] ++ [good]) ∅) = Ok out.
Proof.
  intros good bad.
  apply (parse_skips_unparsable [good] bad [good] ∅).
  apply (bad_date _ [] (py "1") (py "20241301") (py "000000") (py ".mp4")).
  - split; [reflexivity|]. split.
    + split; [discriminate|]. repeat split; try reflexivity; repeat constructor.
    + intros i Hi. simpl in Hi. lia.
  - reflexivity.
Defined.

Lemma sorted_output_witness :
  let a := py "/v/RecM03_20240101_083000.mov" in
  let b := py "/v/RecM01_20240101_090000.mp4" in
  result (parse_and_sort_files [a; b] ∅) = Ok [a; b].
Proof.
  intros a b.
  destruct (sorted_output [a; b] ∅) as (out & stamps & Hr & _ & _ & _ & Hsame & _).
  rewrite Hr. f_equal. rewrite Hsame; [reflexivity|].
  assert (stamp_of <$> parsed [a; b]
          = [mkdt 2024 1 1 8 30 0 0; mkdt 2024 1 1 9 0 0 0]) as ->
    by (vm_compute; reflexivity).
  repeat constructor; discriminate.
Defined.

Lemma merge_needs_files_witness :
  (Merging [py "/v/RecM01_20240101_090000.mp4"] (py "/out/Panorama.mp4"))
    ∈ events (merge_videos (tool (Some 5)) one_file {[py "/out"]})
  ∧ [py "/v/RecM01_20240101_090000.mp4"] ≠ []
  ∧ result (find_video_files (tool (Some 5)) empty_folder (py "/v")
              {[py "/out"; py "/v"]}) = Ok []
  ∧ ∀ ev, ev ∈ events (merge_videos (tool (Some 5)) empty_folder {[py "/out"; py "/v"]})
          → ¬ executor_event ev.
Proof.
  assert ((Merging [py "/v/RecM01_20240101_090000.mp4"] (py "/out/Panorama.mp4"))
            ∈ events (merge_videos (tool (Some 5)) one_file {[py "/out"]})) as Hin.
  { vm_compute. in_list. }
  split; [exact Hin|]. split.
  - exact (proj1 (merge_needs_files (tool (Some 5)) one_file {[py "/out"]}) _ _ Hin).
  - split; [reflexivity|].
    exact (proj2 (merge_needs_files (tool (Some 5)) empty_folder {[py "/out"; py "/v"]})
             eq_refl).
Defined.

Lemma playlist_removed_witness :
  let s := merge_videos_with_ffmpeg (tool (Some 5))
             [py "/v/RecM01_20240101_090000.mp4"] (py "/out/Panorama.mp4") ∅ in
  result s = Ok true ∧ py "/tmp/tmpconcat.txt" ∉ disk s.
Proof.
  intros s. split; [reflexivity|].
  assert (result s ≠ Hang) as Hnh by discriminate.
  destruct (playlist_removed (tool (Some 5)) [py "/v/RecM01_20240101_090000.mp4"]
              (py "/out/Panorama.mp4") ∅ Hnh) as (_ & Hgone & _).
  destruct (Hgone (py "/tmp/tmpconcat.txt")) as [H|(e & Hu & _)].
  - vm_compute. in_list.
  - exact H.
  - discriminate Hu.
Defined.

(** The same run when [os.unlink] fails: the result is the same, the
    playlist stays and the log has the warning. *)
Example playlist_not_removed :
  let failing := with_unlink (tool (Some 5))
                   (λ _, Some (Exn (OtherException "PermissionError") (py "denied"))) in
  let s := merge_videos_with_ffmpeg failing
             [py "/v/RecM01_20240101_090000.mp4"] (py "/out/Panorama.mp4") ∅ in
  result s = Ok true
  ∧ py "/tmp/tmpconcat.txt" ∈ disk s
  ∧ last (events s)
    = Some (Log [Txt "Warning: Could not clean up temporary file: "; Str (py "denied")]).
Proof.
  split; [vm_compute; reflexivity|]. split; [|vm_compute; reflexivity].
  apply (bool_decide_eq_true_1 (py "/tmp/tmpconcat.txt" ∈ _)). vm_compute. reflexivity.
Qed.

Example merge_fails_on_exit_code :
  let s := merge_videos_with_ffmpeg failing_tool
             [py "/v/RecM01_20240101_090000.mp4"] (py "/out/Panorama.mp4") ∅ in
  result s = Ok false
  ∧ (Log [Txt "FFmpeg process failed with return code "; Int 1;
          Str [newline]; Txt "Stderr: "; Str (py "Invalid data found")]) ∈ events s
  ∧ py "/tmp/tmpconcat.txt" ∉ disk s.
Proof.
  split; [reflexivity|]. split.
  - vm_compute. in_list.
  - vm_compute. set_solver.
Qed.

Example scenario_order :
  result (find_video_files_in_folder scenario (py "/v") ∅)
  = Ok [py "/v/RecM03_20240101_083000.mov"; py "/v/RecM01_20240101_090000.mp4";
        py "/v/RecM02_20240101_091500.mp4"].
Proof. vm_compute. reflexivity. Qed.

Example search_example :
  re_search timestamp_pattern (py "RecM01_20240315_143022.mp4")
  = Some (py "RecM01_20240315_143022", [py "20240315"; py "143022"], py ".mp4").
Proof. vm_compute. reflexivity. Qed.

Example strptime_example :
  strptime (py "20240315_143022") = Ok (mkdt 2024 3 15 14 30 22 0).
Proof. vm_compute. reflexivity. Qed.

Example strptime_month13 :
  strptime (py "20241301_000000")
  = Raise (Exn ValueError (py "time data does not match format")).
Proof. vm_compute. reflexivity. Qed.

Example strptime_second_75 :
  strptime (py "20240101_000075")
  = Raise (Exn ValueError (py "unconverted data remains")).
Proof. vm_compute. reflexivity. Qed.

Example strptime_february_30 :
  strptime (py "20240230_000000")
  = Raise (Exn ValueError (py "date value out of range")).
Proof. vm_compute. reflexivity. Qed.

Example strptime_second_60 :
  strptime (py "20240101_000060")
  = Raise (Exn ValueError (py "time value out of range")).
Proof. vm_compute. reflexivity. Qed.

(** Digits other than 0 to 9: a year in Arabic-Indic digits is read, a
    month is not. *)
Example strptime_arabic_year :
  strptime ([1634; 1632; 1634; 1636] ++ py "0315_143022")
  = Ok (mkdt 2024 3 15 14 30 22 0).
Proof. vm_compute. reflexivity. Qed.

Example parse_arabic_month :
  result (parse_and_sort_files
            [py "RecM01_2024" ++ [1632; 1635] ++ py "15_143022.mp4"] ∅)
  = Ok [].
Proof. vm_compute. reflexivity. Qed.

End Runs.

(** * The probe of the binary *)

Section Probe.
Context {RT : Runtime} (E : Env).

(** What [subprocess.run] with the ten seconds of the probes gives. *)
Lemma probe_run argv fs :
  subprocess_run E argv (Some 10) fs
  = match spawn E argv with
    | Fails e => Step (Raise e) fs [Spawn argv (Some 10)]
    | Runs d rc out err effect =>
        Step (match d with
              | Some d' => if 10 <? d' then Raise (Exn TimeoutExpired (py "timed out"))
                           else Ok (Completed rc out err)
              | None => Raise (Exn TimeoutExpired (py "timed out"))
              end) (effect fs) [Spawn argv (Some 10)]
    end.
Proof.
  unfold subprocess_run. destruct (spawn E argv) as [e|[d|] rc out err eff]; [done| |done].
  by destruct (10 <? d).
Qed.

(** The second half of [check_ffmpeg_binary]: the probe of the binary on
    the search path. *)
Lemma probe_system_run fs :
  ∃ status d,
    try_except
      (subprocess_run E [py "ffmpeg"; py "-version"] (Some 10)
       ≫= λ result,
         if (returncode result =? 0)%Z
         then ret (true, Txt "Using system FFmpeg: "
                         :: version_line (stdout result) "System FFmpeg found",
                   Some (py "ffmpeg"))
         else ret (false, [Txt "FFmpeg binary found but returned error"], None))
      (λ e, match exn_type e with
            | FileNotFoundError => ret (false, [Txt "FFmpeg binary not found"], None)
            | _ => ret (false, [Txt "Error checking FFmpeg: "; Str (exn_text e)], None)
            end) fs
    = Step (Ok (if passes (spawn E [py "ffmpeg"; py "-version"])
                then (true, status, Some (py "ffmpeg"))
                else (false, status, None)))
           d [Spawn [py "ffmpeg"; py "-version"] (Some 10)].
Proof.
  rewrite try_except_run, bind_run, probe_run. unfold passes.
  destruct (spawn E [py "ffmpeg"; py "-version"]) as [e|[d|] rc out err eff];
    cbn [result disk events].
  - destruct (exn_type e); cbv beta iota; rewrite ret_run, prepend_step; by do 2 eexists.
  - destruct (10 <? d); cbn [result disk events negb andb exn_type].
    + rewrite ret_run, prepend_step. by do 2 eexists.
    + cbn [returncode]. destruct (rc =? 0)%Z; rewrite ret_run, prepend_step; by do 2 eexists.
  - cbn [exn_type]. rewrite ret_run, prepend_step. by do 2 eexists.
Qed.

(** How [check_ffmpeg_binary] runs. *)
Lemma check_ffmpeg_binary_run fs :
  let bundled := [bundled_ffmpeg E; py "-version"] in
  let system := [py "ffmpeg"; py "-version"] in
  ∃ status d,
    check_ffmpeg_binary E fs
    = Step (Ok (if bool_decide (bundled_ffmpeg E ∈ fs) && passes (spawn E bundled)
                then (true, status, Some (bundled_ffmpeg E))
                else if passes (spawn E system)
                then (true, status, Some (py "ffmpeg"))
                else (false, status, None)))
           d
           ((if bool_decide (bundled_ffmpeg E ∈ fs) then [Spawn bundled (Some 10)] else [])
            ++ (if bool_decide (bundled_ffmpeg E ∈ fs) && passes (spawn E bundled)
                then [] else [Spawn system (Some 10)])).
Proof.
  intros bundled system. unfold check_ffmpeg_binary. rewrite bind_path_exists.
  case_bool_decide as Hex; cbn [andb].
  - rewrite bind_run, try_except_run, bind_run, probe_run. fold bundled. unfold passes at 1 3.
    destruct (spawn E bundled) as [e|[d|] rc out err eff]; cbn [result disk events].
    + rewrite ret_run, prepend_step. cbn [result disk events].
      destruct (probe_system_run fs) as (status & d' & ->).
      rewrite prepend_step. by do 2 eexists.
    + destruct (10 <? d); cbn [result disk events negb andb].
      * rewrite ret_run, prepend_step. cbn [result disk events].
        destruct (probe_system_run (eff fs)) as (status & d' & ->).
        rewrite prepend_step. by do 2 eexists.
      * cbn [returncode]. destruct (rc =? 0)%Z; rewrite ret_run, prepend_step;
          cbn [result disk events].
        -- rewrite ret_run, prepend_step. by do 2 eexists.
        -- destruct (probe_system_run (eff fs)) as (status & d' & ->).
           rewrite prepend_step. by do 2 eexists.
    + rewrite ret_run, prepend_step. cbn [result disk events].
      destruct (probe_system_run (eff fs)) as (status & d' & ->).
      rewrite prepend_step. by do 2 eexists.
  - rewrite bind_ret. destruct (probe_system_run fs) as (status & d' & ->).
    by do 2 eexists.
Qed.

(** X1.  [check_ffmpeg_binary] always returns, and what it returns is
    decided by the two probes: the bundled binary when it exists and its
    probe exits with code 0 within ten seconds, else the binary on the
    search path when its probe does, else no binary.  The flag is true
    exactly when there is a path. *)
Theorem check_ffmpeg_binary_decides fs :
  ∃ status,
    result (check_ffmpeg_binary E fs)
    = Ok (if bool_decide (bundled_ffmpeg E ∈ fs)
             && passes (spawn E [bundled_ffmpeg E; py "-version"])
          then (true, status, Some (bundled_ffmpeg E))
          else if passes (spawn E [py "ffmpeg"; py "-version"])
          then (true, status, Some (py "ffmpeg"))
          else (false, status, None)).
Proof.
  destruct (check_ffmpeg_binary_run fs) as (status & d & ->). by exists status.
Qed.

(** X2.  [check_ffmpeg_binary] runs nothing but its probes, each with the
    ten seconds: the bundled binary only when the file exists, and the
    binary on the search path only when the bundled one did not pass. *)
Theorem check_ffmpeg_binary_probes fs :
  events (check_ffmpeg_binary E fs)
  = (if bool_decide (bundled_ffmpeg E ∈ fs)
     then [Spawn [bundled_ffmpeg E; py "-version"] (Some 10)] else [])
    ++ (if bool_decide (bundled_ffmpeg E ∈ fs)
           && passes (spawn E [bundled_ffmpeg E; py "-version"])
        then [] else [Spawn [py "ffmpeg"; py "-version"] (Some 10)]).
Proof.
  destruct (check_ffmpeg_binary_run fs) as (status & d & ->). reflexivity.
Qed.

End Probe.

(** * The playlist and the run of the tool *)

Lemma written_app evs1 evs2 : written (evs1 ++ evs2) = written evs1 ++ written evs2.
Proof. apply omap_app. Qed.

Lemma unbounded_runs_app evs1 evs2 :
  unbounded_runs (evs1 ++ evs2) = unbounded_runs evs1 ++ unbounded_runs evs2.
Proof. apply omap_app. Qed.

Lemma written_nil evs :
  Forall (λ ev, ∀ name line, ev ≠ WriteLine name line) evs → written evs = [].
Proof.
  induction 1 as [|ev evs Hev _ IH]; [done|].
  change (ev :: evs) with ([ev] ++ evs). rewrite written_app, IH.
  destruct ev; try done. by destruct (Hev name line).
Qed.

Lemma unbounded_runs_nil evs :
  Forall (λ ev, ∀ argv, ev ≠ Spawn argv None) evs → unbounded_runs evs = [].
Proof.
  induction 1 as [|ev evs Hev _ IH]; [done|].
  change (ev :: evs) with ([ev] ++ evs). rewrite unbounded_runs_app, IH. destruct ev as [| | | |argv [t|]| | | | |]; try done. by destruct (Hev argv).
Qed.

Lemma unbounded_runs_elem argv evs :
  Spawn argv None ∈ evs ↔ argv ∈ unbounded_runs evs.
Proof.
  unfold unbounded_runs. rewrite list_elem_of_omap. split.
  - intros H. by exists (Spawn argv None).
  - intros (ev & Hev & Heq). destruct ev as [| | | |argv' [t|]| | | | |]; try done.
    by injection Heq as ->.
Qed.

(** A loop whose body returns and leaves the disk alone does the same. *)
Lemma for_each_quiet {A} (P : event → Prop) (f : A → M unit) l fs :
  (∀ a, ∃ evs, f a fs = Step (Ok ()) fs evs ∧ Forall P evs) →
  ∃ evs, for_each f l fs = Step (Ok ()) fs evs ∧ Forall P evs.
Proof.
  intros Hf. unfold for_each. induction l as [|a l (evs & IH & HP)]; cbn [foldM].
  - exists []. by split.
  - destruct (Hf a) as (evs' & Ha & HP'). rewrite (bind_ok _ _ _ _ _ _ Ha), IH, prepend_step.
    eexists. split; [done|]. by apply Forall_app.
Qed.

(** Writes a list of events that starts with given events as a
    concatenation. *)
Ltac uncons :=
  repeat match goal with
  | |- context [@cons event ?a ?l] =>
      lazymatch l with
      | [] => fail
      | _ => change (a :: l) with ([a] ++ l)
      end
  end.

Lemma bind_ext {A B} (m : M A) (f g : A → M B) fs :
  (∀ a fs', f a fs' = g a fs') → (m ≫= f) fs = (m ≫= g) fs.
Proof. intros H. rewrite !bind_run. destruct (result (m fs)); [|done..]. by rewrite H. Qed.

Lemma bind_raise {A B} (m : M A) (k : A → M B) fs e d evs :
  m fs = Step (Raise e) d evs → (m ≫= k) fs = Step (Raise e) d evs.
Proof. intros H. by rewrite bind_run, H. Qed.

Lemma bind_hang {A B} (m : M A) (k : A → M B) fs d evs :
  m fs = Step Hang d evs → (m ≫= k) fs = Step Hang d evs.
Proof. intros H. by rewrite bind_run, H. Qed.

Lemma try_except_raise {A} (m : M A) h fs e d evs :
  m fs = Step (Raise e) d evs → try_except m h fs = prepend evs (h e d).
Proof. intros H. by rewrite try_except_run, H. Qed.

Lemma try_except_ok {A} (m : M A) h fs a d evs :
  m fs = Step (Ok a) d evs → try_except m h fs = Step (Ok a) d evs.
Proof. intros H. by rewrite try_except_run, H. Qed.

Lemma try_finally_ok {A} (m : M A) fin fs a d evs d' evs' :
  m fs = Step (Ok a) d evs → fin d = Step (Ok ()) d' evs' →
  try_finally m fin fs = Step (Ok a) d' (evs ++ evs').
Proof. intros H H'. by rewrite try_finally_run, H; cbn [result disk events]; rewrite H'. Qed.

Section Playlist.
Context {RT : Runtime} (E : Env).

Lemma named_temporary_file_run fs :
  named_temporary_file E fs
  = match mktemp E with
    | inl e => Step (Raise e) fs []
    | inr name => Step (Ok name) ({[name]} ∪ fs) [CreateTemp name]
    end.
Proof. reflexivity. Qed.

(** The inner try block: the command is run once, without a timeout, and
    its exit code decides. *)
Lemma run_ffmpeg_run cmd fs :
  ∃ logs,
    Forall (λ ev, ∃ m, ev = Log m) logs
    ∧ (∀ m, failure_report (spawn E cmd) = Some m → logs = [Log m])
    ∧ run_ffmpeg E cmd fs
      = Step (exit_outcome (spawn E cmd))
             (match spawn E cmd with
              | Fails _ => fs
              | Runs _ _ _ _ effect => effect fs
              end)
             (Spawn cmd None :: logs).
Proof.
  unfold run_ffmpeg, exit_outcome, failure_report.
  rewrite try_except_run, bind_run. unfold subprocess_run.
  destruct (spawn E cmd) as [e|[d|] rc out err eff]; cbn [result disk events].
  - destruct (exn_type e); cbv beta iota; rewrite bind_log, ret_run, !prepend_step;
      (eexists; split; [|split; [|reflexivity]];
       [repeat constructor; by eexists|by intros m [= <-]]).
  - cbn [returncode stderr]. destruct (Z.eqb_spec rc 0) as [->|Hrc].
    + rewrite bool_decide_eq_true_2 by done. rewrite bind_log.
      destruct err as [|c err].
      * mrun. eexists. split; [|split; [done|reflexivity]]. repeat constructor. by eexists.
      * match goal with
        | |- context [for_each ?f ?l] =>
            destruct (for_each_quiet (λ ev, ∃ m, ev = Log m) f l (eff fs)) as (evs & Hloop & Hlogs)
        end.
        { intros line. destruct (_ && _).
          - exists []. by split.
          - destruct (_ || _).
            + eexists. split; [reflexivity|]. repeat constructor. by eexists.
            + exists []. by split. }
        rewrite (bind_ok _ _ _ _ _ _ Hloop). mrun.
        eexists. split; [|split; [done|reflexivity]].
        constructor; [by eexists|]. rewrite app_nil_r. done.
    + rewrite bool_decide_eq_false_2 by done. mrun.
      eexists. split; [|split; [|reflexivity]]; [repeat constructor; by eexists|].
      by intros m [= <-].
  - exists []. split; [constructor|]. split; [done|reflexivity].
Qed.

(** The loop that writes the playlist. *)
Lemma playlist_loop name (label : nat * list N → message) l fs :
  let body := λ ix : nat * list N,
    file_write E name (playlist_line ix.2);; log_message (label ix) in
  disk (for_each body l fs) = fs
  ∧ result (for_each body l fs) ≠ Hang
  ∧ Forall (λ ev, (∃ m, ev = Log m) ∨ ∃ line, ev = WriteLine name line)
           (events (for_each body l fs))
  ∧ (result (for_each body l fs) = Ok () →
     written (events (for_each body l fs)) = (λ ix, (name, playlist_line ix.2)) <$> l).
Proof.
  intros body.
  assert (∀ ix, body ix fs
                = match write E name (playlist_line ix.2) with
                  | Some e => Step (Raise e) fs []
                  | None => Step (Ok ()) fs [WriteLine name (playlist_line ix.2);
                                             Log (label ix)]
                  end) as Hbody.
  { intros ix. unfold body. rewrite bind_run. unfold file_write.
    by destruct (write E name (playlist_line ix.2)). }
  clearbody body. unfold for_each.
  induction l as [|ix l (IHd & IHh & IHe & IHw)]; cbn [foldM].
  - rewrite ret_run. cbn [result disk events].
    split; [done|]. split; [done|]. split; [constructor|]. done.
  - rewrite bind_run, Hbody.
    destruct (write E name (playlist_line ix.2)) as [e|]; cbn [result disk events].
    + split; [done|]. split; [done|]. split; [constructor|]. done.
    + rewrite disk_prepend, events_prepend, result_prepend.
      split; [done|]. split; [done|]. split.
      * constructor; [right; by eexists|]. constructor; [left; by eexists|]. done.
      * intros Hok. cbn [fmap list_fmap app]. rewrite <- IHw by done. reflexivity.
Qed.

(** The outer try block up to the run of the tool; when it gets that
    far, the playlist is there with a line for every file, in order. *)
Lemma build_and_run_split video_files output_path ffmpeg_path :
  ∃ pre : M (list N),
    (∀ fs, build_and_run E video_files output_path ffmpeg_path fs
           = (pre ≫= λ name, run_ffmpeg E (ffmpeg_command ffmpeg_path name output_path)) fs)
    ∧ (∀ fs, Forall playlist_event (events (pre fs)))
    ∧ (∀ fs, result (pre fs) ≠ Hang)
    ∧ (∀ fs name, result (pre fs) = Ok name →
         mktemp E = inr name
         ∧ disk (pre fs) = {[name]} ∪ fs
         ∧ written (events (pre fs)) = (λ p, (name, playlist_line p)) <$> video_files).
Proof.
  set (label := λ ix : nat * list N,
         [Txt "Added to list "; Int (Z.of_nat ix.1 + 1); Txt "/";
          Int (Z.of_nat (length video_files)); Txt ": "; Str (basename ix.2)]).
  exists (concat_file_path ← named_temporary_file E;
          with_file E concat_file_path
            (log_message [Txt "Creating concat file list..."];;
             for_each (λ ix : nat * list N,
                         file_write E concat_file_path (playlist_line ix.2);;
                         log_message (label ix))
                      (imap pair video_files);;
             log_message [Txt "Created concat file list with ";
                          Int (Z.of_nat (length video_files)); Txt " videos"]);;
          log_message [Txt "Building ffmpeg command..."];;
          log_message [Txt "FFmpeg command: ";
                       Str (join (py " ")
                              (ffmpeg_command ffmpeg_path concat_file_path output_path))];;
          log_message [Txt "Executing ffmpeg process... (this may take a while)"];;
          ret concat_file_path).
  assert (∀ name fs,
    let w := with_file E name
            (log_message [Txt "Creating concat file list..."];;
             for_each (λ ix : nat * list N,
                         file_write E name (playlist_line ix.2);;
                         log_message (label ix))
                      (imap pair video_files);;
             log_message [Txt "Created concat file list with ";
                          Int (Z.of_nat (length video_files)); Txt " videos"]) fs in
    disk w = fs ∧ result w ≠ Hang
    ∧ Forall (λ ev, (∃ m, ev = Log m) ∨ ∃ line, ev = WriteLine name line) (events w)
    ∧ (result w = Ok () →
       written (events w) = (λ p, (name, playlist_line p)) <$> video_files)) as Hwith.
  { intros name fs. cbv zeta. unfold with_file. rewrite try_finally_run, bind_log.
    rewrite result_prepend, disk_prepend, events_prepend, bind_run.
    destruct (playlist_loop name label (imap pair video_files) fs) as (Hd & Hh & He & Hw).
    cbv zeta in Hd, Hh, He, Hw.
    set (loop := for_each _ _ fs) in *. clearbody loop.
    destruct loop as [r d evs]. cbn [result disk events] in *. subst d.
    unfold file_close.
    assert ((λ ix : nat * list N, (name, playlist_line ix.2)) <$> imap pair video_files
            = (λ p, (name, playlist_line p)) <$> video_files) as Hmap.
    { rewrite fmap_imap. unfold compose. cbn [snd].
      clear. generalize 0%nat. induction video_files as [|p l IH]; intros n; [done|].
      cbn [imap fmap list_fmap]. f_equal. apply (IH (S n)). }
    destruct r as [[]|e|]; cbn [result disk events].
    - rewrite log_run, prepend_step. cbn [result disk events].
      destruct (close E name) as [e|]; cbn [result disk events].
      + split; [done|]. split; [done|]. split; [|done].
        rewrite app_nil_r. constructor; [left; by eexists|].
        apply Forall_app. split; [done|]. constructor; [left; by eexists|]. done.
      + split; [done|]. split; [done|]. split.
        * rewrite app_nil_r. constructor; [left; by eexists|].
          apply Forall_app. split; [done|]. constructor; [left; by eexists|]. done.
        * intros _. rewrite app_nil_r. change (?a :: ?l) with ([a] ++ l).
          rewrite !written_app, Hw, Hmap by done. unfold written. cbn [omap list_omap app].
          by rewrite app_nil_r.
    - destruct (close E name) as [e'|]; cbn [result disk events];
        (split; [done|]; split; [done|]; split; [|done]);
        rewrite app_nil_r; (constructor; [left; by eexists|done]).
    - done. }
  split; [|split; [|split]].
  - intros fs. unfold build_and_run. rewrite bind_assoc.
    apply bind_ext. intros c fs1. cbv zeta. rewrite bind_assoc.
    apply bind_ext. intros [] fs2. rewrite bind_assoc.
    apply bind_ext. intros [] fs3. rewrite bind_assoc.
    apply bind_ext. intros [] fs4. rewrite bind_assoc.
    apply bind_ext. intros [] fs5. by rewrite bind_ret.
  - assert (emits playlist_event
              (concat_file_path ← named_temporary_file E;
               with_file E concat_file_path
                 (log_message [Txt "Creating concat file list..."];;
                  for_each (λ ix : nat * list N,
                              file_write E concat_file_path (playlist_line ix.2);;
                              log_message (label ix))
                           (imap pair video_files);;
                  log_message [Txt "Created concat file list with ";
                               Int (Z.of_nat (length video_files)); Txt " videos"]);;
               log_message [Txt "Building ffmpeg command..."];;
               log_message [Txt "FFmpeg command: ";
                            Str (join (py " ")
                                   (ffmpeg_command ffmpeg_path concat_file_path output_path))];;
               log_message [Txt "Executing ffmpeg process... (this may take a while)"];;
               ret concat_file_path)) as Hem; [|exact Hem].
    repeat emits_step; done.
  - intros fs. pose proof (named_temporary_file_run fs) as Hn.
    destruct (mktemp E) as [e|name].
    { by rewrite (bind_raise _ _ _ _ _ _ Hn). }
    rewrite (bind_ok _ _ _ _ _ _ Hn), result_prepend.
    destruct (Hwith name ({[name]} ∪ fs)) as (Hd & Hh & _ & _). cbv zeta in Hd, Hh.
    set (w := with_file E name _) in *.
    destruct (w ({[name]} ∪ fs)) as [[[]|e|] d evs] eqn:Hw; cbn [result] in Hh; [| |done].
    + rewrite (bind_ok _ _ _ _ _ _ Hw). mrun. done.
    + by rewrite (bind_raise _ _ _ _ _ _ Hw).
  - intros fs name'. pose proof (named_temporary_file_run fs) as Hn.
    destruct (mktemp E) as [e|name].
    { by rewrite (bind_raise _ _ _ _ _ _ Hn). }
    rewrite (bind_ok _ _ _ _ _ _ Hn), result_prepend, disk_prepend, events_prepend.
    destruct (Hwith name ({[name]} ∪ fs)) as (Hd & Hh & _ & Hw). cbv zeta in Hd, Hh, Hw.
    set (w := with_file E name _) in *.
    destruct (w ({[name]} ∪ fs)) as [[[]|e|] d evs] eqn:Heq;
      cbn [result disk events] in Hd, Hh, Hw; [| |done].
    + rewrite (bind_ok _ _ _ _ _ _ Heq). mrun. cbn [result disk events]. intros [= <-].
      split; [done|]. split; [done|].
      change (?a :: ?l) with ([a] ++ l). rewrite !written_app, Hw by done.
      unfold written. cbn [omap list_omap app]. by rewrite !app_nil_r.
    + by rewrite (bind_raise _ _ _ _ _ _ Heq).
Qed.

(** How [merge_videos_with_ffmpeg] runs: either it gets as far as the
    run of the tool, with the playlist written, or it ends before with
    [False]. *)
Lemma merge_videos_with_ffmpeg_cases video_files output_path fs :
  let s := merge_videos_with_ffmpeg E video_files output_path fs in
  let start := Merging video_files output_path
               :: Log [Txt "Starting video merge process..."]
               :: events (check_ffmpeg_binary E fs) in
  (∃ name path mid after,
      mktemp E = inr name
      ∧ (path = bundled_ffmpeg E ∨ path = py "ffmpeg")
      ∧ events s = start ++ mid
                   ++ Spawn (ffmpeg_command path name output_path) None :: after
      ∧ Forall playlist_event mid
      ∧ written mid = (λ p, (name, playlist_line p)) <$> video_files
      ∧ Forall closing_event after
      ∧ (∀ m, failure_report (spawn E (ffmpeg_command path name output_path)) = Some m →
           Log m ∈ after)
      ∧ result s = exit_outcome (spawn E (ffmpeg_command path name output_path)))
  ∨ (∃ rest, events s = start ++ rest
             ∧ Forall (λ ev, playlist_event ev ∨ closing_event ev) rest
             ∧ result s = Ok false).
Proof.
  intros s start. subst s start.
  destruct (merge_videos_with_ffmpeg_run E video_files output_path fs)
    as (avail & status & path & d & evs & Hc & ->).
  destruct (check_ffmpeg_binary_run E fs) as (status' & d' & Hc').
  cbv zeta in Hc'. rewrite Hc in Hc'. injection Hc' as Hans _ Hevs.
  rewrite Hc. cbv zeta. cbn [events].
  destruct avail.
  2:{ right. exists [Log (Txt "FFmpeg check failed: " :: status)].
      split; [by rewrite <- !app_comm_cons|]. split; [|done].
      repeat constructor. }
  assert (∃ p, path = Some p ∧ (p = bundled_ffmpeg E ∨ p = py "ffmpeg")) as (p & -> & Hp).
  { destruct (_ && _); [|destruct (passes _)]; simplify_eq; eauto. }
  clear Hans Hevs Hc. change (default [] (Some p)) with p.
  assert (emits closing_event (cleanup E (match mktemp E with
                                          | inr name => Some name
                                          | inl _ => None
                                          end))) as Hcl.
  { unfold cleanup. repeat emits_step; done. }
  assert (∀ e, emits (λ ev, playlist_event ev ∧ closing_event ev)
                 (report_unexpected E p e)) as Hrep.
  { intros e. unfold report_unexpected. repeat emits_step; done. }
  unfold try_merge. rewrite try_finally_run, try_except_run.
  destruct (build_and_run_split video_files output_path p) as (pre & Hsplit & Hpre & Hnh & Hok).
  rewrite Hsplit, bind_run.
  specialize (Hpre d). specialize (Hnh d). specialize (Hok d).
  specialize (Hcl). 
  destruct (pre d) as [[name|e|] dp evp]; cbn [result disk events] in *; [| |done].
  - destruct (Hok name eq_refl) as (Hname & -> & Hw).
    destruct (run_ffmpeg_run (ffmpeg_command p name output_path) ({[name]} ∪ d))
      as (logs & Hlogs & Hfail & ->).
    rewrite prepend_step. cbn [result disk events].
    left. exists name, p, (Log [Txt "Using FFmpeg at: "; Str p] :: evp).
    assert (Forall closing_event logs) as Hlogs'.
    { eapply Forall_impl; [exact Hlogs|]. by intros ev (m & ->). }
    destruct (exit_outcome _) eqn:Hout.
    + exists (logs ++ events (cleanup E (match mktemp E with
                                         | inr name => Some name
                                         | inl _ => None
                                         end)
                                (match spawn E (ffmpeg_command p name output_path) with
                                 | Fails _ => {[name]} ∪ d
                                 | Runs _ _ _ _ effect => effect ({[name]} ∪ d)
                                 end))).
      cbn [result disk events]. rewrite prepend_step. cbn [result disk events].
      split; [done|]. split; [done|].
      split. { rewrite <- !app_comm_cons, <- !(assoc_L (++)). reflexivity. }
      split; [by constructor|]. split.
      { change (?a :: ?l) with ([a] ++ l). by rewrite written_app. }
      split; [apply Forall_app; split; [done|apply Hcl]|].
      split.
      { intros m Hm. apply elem_of_app. left. rewrite (Hfail m Hm).
        apply list_elem_of_here. }
      by rewrite (proj1 (cleanup_run _ _ _)).
    + exfalso. unfold exit_outcome in Hout.
      by destruct (spawn E _) as [?|[?|] ? ? ? ?].
    + exists logs. cbn [result disk events]. rewrite prepend_step.
      cbn [result disk events]. split; [done|]. split; [done|].
      split. { rewrite <- !app_comm_cons, <- !(assoc_L (++)). reflexivity. }
      split; [by constructor|]. split.
      { change (?a :: ?l) with ([a] ++ l). by rewrite written_app. }
      split; [done|]. split; [|done].
      intros m Hm. rewrite (Hfail m Hm). apply list_elem_of_here.
  - right.
    pose proof (report_unexpected_run E p e dp) as Hr.
    pose proof (Hrep e dp) as Hev.
    destruct (report_unexpected E p e dp) as [r dr evr]. cbn [result events] in Hr, Hev.
    subst r. repeat (progress (rewrite ?prepend_step; cbn [result disk events])).
    eexists. split.
    { rewrite <- !app_comm_cons, <- !(assoc_L (++)). reflexivity. }
    split; [|by rewrite (proj1 (cleanup_run _ _ _))].
    constructor; [by left|]. repeat (apply Forall_app; split).
    + eapply Forall_impl; [exact Hpre|]. by left.
    + eapply Forall_impl; [exact Hev|]. by intros ev [? _]; left.
    + eapply Forall_impl; [apply Hcl|]. by right.
Qed.

Lemma check_ffmpeg_binary_quiet fs :
  written (events (check_ffmpeg_binary E fs)) = []
  ∧ unbounded_runs (events (check_ffmpeg_binary E fs)) = []
  ∧ Forall (λ ev, ∃ exe, ev = Spawn [exe; py "-version"] (Some 10))
           (events (check_ffmpeg_binary E fs)).
Proof.
  destruct (check_ffmpeg_binary_run E fs) as (status & d & ->). cbv zeta. cbn [events].
  destruct (bool_decide _); cbn [andb]; [destruct (passes _)|];
    (split; [done|]; split; [done|]); repeat constructor; by eexists.
Qed.

Lemma written_playlist_event evs :
  Forall closing_event evs → written evs = [].
Proof.
  intros H. apply written_nil. eapply Forall_impl; [exact H|].
  intros ev Hev name line ->. done.
Qed.

Lemma unbounded_runs_bookkeeping evs :
  Forall (λ ev, playlist_event ev ∨ closing_event ev) evs → unbounded_runs evs = [].
Proof.
  intros H. apply unbounded_runs_nil. eapply Forall_impl; [exact H|].
  intros ev Hev argv ->. by destruct Hev.
Qed.

Lemma probes_bookkeeping evs :
  Forall (λ ev, playlist_event ev ∨ closing_event ev) evs → probes evs = [].
Proof.
  induction 1 as [|ev evs Hev _ IH]; [done|]. change (ev :: evs) with ([ev] ++ evs).
  unfold probes in *. rewrite omap_app, IH. by destruct ev, Hev.
Qed.

(** X3.  When [merge_videos_with_ffmpeg] has launched the merge command,
    its result is the exit code of the command: [True] for code 0,
    [False] for any other code and when the launch raises; and it does
    not return when the command never exits.  It returns [True] only
    after a command that exited with code 0. *)
Theorem merge_result_is_exit_code video_files output_path fs :
  let s := merge_videos_with_ffmpeg E video_files output_path fs in
  (∀ argv, Spawn argv None ∈ events s → result s = exit_outcome (spawn E argv))
  ∧ (result s = Ok true →
     ∃ argv d out err effect,
       Spawn argv None ∈ events s ∧ spawn E argv = Runs (Some d) 0 out err effect).
Proof.
  intros s. subst s.
  destruct (check_ffmpeg_binary_quiet fs) as (_ & Hcu & _).
  destruct (merge_videos_with_ffmpeg_cases video_files output_path fs)
    as [(name & path & mid & after & Hname & Hpath & Hev & Hmid & Hw & Hafter & Hrep & Hres)
       |(rest & Hev & Hrest & Hres)]; cbv zeta in Hev, Hres.
  - assert (unbounded_runs (events (merge_videos_with_ffmpeg E video_files output_path fs))
            = [ffmpeg_command path name output_path]) as Hruns.
    { rewrite Hev. uncons.
      rewrite !unbounded_runs_app, Hcu.
      rewrite (unbounded_runs_bookkeeping mid)
        by (eapply Forall_impl; [exact Hmid|]; by left).
      rewrite (unbounded_runs_bookkeeping after)
        by (eapply Forall_impl; [exact Hafter|]; by right).
      reflexivity. }
    split.
    + intros argv Hin. apply unbounded_runs_elem in Hin. rewrite Hruns in Hin.
      apply list_elem_of_singleton in Hin as ->. exact Hres.
    + intros Hok. rewrite Hok in Hres. unfold exit_outcome in Hres.
      destruct (spawn E (ffmpeg_command path name output_path))
        as [e|[d|] rc out err eff] eqn:Hsp; [done| |done].
      injection Hres as Hrc. symmetry in Hrc. apply bool_decide_eq_true_1 in Hrc as ->.
      exists (ffmpeg_command path name output_path), d, out, err, eff.
      split; [|done]. apply unbounded_runs_elem. rewrite Hruns. by apply list_elem_of_singleton.
  - assert (unbounded_runs (events (merge_videos_with_ffmpeg E video_files output_path fs))
            = []) as Hruns.
    { rewrite Hev. uncons.
      by rewrite !unbounded_runs_app, Hcu, (unbounded_runs_bookkeeping rest). }
    split.
    + intros argv Hin. apply unbounded_runs_elem in Hin. rewrite Hruns in Hin.
      by apply elem_of_nil in Hin.
    + intros Hok. by rewrite Hok in Hres.
Qed.

(** The playlist and the command at the launch. *)
Lemma playlist_at_launch video_files output_path fs argv :
  let s := merge_videos_with_ffmpeg E video_files output_path fs in
  Spawn argv None ∈ events s →
  ∃ name path,
    mktemp E = inr name
    ∧ (path = bundled_ffmpeg E ∨ path = py "ffmpeg")
    ∧ argv = [path; py "-f"; py "concat"; py "-safe"; py "0"; py "-i"; name;
              py "-c"; py "copy"; py "-avoid_negative_ts"; py "make_zero"; py "-y";
              output_path]
    ∧ written (events s) = (λ p, (name, playlist_line p)) <$> video_files.
Proof.
  intros s Hin. subst s.
  destruct (check_ffmpeg_binary_quiet fs) as (Hcw & Hcu & _).
  destruct (merge_videos_with_ffmpeg_cases video_files output_path fs)
    as [(name & path & mid & after & Hname & Hpath & Hev & Hmid & Hw & Hafter & Hrep & Hres)
       |(rest & Hev & Hrest & Hres)]; cbv zeta in Hev, Hres.
  - exists name, path. split; [done|]. split; [done|].
    apply unbounded_runs_elem in Hin. rewrite Hev in Hin |- *.
    revert Hin. uncons.
    rewrite !unbounded_runs_app, !written_app, Hcu, Hcw, Hw.
    rewrite (unbounded_runs_bookkeeping mid)
      by (eapply Forall_impl; [exact Hmid|]; by left).
    rewrite (unbounded_runs_bookkeeping after)
      by (eapply Forall_impl; [exact Hafter|]; by right).
    rewrite (written_playlist_event after) by done.
    cbn [unbounded_runs written omap list_omap app]. rewrite app_nil_r.
    intros Hin. apply list_elem_of_singleton in Hin as ->. done.
  - exfalso. apply unbounded_runs_elem in Hin. rewrite Hev in Hin.
    revert Hin. uncons.
    rewrite !unbounded_runs_app, Hcu, (unbounded_runs_bookkeeping rest) by done.
    cbn [unbounded_runs omap list_omap app]. apply elem_of_nil.
Qed.

(** X4.  When [merge_videos_with_ffmpeg] launches the merge command, the
    playlist is complete: the lines written are exactly one line
    [file '<escaped path>'] for every file, in the order of the list,
    all to the temporary file that the command is given, and the
    command is the [concat] command with [-c copy] on that file and the
    requested output. *)
Theorem playlist_complete_at_launch video_files output_path fs argv :
  let s := merge_videos_with_ffmpeg E video_files output_path fs in
  Spawn argv None ∈ events s →
  ∃ name path,
    mktemp E = inr name
    ∧ (path = bundled_ffmpeg E ∨ path = py "ffmpeg")
    ∧ argv = [path; py "-f"; py "concat"; py "-safe"; py "0"; py "-i"; name;
              py "-c"; py "copy"; py "-avoid_negative_ts"; py "make_zero"; py "-y";
              output_path]
    ∧ written (events s) = (λ p, (name, playlist_line p)) <$> video_files.
Proof. apply playlist_at_launch. Qed.

(** X5.  A call of [merge_videos_with_ffmpeg] runs the merge command at
    most once; everything else it runs is a [-version] probe with a
    timeout of ten seconds. *)
Theorem tool_runs_at_most_once video_files output_path fs :
  let s := merge_videos_with_ffmpeg E video_files output_path fs in
  (length (unbounded_runs (events s)) ≤ 1)%nat
  ∧ ∀ argv t, Spawn argv (Some t) ∈ events s → t = 10 ∧ ∃ exe, argv = [exe; py "-version"].
Proof.
  intros s. subst s.
  destruct (check_ffmpeg_binary_quiet fs) as (_ & Hcu & Hprobe).
  assert (∀ evs argv t, Spawn argv (Some t) ∈ evs →
            Forall (λ ev, playlist_event ev ∨ closing_event ev) evs → False) as Hno.
  { intros evs argv t Hin Hall. rewrite Forall_forall in Hall.
    by destruct (Hall _ Hin). }
  assert (∀ argv t, Spawn argv (Some t) ∈ events (check_ffmpeg_binary E fs) →
            t = 10 ∧ ∃ exe, argv = [exe; py "-version"]) as Hchk.
  { intros argv t Hin. rewrite Forall_forall in Hprobe.
    destruct (Hprobe _ Hin) as (exe & [= -> ->]). split; [done|]. by exists exe. }
  destruct (merge_videos_with_ffmpeg_cases video_files output_path fs)
    as [(name & path & mid & after & Hname & Hpath & Hev & Hmid & Hw & Hafter & Hrep & Hres)
       |(rest & Hev & Hrest & Hres)]; cbv zeta in Hev, Hres; rewrite Hev.
  - split.
    + uncons.
      rewrite !unbounded_runs_app, Hcu.
      rewrite (unbounded_runs_bookkeeping mid)
        by (eapply Forall_impl; [exact Hmid|]; by left).
      rewrite (unbounded_runs_bookkeeping after)
        by (eapply Forall_impl; [exact Hafter|]; by right).
      cbn. lia.
    + intros argv t Hin.
      repeat (apply elem_of_cons in Hin as [Hin|Hin]; [discriminate Hin|]).
      apply elem_of_app in Hin as [Hin|Hin]; [by apply Hchk|].
      apply elem_of_app in Hin as [Hin|Hin].
      { exfalso. eapply Hno; [exact Hin|]. eapply Forall_impl; [exact Hmid|]. by left. }
      apply elem_of_cons in Hin as [Hin|Hin]; [discriminate Hin|].
      exfalso. eapply Hno; [exact Hin|]. eapply Forall_impl; [exact Hafter|]. by right.
  - split.
    + uncons.
      rewrite !unbounded_runs_app, Hcu, (unbounded_runs_bookkeeping rest) by done.
      cbn. lia.
    + intros argv t Hin.
      repeat (apply elem_of_cons in Hin as [Hin|Hin]; [discriminate Hin|]).
      apply elem_of_app in Hin as [Hin|Hin]; [by apply Hchk|].
      exfalso. by eapply Hno.
Qed.

(** X6.  Without a usable FFmpeg, [merge_videos_with_ffmpeg] returns
    [False] at once: the failure of the check is the last line of the
    log, and no temporary file is created, written or removed and no
    merge command is run. *)
Theorem no_playlist_without_ffmpeg video_files output_path fs status path :
  result (check_ffmpeg_binary E fs) = Ok (false, status, path) →
  let s := merge_videos_with_ffmpeg E video_files output_path fs in
  result s = Ok false
  ∧ disk s = disk (check_ffmpeg_binary E fs)
  ∧ last (events s) = Some (Log (Txt "FFmpeg check failed: " :: status))
  ∧ ∀ ev, ev ∈ events s →
      match ev with
      | CreateTemp _ | WriteLine _ _ | Unlink _ | Spawn _ None => False
      | _ => True
      end.
Proof.
  intros Hfail s. subst s.
  destruct (check_ffmpeg_binary_quiet fs) as (_ & _ & Hprobe).
  destruct (merge_videos_with_ffmpeg_run E video_files output_path fs)
    as (avail & status' & path' & d & evs & Hc & ->).
  rewrite Hc in Hfail, Hprobe |- *. cbn [result disk events] in Hfail, Hprobe |- *.
  injection Hfail as -> -> ->. cbv zeta. cbn [result disk events].
  split; [done|]. split; [done|]. split.
  - apply last_snoc.
  - intros ev Hin. apply elem_of_app in Hin as [Hin|Hin].
    + repeat (apply elem_of_cons in Hin as [->|Hin]; [done|]).
      rewrite Forall_forall in Hprobe. by destruct (Hprobe _ Hin) as (exe & ->).
    + by apply list_elem_of_singleton in Hin as ->.
Qed.

(** X7.  When the temporary file cannot be created,
    [merge_videos_with_ffmpeg] returns [False] with the error and its
    type on the log; the finally block has no file to remove, and the
    merge command is not run. *)
Theorem temp_failure_reported video_files output_path fs e status path :
  mktemp E = inl e →
  result (check_ffmpeg_binary E fs) = Ok (true, status, path) →
  let s := merge_videos_with_ffmpeg E video_files output_path fs in
  result s = Ok false
  ∧ disk s = disk (check_ffmpeg_binary E fs)
  ∧ (Log [Txt "Unexpected error during merge: "; Str (exn_text e)]) ∈ events s
  ∧ (Log [Txt "Error type: "; Txt (exn_name e)]) ∈ events s
  ∧ ∀ ev, ev ∈ events s →
      match ev with
      | CreateTemp _ | WriteLine _ _ | Unlink _ | Spawn _ None => False
      | _ => True
      end.
Proof.
  intros Htemp Hgood s. subst s.
  destruct (check_ffmpeg_binary_quiet fs) as (_ & _ & Hprobe).
  destruct (merge_videos_with_ffmpeg_run E video_files output_path fs)
    as (avail & status' & path' & d & evs & Hc & ->).
  rewrite Hc in Hgood, Hprobe |- *. cbn [result disk events] in Hgood, Hprobe |- *.
  injection Hgood as -> -> ->. cbv zeta.
  assert (build_and_run E video_files output_path (default [] path) d
          = Step (Raise e) d []) as Hb.
  { unfold build_and_run. apply bind_raise. by rewrite named_temporary_file_run, Htemp. }
  assert (∃ line, report_unexpected E (default [] path) e d
          = Step (Ok false) d
              [Log [Txt "Unexpected error during merge: "; Str (exn_text e)];
               Log [Txt "Error type: "; Txt (exn_name e)];
               Log [Txt "Debugging information:"];
               Log [Txt "  - Using FFmpeg path: "; Str (default [] path)];
               Log [Txt "  - Bundled FFmpeg path: "; Str (bundled_ffmpeg E)];
               Log line]) as (line & Hr).
  { unfold report_unexpected. mrun. by eexists. }
  assert (cleanup E None d = Step (Ok ()) d []) as Hcl.
  { unfold cleanup. by rewrite (try_except_ok _ _ _ _ _ _ (ret_run () d)). }
  unfold try_merge. rewrite Htemp.
  pose proof (try_except_raise _ (report_unexpected E (default [] path)) _ _ _ _ Hb) as Hte.
  rewrite prepend_nil, Hr in Hte.
  rewrite (try_finally_ok _ _ _ _ _ _ _ _ Hte Hcl).
  rewrite prepend_step. cbn [result disk events app].
  split; [done|]. split; [done|].
  split.
  { do 2 apply list_elem_of_further. apply elem_of_app. right. apply list_elem_of_here. }
  split.
  { do 2 apply list_elem_of_further. apply elem_of_app. right.
    apply list_elem_of_further, list_elem_of_here. }
  intros ev Hin.
  repeat (apply elem_of_cons in Hin as [->|Hin]; [done|]).
  apply elem_of_app in Hin as [Hin|Hin].
  - apply elem_of_app in Hin as [Hin|Hin].
    + rewrite Forall_forall in Hprobe. by destruct (Hprobe _ Hin) as (exe & ->).
    + by apply list_elem_of_singleton in Hin as ->.
  - repeat (apply elem_of_cons in Hin as [->|Hin]; [done|]). by apply elem_of_nil in Hin.
Qed.

(** X25.  When the merge command was launched and failed, the reason is
    on the log: after a non-zero exit code the code and whatever the
    command wrote to its standard output and standard error, after a
    failed launch the text of the exception; and the result is
    [False]. *)
Theorem failure_is_reported video_files output_path fs argv m :
  let s := merge_videos_with_ffmpeg E video_files output_path fs in
  Spawn argv None ∈ events s →
  failure_report (spawn E argv) = Some m →
  result s = Ok false ∧ Log m ∈ events s.
Proof.
  intros s Hin Hm. subst s.
  destruct (check_ffmpeg_binary_quiet fs) as (_ & Hcu & _).
  destruct (merge_videos_with_ffmpeg_cases video_files output_path fs)
    as [(name & path & mid & after & Hname & Hpath & Hev & Hmid & Hw & Hafter & Hrep & Hres)
       |(rest & Hev & Hrest & Hres)]; cbv zeta in Hev, Hres.
  - assert (argv = ffmpeg_command path name output_path) as ->.
    { apply unbounded_runs_elem in Hin. rewrite Hev in Hin. revert Hin. uncons.
      rewrite !unbounded_runs_app, Hcu.
      rewrite (unbounded_runs_bookkeeping mid)
        by (eapply Forall_impl; [exact Hmid|]; by left).
      rewrite (unbounded_runs_bookkeeping after)
        by (eapply Forall_impl; [exact Hafter|]; by right).
      cbn [unbounded_runs omap list_omap app].
      intros Hin. by apply list_elem_of_singleton in Hin. }
    split.
    + rewrite Hres. unfold exit_outcome, failure_report in *.
      destruct (spawn E _) as [e|[d|] rc out err eff]; [done| |done].
      destruct (Z.eqb_spec rc 0) as [->|Hrc]; [done|].
      by rewrite bool_decide_eq_false_2.
    + rewrite Hev. apply elem_of_app. right. apply elem_of_app. right.
      apply list_elem_of_further. by apply Hrep.
  - exfalso. apply unbounded_runs_elem in Hin. rewrite Hev in Hin.
    revert Hin. uncons.
    rewrite !unbounded_runs_app, Hcu, (unbounded_runs_bookkeeping rest) by done.
    cbn [unbounded_runs omap list_omap app]. apply elem_of_nil.
Qed.

End Playlist.

(** * Parsing, discovery and selection *)

Section Parsing.
Context {RT : Runtime}.

(** A timestamp that the loop body reads is the one that the first token
    of the name spells. *)
Lemma timestamp_of_inv filename x :
  timestamp_of filename = Some x →
  ∃ pre ds d t post,
    first_token filename pre ds d t post ∧ x = stamp d t ∧ valid x = true.
Proof.
  unfold timestamp_of.
  destruct (re_search timestamp_pattern filename) as [[[matched groups] post]|] eqn:Hs;
    [|done].
  apply re_search_Some in Hs as (i & Hi & Hm & Hnone).
  apply re_match_timestamp_inv in Hm as (ds & d & t & Hdrop & [= -> ->] & Htok).
  cbn [snd] in Hdrop.
  change (group (token ds d t, [d; t], post) 1) with d.
  change (group (token ds d t, [d; t], post) 2) with t.
  destruct (strptime (d ++ py "_" ++ t)) as [y| |] eqn:Hp; [|done..].
  intros [= ->]. destruct Htok as (Hds & Hdds & Hd & Hld & Ht & Hlt).
  destruct (strptime_Ok_inv d t x Hd Hld Ht Hlt Hp) as [-> Hv].
  exists (take i filename), ds, d, t, post.
  split; [|done]. split; [|split; [done|]].
  - rewrite <- Hdrop. by rewrite take_drop.
  - intros j Hj. rewrite length_take in Hj.
    apply re_match_None_token, Hnone. lia.
Qed.

Lemma parsed_paths_filter video_files :
  path_of <$> parsed video_files = filter parsable video_files.
Proof.
  induction video_files as [|p l IH]; [done|].
  rewrite parsed_cons, fmap_app, IH, filter_cons. unfold parsed at 1. cbn [omap list_omap].
  destruct (decide (parsable p)) as [[x Hx]|Hno].
  - by rewrite Hx.
  - destruct (timestamp_of (basename p)) as [x|] eqn:Hx; [|done].
    destruct Hno. by exists x.
Qed.

Lemma sorted_paths_chronological video_files :
  chronological (path_of <$> sorted_entries video_files).
Proof.
  exists (stamp_of <$> sorted_entries video_files). split; [|apply sorted_entries_sorted].
  apply Forall2_fmap, Forall_Forall2_diag, Forall_forall. intros e He.
  by apply elem_of_sorted_entries, elem_of_parsed in He as (_ & ? & _).
Qed.

Lemma sorted_paths_perm video_files :
  path_of <$> sorted_entries video_files ≡ₚ filter parsable video_files.
Proof.
  rewrite <- parsed_paths_filter. apply fmap_Permutation.
  apply list_sort_perm.
Qed.

(** X8.  A file that [parse_and_sort_files] returns is one of the files
    it was given, and its timestamp is the date and time that the first
    token [RecM0<digits>_<8 digits>_<6 digits>] of its name spells, which
    exist in the calendar. *)
Theorem kept_files_have_first_token video_files fs file_path :
  ∃ out, result (parse_and_sort_files video_files fs) = Ok out
    ∧ (file_path ∈ out →
       file_path ∈ video_files
       ∧ ∃ pre ds d t post,
           first_token (basename file_path) pre ds d t post
           ∧ valid (stamp d t) = true
           ∧ timestamp_of (basename file_path) = Some (stamp d t)).
Proof.
  rewrite parse_and_sort_files_run. eexists. split; [reflexivity|].
  intros Hin. apply paths_sorted_entries in Hin as [Hin [x Hx]]. split; [done|].
  destruct (timestamp_of_inv _ _ Hx) as (pre & ds & d & t & post & Hft & -> & Hv).
  by exists pre, ds, d, t, post.
Qed.

(** X9.  [parse_and_sort_files] returns the files with a timestamp, each
    as often as it was given, and no other file: its result is a
    permutation of the files of the input that have one. *)
Theorem sorter_keeps_parsable_files video_files fs :
  ∃ out, result (parse_and_sort_files video_files fs) = Ok out
    ∧ out ≡ₚ filter parsable video_files
    ∧ (length out ≤ length video_files)%nat.
Proof.
  rewrite parse_and_sort_files_run. eexists. split; [reflexivity|].
  split; [apply sorted_paths_perm|].
  rewrite sorted_paths_perm. apply length_filter.
Qed.

(** X10.  [parse_and_sort_files] only reads names and writes the log: it
    leaves the file system as it is, and the log gets one line for every
    file of the input, one line of summary and one line for every file
    of the result. *)
Theorem parse_only_logs video_files fs :
  let s := parse_and_sort_files video_files fs in
  ∃ out, result s = Ok out
    ∧ disk s = fs
    ∧ Forall (λ ev, ∃ m, ev = Log m) (events s)
    ∧ length (events s) = (length video_files + 1 + length out)%nat.
Proof.
  cbv zeta. rewrite parse_and_sort_files_run. cbn [result disk events].
  eexists. split; [reflexivity|]. split; [done|].
  assert (∀ p, ∃ m, parse_log p = [Log m]) as Hone.
  { intros p. unfold parse_log. cbv zeta.
    destruct (re_search _ _); [destruct (strptime _)|]; by eexists. }
  split.
  - apply Forall_app. split.
    + apply Forall_forall. intros ev Hev.
      apply list_elem_of_bind in Hev as (p & Hev & _).
      destruct (Hone p) as (m & Hm). rewrite Hm in Hev.
      apply list_elem_of_singleton in Hev as ->. by eexists.
    + unfold sort_log. destruct (sorted_entries video_files); [repeat constructor; by eexists|].
      constructor; [by eexists|]. apply Forall_fmap, Forall_forall. intros ix _. by eexists.
  - rewrite length_app, length_fmap.
    assert (length (video_files ≫= parse_log) = length video_files) as ->.
    { induction video_files as [|p l IH]; [done|].
      cbn [mbind list_bind]. destruct (Hone p) as (m & ->). cbn [app length]. by rewrite IH. }
    assert (∀ es, length (sort_log es) = S (length es)) as ->.
    { intros [|e es]; [done|]. unfold sort_log.
      cbn [length]. by rewrite length_fmap, length_imap. }
    lia.
Qed.

End Parsing.

Section Discovery2.
Context {RT : Runtime} (E : Env).

(** What the loop over the six patterns collects. *)
Lemma collect_spec input_folder fs :
  ∃ video_files : gset (list N),
    collect E input_folder fs = Step (Ok video_files) fs []
    ∧ ∀ p, p ∈ video_files ↔ globbed E fs input_folder p.
Proof.
  unfold collect, globbed.
  assert (∀ l (acc : gset (list N)),
    ∃ video_files : gset (list N),
      foldM (λ (video_files : gset (list N)) ext,
               let pattern := path_join input_folder (py "RecM0*" ++ ext) in
               files ← glob_glob E pattern;
               ret (video_files ∪ list_to_set files)) acc l fs
      = Step (Ok video_files) fs []
      ∧ ∀ p, p ∈ video_files ↔
             p ∈ acc ∨ ∃ ext, ext ∈ l
                        ∧ p ∈ glob E fs (path_join input_folder (py "RecM0*" ++ ext))) as H.
  { induction l as [|ext l IH]; intros acc; cbn [foldM].
    - exists acc. split; [done|]. intros p. split; [by left|].
      intros [?|(ext & Hext & _)]; [done|]. by apply elem_of_nil in Hext.
    - cbv zeta.
      rewrite (bind_ok _ _ _ _ _ _
                 (eq_refl : (glob_glob E (path_join input_folder (py "RecM0*" ++ ext))
                             ≫= λ files, ret (acc ∪ list_to_set files)) fs
                            = Step (Ok (acc ∪ list_to_set
                                         (glob E fs (path_join input_folder
                                                       (py "RecM0*" ++ ext))))) fs [])).
      rewrite prepend_nil.
      destruct (IH (acc ∪ list_to_set (glob E fs (path_join input_folder (py "RecM0*" ++ ext)))))
        as (s & Hs & Hin).
      exists s. split; [done|]. intros p. rewrite Hin, elem_of_union, elem_of_list_to_set.
      split.
      + intros [[?|?]|(ext' & Hext & ?)]; [by left| |].
        * right. exists ext. split; [apply list_elem_of_here|done].
        * right. exists ext'. split; [by apply list_elem_of_further|done].
      + intros [?|(ext' & Hext & ?)]; [by left; left|].
        apply elem_of_cons in Hext as [->|Hext]; [by left; right|].
        right. by exists ext'. }
  destruct (H video_extensions ∅) as (s & Hs & Hin). exists s. split; [done|].
  intros p. rewrite Hin. split; [|by right]. intros [Hp|?]; [|done].
  by apply elem_of_empty in Hp.
Qed.

(** X11.  [find_video_files_in_folder] returns exactly the files that one
    of its six patterns matches and whose name has a timestamp, in the
    order of their timestamps; it leaves the file system as it is. *)
Theorem discovery_finds_parsable_matches input_folder fs :
  let s := find_video_files_in_folder E input_folder fs in
  ∃ out, result s = Ok out
    ∧ disk s = fs
    ∧ (∀ p, p ∈ out ↔ globbed E fs input_folder p ∧ parsable p)
    ∧ chronological out.
Proof.
  cbv zeta. destruct (find_video_files_in_folder_run E input_folder fs)
    as (s & evs & Hc & ->).
  destruct (collect_spec input_folder fs) as (s' & Hc' & Hin).
  rewrite Hc in Hc'. injection Hc' as <-.
  eexists. split; [reflexivity|]. split; [done|]. split.
  - intros p. rewrite paths_sorted_entries, elem_of_elements, Hin. done.
  - apply sorted_paths_chronological.
Qed.

(** X26.  When [find_video_files_in_folder] returns no file, the last
    line of the log tells why: no file matched the patterns, or files
    matched but none of them has a timestamp. *)
Theorem empty_discovery_is_explained input_folder fs :
  let s := find_video_files_in_folder E input_folder fs in
  result s = Ok [] →
  (∀ p, ¬ globbed E fs input_folder p)
  ∧ events s
    = [Log [Txt "Searching for video files in folder..."];
       Log [Txt "No video files starting with 'RecM0' found in folder!"]]
  ∨ (∃ p, globbed E fs input_folder p)
    ∧ (∀ p, globbed E fs input_folder p → ¬ parsable p)
    ∧ last (events s) = Some (Log [Txt "No files with valid timestamp format found!"]).
Proof.
  cbv zeta. destruct (collect_spec input_folder fs) as (S & Hc & Hin).
  unfold find_video_files_in_folder. rewrite bind_log, (bind_ok _ _ _ _ _ _ Hc).
  destruct (elements S) as [|p l] eqn:Hel.
  - intros _. left. split.
    + intros p Hp. apply Hin, elem_of_elements in Hp. rewrite Hel in Hp.
      by apply elem_of_nil in Hp.
    + by mrun.
  - rewrite bind_log, parse_and_sort_files_run. mrun. cbn [result events].
    intros [= Hout]. apply fmap_nil_inv in Hout. right. split; [|split].
    + exists p. apply Hin, elem_of_elements. rewrite Hel. apply list_elem_of_here.
    + intros q Hq Hp.
      assert (q ∈ path_of <$> sorted_entries (p :: l)) as Hq'.
      { apply paths_sorted_entries. split; [|done].
        rewrite <- Hel. by apply elem_of_elements, Hin. }
      rewrite Hout in Hq'. by apply elem_of_nil in Hq'.
    + rewrite Hout. cbn [sort_log]. rewrite !app_comm_cons. apply last_snoc.
Qed.

End Discovery2.

Section Selection.
Context {RT : Runtime}.

(** How [browse_input_files] runs on an answer with files. *)
Lemma browse_input_files_run app files fs :
  files ≠ [] →
  let rejected :=
    basename <$> filter (λ file_path, startswith (basename file_path) (py "RecM0") ≠ true)
                        files in
  browse_input_files app files fs
  = Step (Ok (Gui.set_selected_files app (with_prefix files))) fs
         ((match with_prefix files with
           | [] => [Log [Txt "No valid files selected!"]]
           | _ :: _ =>
               Log [Txt "Selected "; Int (Z.of_nat (length (with_prefix files)));
                    Txt " valid video files"]
               :: ((λ ix : nat * list N,
                      Log [Txt "  "; Int (Z.of_nat ix.1 + 1); Txt ". "; Str (basename ix.2)])
                     <$> imap pair (with_prefix files))
           end)
          ++ (match rejected with
              | [] => []
              | _ :: _ =>
                  Log [Txt "Ignored "; Int (Z.of_nat (length rejected));
                       Txt " files (don't start with 'RecM0'):"]
                  :: ((λ filename, Log [Txt "     "; Str filename]) <$> rejected)
              end)).
Proof.
  intros Hne rejected. unfold browse_input_files.
  destruct files as [|f files]; [done|]. clear Hne.
  fold (with_prefix (f :: files)). fold rejected. cbv zeta.
  generalize (with_prefix (f :: files)). generalize rejected. clear.
  intros rejected valid.
  assert (∀ (k : unit → M App),
            (match rejected with
             | [] => ret ()
             | _ :: _ =>
                 log_message [Txt "Ignored "; Int (Z.of_nat (length rejected));
                              Txt " files (don't start with 'RecM0'):"];;
                 for_each (λ filename, log_message [Txt "     "; Str filename]) rejected
             end ≫= k) fs
            = prepend (match rejected with
                       | [] => []
                       | _ :: _ =>
                           Log [Txt "Ignored "; Int (Z.of_nat (length rejected));
                                Txt " files (don't start with 'RecM0'):"]
                           :: ((λ filename, Log [Txt "     "; Str filename]) <$> rejected)
                       end) (k () fs)) as Hrej.
  { intros k. destruct rejected as [|r rejected].
    - by rewrite bind_ret, prepend_nil.
    - rewrite bind_assoc, bind_log.
      rewrite (bind_ok _ _ _ _ _ _
                 (for_each_log (λ filename, [Txt "     "; Str filename]) (r :: rejected) fs)).
      by rewrite prepend_prepend. }
  destruct valid as [|v valid].
  - rewrite bind_log, Hrej, ret_run, !prepend_step. by rewrite app_nil_r.
  - rewrite bind_assoc, bind_log.
    rewrite (bind_ok _ _ _ _ _ _
               (for_each_log (λ ix : nat * list N,
                    [Txt "  "; Int (Z.of_nat ix.1 + 1); Txt ". "; Str (basename ix.2)])
                  (imap pair (v :: valid)) fs)).
    rewrite Hrej, ret_run, !prepend_step. rewrite app_nil_r.
    reflexivity.
Qed.

(** X12.  [browse_input_files]: a cancelled dialog changes nothing and
    logs nothing.  An answer with files replaces the selection: the new
    selection is made of the files of the answer whose name starts with
    [RecM0], in the order of the answer, and every other file of the
    answer is named on the log as ignored.  The mode and the folders
    stay as they are. *)
Theorem browse_input_files_outcome app files fs :
  let s := browse_input_files app files fs in
  ∃ app', result s = Ok app'
    ∧ disk s = fs
    ∧ selection_mode app' = selection_mode app
    ∧ input_folder app' = input_folder app
    ∧ output_folder app' = output_folder app
    ∧ (files = [] → app' = app ∧ events s = [])
    ∧ (files ≠ [] →
       (selected_files app' `sublist_of` files)
       ∧ ∀ p, p ∈ files →
           if startswith (basename p) (py "RecM0")
           then p ∈ selected_files app'
           else (p ∉ selected_files app')
                ∧ (Log [Txt "     "; Str (basename p)]) ∈ events s).
Proof.
  cbv zeta. destruct files as [|f files].
  - exists app. by repeat split.
  - rewrite browse_input_files_run by done. cbn [result disk events].
    eexists. split; [reflexivity|]. do 4 (split; [done|]). split; [done|].
    intros _. cbn [selected_files Gui.set_selected_files]. split; [apply sublist_filter|].
    intros p Hp. destruct (startswith (basename p) (py "RecM0")) eqn:Hs.
    + by apply list_elem_of_filter.
    + split.
      * intros Hin. apply list_elem_of_filter in Hin as [Hin _]. congruence.
      * apply elem_of_app. right.
        set (rejected := basename <$> filter _ (f :: files)).
        assert (basename p ∈ rejected) as Hin.
        { apply list_elem_of_fmap. exists p. split; [done|].
          apply list_elem_of_filter. split; [congruence|done]. }
        destruct rejected as [|r rejected]; [by apply elem_of_nil in Hin|].
        apply list_elem_of_further, list_elem_of_fmap. by exists (basename p).
Qed.

(** X13.  Files mode from the dialog to the merge list: of the files
    that the dialog returns, [find_video_files] hands on those whose
    name starts with [RecM0] and has a timestamp, each as often as it
    was chosen, in the order of their timestamps. *)
Theorem files_mode_pipeline (E : Env) app files input_source fs fs' :
  files ≠ [] →
  ∃ app' out,
    result (browse_input_files app files fs) = Ok app'
    ∧ (selection_mode app ≠ py "folder" →
       result (find_video_files E app' input_source fs') = Ok out)
    ∧ out ≡ₚ filter (λ p, parsable p ∧ startswith (basename p) (py "RecM0") = true) files
    ∧ chronological out.
Proof.
  intros Hne. rewrite browse_input_files_run by done. cbn [result].
  exists (Gui.set_selected_files app (with_prefix files)),
         (path_of <$> sorted_entries (with_prefix files)).
  split; [done|]. split; [|split].
  - intros Hmode. unfold find_video_files. cbn [selection_mode Gui.set_selected_files].
    rewrite bool_decide_eq_false_2 by done.
    by destruct (process_selected_files_run
                   (Gui.set_selected_files app (with_prefix files)) fs') as (evs & ->).
  - rewrite sorted_paths_perm. unfold with_prefix. by rewrite list_filter_filter.
  - apply sorted_paths_chronological.
Qed.

End Selection.

Section Escaping.
Context {RT : Runtime}.

(** X14.  The escaping of the playlist loses nothing: different paths
    have different escaped forms, so different files never get the same
    playlist line. *)
Theorem escape_path_injective p q :
  p ≠ q → escape_path p ≠ escape_path q.
Proof.
  intros Hne Heq. apply Hne. clear Hne. revert Heq.
  rewrite !escape_path_chars. revert q.
  induction p as [|c p IH]; intros [|c' q]; cbn [mbind list_bind].
  - done.
  - unfold escape_char. by repeat case_match.
  - unfold escape_char. by repeat case_match.
  - unfold escape_char at 1 3.
    destruct (N.eqb_spec c backslash) as [->|Hcb];
      destruct (N.eqb_spec c' backslash) as [->|Hcb'];
      [|destruct (N.eqb_spec c' quote) as [->|Hcq']
       |destruct (N.eqb_spec c quote) as [->|Hcq]
       |destruct (N.eqb_spec c quote) as [->|Hcq];
        destruct (N.eqb_spec c' quote) as [->|Hcq']];
      cbn [app]; intros Heq; simplify_eq; try (f_equal; by apply IH);
      try done.
Qed.

End Escaping.

(** * The merge job *)

Lemma try_finally_step {A} (m : M A) fin fs r d evs d' evs' :
  m fs = Step r d evs → r ≠ Hang → fin d = Step (Ok ()) d' evs' →
  try_finally m fin fs = Step r d' (evs ++ evs').
Proof.
  intros H Hr H'. rewrite try_finally_run, H. cbn [result disk events]. rewrite H'.
  by destruct r.
Qed.

Lemma try_finally_hang {A} (m : M A) fin fs d evs :
  m fs = Step Hang d evs → try_finally m fin fs = Step Hang d evs.
Proof. intros H. by rewrite try_finally_run, H. Qed.

(** Splits a statement about all events of a list into statements about
    its parts. *)
Ltac forall_events :=
  repeat first [ apply Forall_nil_2 | apply Forall_app_2 | apply Forall_cons_2 ].

Section Job.
Context {RT : Runtime} (E : Env).

(** In files mode [find_video_files] does not look at its argument. *)
Lemma find_video_files_source app src src' fs :
  selection_mode app ≠ py "folder" →
  find_video_files E app src fs = find_video_files E app src' fs.
Proof. intros H. unfold find_video_files. by rewrite !bool_decide_eq_false_2. Qed.

(** The executor does not raise. *)
Lemma merge_videos_with_ffmpeg_no_raise video_files output_path fs e :
  result (merge_videos_with_ffmpeg E video_files output_path fs) ≠ Raise e.
Proof.
  destruct (merge_videos_with_ffmpeg_cases E video_files output_path fs)
    as [(name & path & mid & after & _ & _ & _ & _ & _ & _ & _ & Hres)|(rest & _ & _ & Hres)];
    cbv zeta in Hres; rewrite Hres; [|done].
  unfold exit_outcome. by destruct (spawn E _) as [?|[?|] ? ? ? ?].
Qed.

(** How [merge_videos] runs: it stops before the executor, with the
    user interface reset, or it calls the executor on the files that
    discovery returned and ends as the executor does. *)
Lemma merge_videos_cases app fs :
  let s := merge_videos E app fs in
  (∃ evs, s = Step (Ok ()) fs (evs ++ [ResetUI])
          ∧ Forall (λ ev, prelude_event app fs ev ∨ ∃ m, ev = ErrorBox "Error" m) evs
          ∧ (output_folder app ∈ fs →
             (selection_mode app = py "folder" → input_folder app ∈ fs) →
             result (find_video_files E app (input_folder app) fs) = Ok []
             ∨ panorama app ∈ fs ∧ askyesno E = false))
  ∨ (∃ files pre,
       result (find_video_files E app (input_folder app) fs) = Ok files
       ∧ files ≠ []
       ∧ output_folder app ∈ fs
       ∧ (panorama app ∈ fs → askyesno E = true)
       ∧ Forall (prelude_event app fs) pre
       ∧ let m := merge_videos_with_ffmpeg E files (panorama app) fs in
         s = Step (match result m with Hang => Hang | _ => Ok () end) (disk m)
                  (pre ++ events m ++ closing app (result m))).
Proof.
  intros s. subst s. unfold merge_videos.
  set (handler := λ e : exn, _).
  set (body := path_exists _ ≫= _).
  assert (∀ evs, body fs = Step (Ok ()) fs evs →
            try_finally (try_except body handler) (emit ResetUI) fs
            = Step (Ok ()) fs (evs ++ [ResetUI])) as Hearly.
  { intros evs Hb.
    apply (try_finally_step _ _ _ _ _ _ _ _ (try_except_ok _ _ _ _ _ _ Hb)); done. }
  destruct (find_video_files_run E app (input_folder app) fs) as (files & found & Hfind).
  assert (Forall (prelude_event app fs) found) as Hfound.
  { pose proof (emits_find_video_files E (λ ev, ∃ m, ev = Log m)
                  ltac:(by eexists) app (input_folder app) fs) as H.
    rewrite Hfind in H. eapply Forall_impl; [exact H|]. by intros ev (m & ->). }
  assert ((∃ evs, body fs = Step (Ok ()) fs evs
             ∧ Forall (λ ev, prelude_event app fs ev ∨ ∃ m, ev = ErrorBox "Error" m) evs
             ∧ (output_folder app ∈ fs →
                (selection_mode app = py "folder" → input_folder app ∈ fs) →
                files = [] ∨ panorama app ∈ fs ∧ askyesno E = false))
          ∨ (∃ pre, files ≠ [] ∧ output_folder app ∈ fs
               ∧ (panorama app ∈ fs → askyesno E = true)
               ∧ Forall (prelude_event app fs) pre
               ∧ body fs
                 = let m := merge_videos_with_ffmpeg E files (panorama app) fs in
                   match result m with
                   | Ok _ => Step (Ok ()) (disk m)
                               (pre ++ events m ++ removelast (closing app (result m)))
                   | Raise e => Step (Raise e) (disk m) (pre ++ events m)
                   | Hang => Step Hang (disk m) (pre ++ events m)
                   end)) as Hbody.
  { unfold body. clear body handler Hearly. rewrite bind_path_exists.
    fold (panorama app).
    case_bool_decide as Hout; cbn [negb].
    2:{ left. eexists. split; [apply log_run|]. split; [|done].
        constructor; [by left|constructor]. }
    set (K := λ input : option (list (list N)), _).
    assert (∀ evs, Forall (prelude_event app fs) evs →
              (∃ evs', prepend evs (K (Some files) fs) = Step (Ok ()) fs evs'
                 ∧ Forall (λ ev, prelude_event app fs ev ∨ ∃ m, ev = ErrorBox "Error" m) evs'
                 ∧ (files = [] ∨ panorama app ∈ fs ∧ askyesno E = false))
              ∨ (∃ pre, files ≠ [] ∧ (panorama app ∈ fs → askyesno E = true)
                   ∧ Forall (prelude_event app fs) pre
                   ∧ prepend evs (K (Some files) fs)
                     = let m := merge_videos_with_ffmpeg E files (panorama app) fs in
                       match result m with
                       | Ok _ => Step (Ok ()) (disk m)
                                   (pre ++ events m ++ removelast (closing app (result m)))
                       | Raise e => Step (Raise e) (disk m) (pre ++ events m)
                       | Hang => Step Hang (disk m) (pre ++ events m)
                       end)) as HK.
    { intros evs Hevs. unfold K. clear K. destruct files as [|f files].
      { left. rewrite emit_run, prepend_step. eexists. split; [reflexivity|].
        split; [|by left]. apply Forall_app. split.
        - eapply Forall_impl; [exact Hevs|]. by left.
        - constructor; [right; by eexists|constructor]. }
      set (files' := f :: files) in *.
      assert (∀ evs, Forall (prelude_event app fs) evs →
                prepend evs
                  ((merge_videos_with_ffmpeg E files' (panorama app) ≫= λ success : bool,
                      if success
                      then log_message [Txt "MERGE COMPLETE!"];;
                           log_message [Txt "Output saved to: "; Str (panorama app)];;
                           emit (InfoBox "Success"
                                   [Txt "Merging complete! You can now upload the video to VideoArena. Output file: Panorama.mp4 Location: ";
                                    Str (output_folder app)])
                      else emit (ErrorBox "Error"
                                   [Txt "Video merging failed! Please check the log for details."]))
                     fs)
                = let m := merge_videos_with_ffmpeg E files' (panorama app) fs in
                  match result m with
                  | Ok _ => Step (Ok ()) (disk m)
                              (evs ++ events m ++ removelast (closing app (result m)))
                  | Raise e => Step (Raise e) (disk m) (evs ++ events m)
                  | Hang => Step Hang (disk m) (evs ++ events m)
                  end) as Hmerge.
      { intros evs0 _. cbv zeta. rewrite bind_run.
        destruct (merge_videos_with_ffmpeg E files' (panorama app) fs) as [[[]|e|] d evm];
          cbn [result disk events closing removelast]; mrun;
          by rewrite <- ?(assoc_L (++)). }
      rewrite bind_path_exists. case_bool_decide as Hpan.
      - rewrite bind_assoc, bind_emit, prepend_prepend.
        destruct (askyesno E) eqn:Hask; cbn [negb].
        + right. rewrite bind_ret. eexists. split; [done|]. split; [done|].
          split; [|apply Hmerge].
          all: forall_events; done.
        + left. mrun. eexists. split; [reflexivity|]. split; [|by right].
          forall_events; try (by left).
          eapply Forall_impl; [exact Hevs|]. by left.
      - right. rewrite bind_ret. exists evs. split; [done|]. split; [done|].
        split; [done|]. by apply Hmerge. }
    case_bool_decide as Hmode.
    - rewrite bind_assoc, bind_path_exists. case_bool_decide as Hin; cbn [negb].
      + rewrite bind_assoc, (bind_ok _ _ _ _ _ _ Hfind), bind_ret.
        destruct (HK found Hfound) as [(evs & -> & Hevs & Hc)|(pre & Hne & Hask & Hpre & ->)].
        * left. exists evs. by repeat split.
        * right. exists pre. by repeat split.
      + left. rewrite bind_assoc, bind_log, bind_ret. unfold K. rewrite ret_run, prepend_step.
        eexists. split; [reflexivity|]. split; [constructor; [by left|constructor]|].
        intros _ Hin'. by destruct Hin; apply Hin'.
    - rewrite bind_assoc.
      rewrite (bind_ok _ _ _ _ _ _
                 (eq_trans (find_video_files_source app [] (input_folder app) fs Hmode) Hfind)).
      rewrite bind_ret.
      destruct (HK found Hfound) as [(evs & -> & Hevs & Hc)|(pre & Hne & Hask & Hpre & ->)].
      + left. exists evs. by repeat split.
      + right. exists pre. by repeat split. }
  rewrite Hfind. cbn [result].
  destruct Hbody as [(evs & Hb & Hevs & Hc)|(pre & Hne & Hout & Hask & Hpre & Hb)].
  - left. exists evs. split; [by apply Hearly|]. split; [done|].
    intros Ho Hi. destruct (Hc Ho Hi) as [->|?]; [by left|by right].
  - right. exists files, pre. do 5 (split; [done|]). cbv zeta in Hb |- *.
    pose proof (merge_videos_with_ffmpeg_no_raise files (panorama app) fs) as Hnr.
    destruct (merge_videos_with_ffmpeg E files (panorama app) fs) as [[b|e|] d evm];
      cbn [result disk events] in Hb, Hnr |- *.
    + rewrite (try_finally_step _ _ _ _ _ _ _ _ (try_except_ok _ _ _ _ _ _ Hb)
                 ltac:(done) (emit_run ResetUI d)).
      rewrite <- !(assoc_L (++)). by destruct b.
    + by destruct (Hnr e).
    + apply try_finally_hang. rewrite try_except_run, Hb. cbn [result closing].
      by rewrite app_nil_r.
Qed.

(** What the executor emits. *)
Lemma merge_videos_with_ffmpeg_events video_files output_path fs :
  Forall (λ ev, match ev with
                | Merging f o => f = video_files ∧ o = output_path
                | Log _ | Spawn _ _ | CreateTemp _ | WriteLine _ _ | Unlink _ => True
                | _ => False
                end)
         (events (merge_videos_with_ffmpeg E video_files output_path fs)).
Proof. by apply emits_merge_videos_with_ffmpeg. Qed.

Lemma closing_events app r ev :
  ev ∈ closing app r →
  match ev with Log _ | ErrorBox _ _ | InfoBox _ _ | ResetUI => True | _ => False end.
Proof.
  destruct r as [[]|e|]; cbn [closing]; intros Hin;
    repeat (apply elem_of_cons in Hin as [->|Hin]; [done|]); by apply elem_of_nil in Hin.
Qed.

(** What discovery returns is in the order of the timestamps. *)
Lemma find_video_files_sorted app input_source fs :
  ∃ l, result (find_video_files E app input_source fs) = Ok (path_of <$> sorted_entries l).
Proof.
  unfold find_video_files. case_bool_decide.
  - destruct (find_video_files_in_folder_run E input_source fs) as (s & evs & _ & ->).
    by eexists.
  - destruct (process_selected_files_run app fs) as (evs & ->). by eexists.
Qed.

(** A call of the executor is the one call that [merge_videos] makes. *)
Lemma merge_videos_called app fs files output_path :
  Merging files output_path ∈ events (merge_videos E app fs) →
  output_path = panorama app
  ∧ result (find_video_files E app (input_folder app) fs) = Ok files
  ∧ files ≠ []
  ∧ ∃ pre,
      Forall (prelude_event app fs) pre
      ∧ let m := merge_videos_with_ffmpeg E files (panorama app) fs in
        merge_videos E app fs
        = Step (match result m with Hang => Hang | _ => Ok () end) (disk m)
               (pre ++ events m ++ closing app (result m)).
Proof.
  intros Hin.
  destruct (merge_videos_cases app fs)
    as [(evs & Hs & Hevs & _)|(files' & pre & Hfind & Hne & _ & _ & Hpre & Hs)];
    cbv zeta in Hs; rewrite Hs in Hin; cbn [events] in Hin.
  - exfalso. apply elem_of_app in Hin as [Hin|Hin].
    + rewrite Forall_forall in Hevs. by destruct (Hevs _ Hin) as [?|(? & ?)].
    + by apply list_elem_of_singleton in Hin.
  - apply elem_of_app in Hin as [Hin|Hin].
    { exfalso. rewrite Forall_forall in Hpre. by destruct (Hpre _ Hin). }
    apply elem_of_app in Hin as [Hin|Hin].
    2:{ exfalso. by apply closing_events in Hin. }
    pose proof (merge_videos_with_ffmpeg_events files' (panorama app) fs) as Hev.
    rewrite Forall_forall in Hev. destruct (Hev _ Hin) as [-> ->].
    split; [done|]. split; [done|]. split; [done|]. by exists pre.
Qed.

(** X15.  [merge_videos] raises nothing, and when it ends it has reset
    the user interface, once and as the last thing it does.  It fails to
    end only when the executor does not return, and then the interface
    is not reset. *)
Theorem merge_videos_resets_ui app fs :
  let s := merge_videos E app fs in
  (result s = Ok () ∧ ∃ evs, events s = evs ++ [ResetUI] ∧ ResetUI ∉ evs)
  ∨ (result s = Hang ∧ (ResetUI ∉ events s)
     ∧ ∃ files, result (merge_videos_with_ffmpeg E files (panorama app) fs) = Hang).
Proof.
  cbv zeta.
  destruct (merge_videos_cases app fs)
    as [(evs & Hs & Hevs & _)|(files & pre & Hfind & Hne & _ & _ & Hpre & Hs)];
    cbv zeta in Hs; rewrite Hs; cbn [result events].
  - left. split; [done|]. exists evs. split; [done|]. intros Hin.
    rewrite Forall_forall in Hevs. by destruct (Hevs _ Hin) as [?|(? & ?)].
  - pose proof (merge_videos_with_ffmpeg_events files (panorama app) fs) as Hev.
    pose proof (merge_videos_with_ffmpeg_no_raise files (panorama app) fs) as Hnr.
    rewrite Forall_forall in Hev, Hpre.
    assert (ResetUI ∉ pre ++ events (merge_videos_with_ffmpeg E files (panorama app) fs))
      as Hno.
    { intros Hin. apply elem_of_app in Hin as [Hin|Hin].
      - by destruct (Hpre _ Hin).
      - by destruct (Hev _ Hin). }
    destruct (result (merge_videos_with_ffmpeg E files (panorama app) fs))
      as [[]|e|] eqn:Hr; cbn [closing].
    + left. split; [done|]. eexists. split.
      { rewrite (assoc_L (++)).
        change [?a; ?b; ?c; ResetUI] with ([a; b; c] ++ [ResetUI]).
        rewrite (assoc_L (++)). reflexivity. }
      intros Hin. apply elem_of_app in Hin as [Hin|Hin]; [done|].
      repeat (apply elem_of_cons in Hin as [Hin|Hin]; [discriminate Hin|]).
      by apply elem_of_nil in Hin.
    + left. split; [done|]. eexists. split.
      { rewrite (assoc_L (++)).
        change [?a; ResetUI] with ([a] ++ [ResetUI]).
        rewrite (assoc_L (++)). reflexivity. }
      intros Hin. apply elem_of_app in Hin as [Hin|Hin]; [done|].
      repeat (apply elem_of_cons in Hin as [Hin|Hin]; [discriminate Hin|]).
      by apply elem_of_nil in Hin.
    + by destruct (Hnr e).
    + right. split; [done|]. rewrite app_nil_r. split; [done|]. by exists files.
Qed.

(** X16.  [merge_videos] checks the folders first: when the output
    folder does not exist, or in folder mode the input folder does not,
    it logs that and stops, with nothing searched, asked or run and the
    file system as it was. *)
Theorem missing_folder_stops_merge app fs :
  (output_folder app ∉ fs →
   merge_videos E app fs
   = Step (Ok ()) fs [Log [Txt "Output folder does not exist!"]; ResetUI])
  ∧ (output_folder app ∈ fs → selection_mode app = py "folder" →
     input_folder app ∉ fs →
     merge_videos E app fs
     = Step (Ok ()) fs [Log [Txt "Input folder does not exist!"]; ResetUI]).
Proof.
  split.
  - intros Hout. unfold merge_videos.
    match goal with
    | |- try_finally (try_except ?b _) _ _ = _ =>
        assert (b fs = Step (Ok ()) fs [Log [Txt "Output folder does not exist!"]]) as Hb
    end.
    { rewrite bind_path_exists, bool_decide_eq_false_2 by done. apply log_run. }
    apply (try_finally_step _ _ _ _ _ _ _ _ (try_except_ok _ _ _ _ _ _ Hb)); done.
  - intros Hout Hmode Hin. unfold merge_videos.
    match goal with
    | |- try_finally (try_except ?b _) _ _ = _ =>
        assert (b fs = Step (Ok ()) fs [Log [Txt "Input folder does not exist!"]]) as Hb
    end.
    { rewrite bind_path_exists, bool_decide_eq_true_2 by done. cbn [negb].
      rewrite bool_decide_eq_true_2 by done.
      rewrite bind_assoc, bind_path_exists, bool_decide_eq_false_2 by done. cbn [negb].
      by rewrite bind_assoc, bind_log, bind_ret, ret_run, prepend_step. }
    apply (try_finally_step _ _ _ _ _ _ _ _ (try_except_ok _ _ _ _ _ _ Hb)); done.
Qed.

(** X17.  [merge_videos] asks whether to overwrite only when the output
    file exists, and when the answer is no it ends without a call of the
    executor: no temporary file, no process, the file system as it
    was. *)
Theorem overwrite_needs_consent app fs :
  let s := merge_videos E app fs in
  (∀ title m, YesNoBox title m ∈ events s → panorama app ∈ fs)
  ∧ (panorama app ∈ fs → askyesno E = false →
     result s = Ok () ∧ disk s = fs ∧ ∀ ev, ev ∈ events s → ¬ executor_event ev).
Proof.
  cbv zeta.
  destruct (merge_videos_cases app fs)
    as [(evs & Hs & Hevs & _)|(files & pre & Hfind & Hne & _ & Hask & Hpre & Hs)];
    cbv zeta in Hs; rewrite Hs; cbn [result disk events];
    rewrite Forall_forall in *.
  - split.
    + intros title m Hin. apply elem_of_app in Hin as [Hin|Hin].
      * by destruct (Hevs _ Hin) as [?|(? & ?)].
      * by apply list_elem_of_singleton in Hin.
    + intros _ _. split; [done|]. split; [done|]. intros ev Hin.
      apply elem_of_app in Hin as [Hin|Hin].
      * destruct (Hevs _ Hin) as [Hp|(? & ->)]; [|by intros []].
        destruct ev; try done; by intros [].
      * apply list_elem_of_singleton in Hin as ->. by intros [].
  - split.
    + intros title m Hin. apply elem_of_app in Hin as [Hin|Hin]; [by apply (Hpre _ Hin)|].
      apply elem_of_app in Hin as [Hin|Hin].
      * pose proof (merge_videos_with_ffmpeg_events files (panorama app) fs) as Hev.
        rewrite Forall_forall in Hev. by destruct (Hev _ Hin).
      * by apply closing_events in Hin.
    + intros Hpan Hno. rewrite (Hask Hpan) in Hno. done.
Qed.

(** X18.  The files that [merge_videos] hands to the executor are the
    files that discovery returned, in the order of their timestamps, and
    the output is always [Panorama.mp4] in the output folder. *)
Theorem merger_gets_sorted_files app fs files output_path :
  Merging files output_path ∈ events (merge_videos E app fs) →
  output_path = path_join (output_folder app) (py "Panorama.mp4")
  ∧ result (find_video_files E app (input_folder app) fs) = Ok files
  ∧ chronological files
  ∧ ∀ p, p ∈ files → parsable p.
Proof.
  intros Hin. apply merge_videos_called in Hin as (-> & Hfind & _ & _).
  split; [done|]. split; [done|].
  destruct (find_video_files_sorted app (input_folder app) fs) as (l & Hl).
  rewrite Hfind in Hl. injection Hl as ->. split; [apply sorted_paths_chronological|].
  intros p Hp. by apply paths_sorted_entries in Hp as [_ ?].
Qed.

(** X19.  After a call of the executor, [merge_videos] ends as the
    executor did: after [True] with the message of success and no error
    box, after [False] with the error box and no message of success;
    and when the executor does not return there is neither. *)
Theorem final_dialog_matches_result app fs files output_path :
  let s := merge_videos E app fs in
  Merging files output_path ∈ events s →
  match result (merge_videos_with_ffmpeg E files output_path fs) with
  | Ok true =>
      result s = Ok ()
      ∧ (∃ m, InfoBox "Success" m ∈ events s) ∧ ∀ title m, ErrorBox title m ∉ events s
  | Ok false =>
      result s = Ok ()
      ∧ (ErrorBox "Error" [Txt "Video merging failed! Please check the log for details."])
          ∈ events s
      ∧ ∀ title m, InfoBox title m ∉ events s
  | Hang =>
      result s = Hang
      ∧ ∀ title m, (InfoBox title m ∉ events s) ∧ (ErrorBox title m ∉ events s)
  | Raise _ => False
  end.
Proof.
  intros s Hin. subst s.
  apply merge_videos_called in Hin as (-> & Hfind & _ & pre & Hpre & Hs).
  cbv zeta in Hs. rewrite Hs. cbn [result events]. clear Hs.
  pose proof (merge_videos_with_ffmpeg_events files (panorama app) fs) as Hev.
  pose proof (merge_videos_with_ffmpeg_no_raise files (panorama app) fs) as Hnr.
  rewrite Forall_forall in Hev, Hpre.
  assert (∀ ev, ev ∈ pre ++ events (merge_videos_with_ffmpeg E files (panorama app) fs) →
            match ev with InfoBox _ _ | ErrorBox _ _ => False | _ => True end) as Hno.
  { intros ev Hin. apply elem_of_app in Hin as [Hin|Hin].
    - specialize (Hpre _ Hin). by destruct ev.
    - specialize (Hev _ Hin). by destruct ev. }
  destruct (result (merge_videos_with_ffmpeg E files (panorama app) fs))
    as [[]|e|] eqn:Hr; cbn [closing].
  - split; [done|]. split.
    + eexists. rewrite (assoc_L (++)). apply elem_of_app. right.
      do 2 apply list_elem_of_further. apply list_elem_of_here.
    + intros title m Hin. rewrite (assoc_L (++)) in Hin.
      apply elem_of_app in Hin as [Hin|Hin]; [by apply Hno in Hin|].
      repeat (apply elem_of_cons in Hin as [Hin|Hin]; [discriminate Hin|]).
      by apply elem_of_nil in Hin.
  - split; [done|]. split.
    + rewrite (assoc_L (++)). apply elem_of_app. right. apply list_elem_of_here.
    + intros title m Hin. rewrite (assoc_L (++)) in Hin.
      apply elem_of_app in Hin as [Hin|Hin]; [by apply Hno in Hin|].
      repeat (apply elem_of_cons in Hin as [Hin|Hin]; [discriminate Hin|]).
      by apply elem_of_nil in Hin.
  - by destruct (Hnr e).
  - split; [done|]. intros title m. rewrite app_nil_r.
    split; intros Hin; by apply Hno in Hin.
Qed.

(** X23.  When [merge_videos] launches the merge command, the playlist
    holds one line for every file that discovery returned, in the order
    of their timestamps, oldest first, and the command writes to
    [Panorama.mp4] in the output folder. *)
Theorem playlist_is_chronological app fs argv :
  let s := merge_videos E app fs in
  Spawn argv None ∈ events s →
  ∃ files name,
    result (find_video_files E app (input_folder app) fs) = Ok files
    ∧ chronological files
    ∧ written (events s) = (λ p, (name, playlist_line p)) <$> files
    ∧ last argv = Some (path_join (output_folder app) (py "Panorama.mp4")).
Proof.
  intros s Hin. subst s.
  destruct (merge_videos_cases app fs)
    as [(evs & Hs & Hevs & _)|(files & pre & Hfind & Hne & _ & _ & Hpre & Hs)];
    cbv zeta in Hs; rewrite Hs in Hin |- *; cbn [events] in Hin |- *.
  - exfalso. apply elem_of_app in Hin as [Hin|Hin].
    + rewrite Forall_forall in Hevs. by destruct (Hevs _ Hin) as [?|(? & ?)].
    + by apply list_elem_of_singleton in Hin.
  - assert (written pre = []) as Hwp.
    { apply written_nil. eapply Forall_impl; [exact Hpre|]. by intros ev Hev name line ->. }
    assert (∀ r, written (closing app r) = []) as Hwc.
    { intros r. apply written_nil, Forall_forall. intros ev Hev name line ->.
      by apply closing_events in Hev. }
    apply elem_of_app in Hin as [Hin|Hin].
    { exfalso. rewrite Forall_forall in Hpre. by destruct (Hpre _ Hin). }
    apply elem_of_app in Hin as [Hin|Hin].
    2:{ exfalso. by apply closing_events in Hin. }
    destruct (playlist_at_launch E files (panorama app) fs argv Hin)
      as (name & path & _ & _ & -> & Hw).
    exists files, name. split; [done|]. split.
    { destruct (find_video_files_sorted app (input_folder app) fs) as (l & Hl).
      rewrite Hfind in Hl. injection Hl as ->. apply sorted_paths_chronological. }
    split; [|done].
    by rewrite !written_app, Hwp, Hwc, Hw, app_nil_r.
Qed.

End Job.

(** * The window *)

Section Window_facts.
Context {RT : Runtime} (E : Env).

Import Gui.

Ltac wsimpl :=
  cbn [window threads app is_processing ffmpeg_available ffmpeg_path merge_button
       progress_bar input_frame set_app set_input_frame set_merge_button
       set_selection_mode set_input_folder set_output_folder set_selected_files
       selection_mode input_folder output_folder selected_files] in *.

Lemma truthy_true {A} (l : list A) : truthy l = true ↔ l ≠ [].
Proof. by destruct l. Qed.

(** [check_ready_to_merge] sets the merge button, and nothing else, to
    whether the window is ready. *)
Lemma check_ready_to_merge_spec w :
  let w' := check_ready_to_merge w in
  app w' = app w ∧ is_processing w' = is_processing w
  ∧ ffmpeg_available w' = ffmpeg_available w ∧ ffmpeg_path w' = ffmpeg_path w
  ∧ progress_bar w' = progress_bar w ∧ input_frame w' = input_frame w
  ∧ (merge_button w' = true ↔ ready w).
Proof.
  cbv zeta. unfold check_ready_to_merge, ready. cbn [app is_processing ffmpeg_available
    ffmpeg_path progress_bar input_frame merge_button set_merge_button].
  do 6 (split; [done|]).
  destruct (truthy (output_folder (app w))) eqn:Ho; cbn [andb].
  2:{ split; [done|]. intros (Hne & _). apply truthy_true in Hne. congruence. }
  apply truthy_true in Ho.
  destruct (is_processing w); cbn [negb andb]; [split; [done|by intros (_ & ? & _)]|].
  destruct (ffmpeg_available w); [|split; [done|by intros (_ & _ & ? & _)]].
  case_bool_decide as Hmode; rewrite truthy_true; split.
  - intros Hin. do 3 (split; [done|]). by left.
  - by intros (_ & _ & _ & [[_ ?]|[? _]]).
  - intros Hin. do 3 (split; [done|]). by right.
  - by intros (_ & _ & _ & [[? _]|[_ ?]]).
Qed.

Lemma check_ffmpeg_binary_path fs avail status path :
  result (check_ffmpeg_binary E fs) = Ok (avail, status, path) →
  avail = true ↔ is_Some path.
Proof.
  destruct (check_ffmpeg_binary_run E fs) as (status' & d & ->). cbv zeta. cbn [result].
  destruct (_ && _); [|destruct (passes _)]; intros ?; simplify_eq; split; try done;
    by intros [? ?].
Qed.

Lemma init_invariant fs w0 :
  result (init E fs) = Ok w0 → invariant {| window := w0; threads := 0 |}.
Proof.
  unfold init, setup_gui. rewrite bind_assoc, bind_log, bind_assoc, bind_log, bind_ret.
  rewrite !result_prepend. unfold check_ffmpeg_on_startup.
  destruct (check_ffmpeg_binary_returns E fs) as ([[avail status] path] & d & evs & Hc).
  pose proof (check_ffmpeg_binary_path fs avail status path) as Hpath.
  rewrite Hc in Hpath. specialize (Hpath eq_refl).
  rewrite (bind_ok _ _ _ _ _ _ Hc), result_prepend. cbv zeta. cbn [fst snd ffmpeg_available].
  destruct avail; mrun; cbn [result]; intros [= <-];
    (unfold invariant; wsimpl;
     split; [|split; [lia|split; [done|split; [done|by left]]]];
     split; [done|]; by intros (? & _)).
Qed.

(** X24.  After [__init__] the window is in folder mode with nothing
    chosen and the merge button disabled, whatever the check of FFmpeg
    says; FFmpeg counts as available exactly when the check gave a path,
    and when it did not the log says that merging will not work. *)
Theorem window_after_init fs :
  ∃ w, result (init E fs) = Ok w
    ∧ merge_button w = false
    ∧ is_processing w = false
    ∧ app w = {| selection_mode := py "folder"; input_folder := [];
                 output_folder := []; selected_files := [] |}
    ∧ input_frame w = Some FolderSection
    ∧ (ffmpeg_available w = true ↔ is_Some (ffmpeg_path w))
    ∧ (ffmpeg_available w = false →
       (Log [Txt "Video merging will not work until FFmpeg is available."])
         ∈ events (init E fs)).
Proof.
  unfold init, setup_gui. rewrite bind_assoc, bind_log, bind_assoc, bind_log, bind_ret.
  rewrite !result_prepend, !events_prepend. unfold check_ffmpeg_on_startup.
  destruct (check_ffmpeg_binary_returns E fs) as ([[avail status] path] & d & evs & Hc).
  pose proof (check_ffmpeg_binary_path fs avail status path) as Hpath.
  rewrite Hc in Hpath. specialize (Hpath eq_refl).
  rewrite (bind_ok _ _ _ _ _ _ Hc). cbv zeta. cbn [fst snd ffmpeg_available].
  destruct avail; mrun; cbn [result events]; (eexists; split; [reflexivity|]); wsimpl.
  - do 5 (split; [done|]). done.
  - do 5 (split; [done|]). intros _.
    do 2 apply list_elem_of_further. rewrite app_nil_r.
    apply elem_of_app. right. apply list_elem_of_here.
Qed.

Lemma handle_invariant s s' : handle s s' → invariant s → invariant s'.
Proof.
  intros Hstep (Hbutton & Hle & Hproc & Hpath & Hmode).
  destruct Hstep as [w n sec|w n folder fs w' Hframe Hres|w n files fs w' Hframe Hres
                    |w n folder fs w' Hres|w n fs w' started Hon Hres|w n Hn];
    cbn [window threads] in *.
  - (* a radio button *)
    unfold update_input_mode. cbn [app set_app set_selection_mode selection_mode].
    match goal with
    | |- invariant {| window := check_ready_to_merge ?w0; threads := _ |} =>
        destruct (check_ready_to_merge_spec w0) as (Ha & Hp & Hf & Hfp & _ & Hi & Hb)
    end.
    unfold invariant. cbn [window threads]. rewrite Ha, Hp, Hf, Hfp, Hi.
    split; [exact Hb|]. split; [done|].
    destruct sec; cbn [mode_value].
    + rewrite bool_decide_eq_true_2 by done. wsimpl. do 2 (split; [done|]). by left.
    + rewrite bool_decide_eq_false_2 by done. wsimpl. do 2 (split; [done|]). by right.
  - (* the folder dialog *)
    unfold browse_input_folder in Hres. destruct (truthy folder).
    2:{ injection Hres as <-. done. }
    cbv zeta in Hres. rewrite bind_log, ret_run, prepend_step in Hres. injection Hres as <-.
    match goal with
    | |- invariant {| window := check_ready_to_merge ?w0; threads := _ |} =>
        destruct (check_ready_to_merge_spec w0) as (Ha & Hp & Hf & Hfp & _ & Hi & Hb)
    end.
    unfold invariant. cbn [window threads]. rewrite Ha, Hp, Hf, Hfp, Hi.
    split; [exact Hb|]. wsimpl. do 3 (split; [done|]).
    destruct Hmode as [(? & ? & ?)|(? & ? & ?)]; [by left|congruence].
  - (* the files dialog *)
    unfold browse_input_files in Hres.
    destruct (browse_input_files_outcome (app w) files fs)
      as (a & Ha & _ & Hm & Hi & Ho & _ & _).
    cbv zeta in Ha. rewrite bind_run in Hres.
    match type of Ha with
    | result ?step = _ => destruct step as [r d evs]
    end.
    cbn [result] in Ha. subst r. cbn [result disk events] in Hres.
    rewrite ret_run, prepend_step in Hres. injection Hres as <-.
    destruct (truthy files); [|done].
    match goal with
    | |- invariant {| window := check_ready_to_merge ?w0; threads := _ |} =>
        destruct (check_ready_to_merge_spec w0) as (Ha' & Hp & Hf & Hfp & _ & Hi' & Hb)
    end.
    unfold invariant. cbn [window threads]. rewrite Ha', Hp, Hf, Hfp, Hi'.
    split; [exact Hb|]. wsimpl. do 3 (split; [done|]).
    destruct Hmode as [(? & ? & ?)|(? & ? & ?)]; [congruence|].
    right. rewrite Hm, Hi. done.
  - (* the output dialog *)
    unfold browse_output_folder in Hres. destruct (truthy folder).
    2:{ injection Hres as <-. done. }
    cbv zeta in Hres. rewrite bind_log, ret_run, prepend_step in Hres. injection Hres as <-.
    match goal with
    | |- invariant {| window := check_ready_to_merge ?w0; threads := _ |} =>
        destruct (check_ready_to_merge_spec w0) as (Ha & Hp & Hf & Hfp & _ & Hi & Hb)
    end.
    unfold invariant. cbn [window threads]. rewrite Ha, Hp, Hf, Hfp, Hi.
    split; [exact Hb|]. wsimpl. done.
  - (* the merge button *)
    apply Hbutton in Hon as (Hout & Hnp & Hav & Hinput).
    unfold start_merge_process in Hres. rewrite Hnp, Hav in Hres. cbn [negb] in Hres.
    injection Hres as <- <-.
    unfold invariant, ready. wsimpl.
    assert (n = 0%nat) as ->.
    { destruct n as [|[|n]]; [done| |lia]. destruct Hproc as [_ Hp]. by rewrite Hp in Hnp. }
    split; [split; [done|by intros (_ & ? & _)]|].
    split; [lia|]. split; [done|]. split; [|done].
    split; [intros _; by apply Hpath|done].
  - (* the end of the merge thread *)
    unfold reset_ui.
    match goal with
    | |- invariant {| window := check_ready_to_merge ?w0; threads := _ |} =>
        destruct (check_ready_to_merge_spec w0) as (Ha & Hp & Hf & Hfp & _ & Hi & Hb)
    end.
    unfold invariant. cbn [window threads]. rewrite Ha, Hp, Hf, Hfp, Hi.
    split; [exact Hb|]. wsimpl.
    assert (n = 1%nat) as -> by lia. wsimpl. split; [lia|]. done.
Qed.

Lemma reachable_invariant s : reachable E s → invariant s.
Proof.
  intros (fs & w0 & Hinit & Hsteps). apply init_invariant in Hinit.
  revert Hinit Hsteps. generalize {| window := w0; threads := 0 |}.
  intros s0 Hinv Hsteps.
  induction Hsteps as [s|s1 s2 s3 Hstep _ IH]; [done|].
  apply IH. by eapply handle_invariant.
Qed.



(** X22.  The window keeps the input of the current mode only: in folder
    mode there are no selected files, in files mode there is no input
    folder, and the browse button in the window is the one of the
    mode. *)
Theorem mode_keeps_its_input_only s :
  reachable E s →
  selection_mode (app (window s)) = py "folder"
  ∧ input_frame (window s) = Some FolderSection
  ∧ selected_files (app (window s)) = []
  ∨ selection_mode (app (window s)) = py "files"
    ∧ input_frame (window s) = Some FilesSection
    ∧ input_folder (app (window s)) = [].
Proof. intros Hs. by destruct (reachable_invariant s Hs) as (_ & _ & _ & _ & H). Qed.

End Window_facts.

(** * Further runs on concrete inputs *)

Section Runs2.
Local Existing Instance posix.

Ltac in_list := repeat first [apply list_elem_of_here | apply list_elem_of_further].

Lemma merge_result_is_exit_code_witness :
  let s := merge_videos_with_ffmpeg (tool (Some 5))
             [py "/v/RecM01_20240101_090000.mp4"] (py "/out/Panorama.mp4") ∅ in
  let argv := ffmpeg_command (py "ffmpeg") (py "/tmp/tmpconcat.txt")
                (py "/out/Panorama.mp4") in
  (Spawn argv None ∈ events s)
  ∧ result s = exit_outcome (spawn (tool (Some 5)) argv)
  ∧ result s = Ok true.
Proof.
  intros s argv.
  assert (Spawn argv None ∈ events s) as Hin by (vm_compute; in_list).
  split; [exact Hin|]. split; [|vm_compute; reflexivity].
  exact (proj1 (merge_result_is_exit_code (tool (Some 5))
                  [py "/v/RecM01_20240101_090000.mp4"] (py "/out/Panorama.mp4") ∅)
           argv Hin).
Defined.

Lemma playlist_complete_at_launch_witness :
  let s := merge_videos_with_ffmpeg (tool (Some 5))
             [py "/v/RecM01_20240101_090000.mp4"] (py "/out/Panorama.mp4") ∅ in
  ∃ name path,
    mktemp (tool (Some 5)) = inr name
    ∧ (path = bundled_ffmpeg (tool (Some 5)) ∨ path = py "ffmpeg")
    ∧ ffmpeg_command (py "ffmpeg") (py "/tmp/tmpconcat.txt") (py "/out/Panorama.mp4")
      = [path; py "-f"; py "concat"; py "-safe"; py "0"; py "-i"; name;
         py "-c"; py "copy"; py "-avoid_negative_ts"; py "make_zero"; py "-y";
         py "/out/Panorama.mp4"]
    ∧ written (events s)
      = (λ p, (name, playlist_line p)) <$> [py "/v/RecM01_20240101_090000.mp4"].
Proof.
  intros s.
  apply (playlist_complete_at_launch (tool (Some 5))
           [py "/v/RecM01_20240101_090000.mp4"] (py "/out/Panorama.mp4") ∅).
  vm_compute. in_list.
Defined.

Lemma tool_runs_at_most_once_witness :
  let s := merge_videos_with_ffmpeg (tool (Some 5))
             [py "/v/RecM01_20240101_090000.mp4"] (py "/out/Panorama.mp4") ∅ in
  (Spawn [py "ffmpeg"; py "-version"] (Some 10) ∈ events s)
  ∧ (length (unbounded_runs (events s)) ≤ 1)%nat.
Proof.
  intros s. split; [vm_compute; in_list|].
  exact (proj1 (tool_runs_at_most_once (tool (Some 5))
                  [py "/v/RecM01_20240101_090000.mp4"] (py "/out/Panorama.mp4") ∅)).
Defined.

Lemma no_playlist_without_ffmpeg_witness :
  let s := merge_videos_with_ffmpeg no_ffmpeg
             [py "/v/RecM01_20240101_090000.mp4"] (py "/out/Panorama.mp4") ∅ in
  result s = Ok false
  ∧ last (events s)
    = Some (Log [Txt "FFmpeg check failed: "; Txt "FFmpeg binary not found"]).
Proof.
  intros s.
  destruct (no_playlist_without_ffmpeg no_ffmpeg
              [py "/v/RecM01_20240101_090000.mp4"] (py "/out/Panorama.mp4") ∅
              [Txt "FFmpeg binary not found"] None) as (Hr & _ & Hlast & _).
  - vm_compute. reflexivity.
  - split; [exact Hr|exact Hlast].
Defined.

Lemma temp_failure_reported_witness :
  let e := Exn (OtherException "OSError") (py "No space left on device") in
  let s := merge_videos_with_ffmpeg (without_temp (tool (Some 5)) e)
             [py "/v/RecM01_20240101_090000.mp4"] (py "/out/Panorama.mp4") ∅ in
  result s = Ok false
  ∧ (Log [Txt "Unexpected error during merge: "; Str (py "No space left on device")])
      ∈ events s
  ∧ (Log [Txt "Error type: "; Txt "OSError"]) ∈ events s.
Proof.
  intros e s.
  destruct (temp_failure_reported (without_temp (tool (Some 5)) e)
              [py "/v/RecM01_20240101_090000.mp4"] (py "/out/Panorama.mp4") ∅ e
              [Txt "Using system FFmpeg: "; Str (py "ffmpeg version 6.0")]
              (Some (py "ffmpeg"))) as (Hr & _ & H1 & H2 & _).
  - reflexivity.
  - vm_compute. reflexivity.
  - split; [exact Hr|]. split; [exact H1|exact H2].
Defined.

Lemma kept_files_have_first_token_witness :
  let file_path := py "/v/RecM01_20240315_143022.mp4" in
  file_path ∈ [file_path]
  ∧ ∃ pre ds d t post,
      first_token (basename file_path) pre ds d t post
      ∧ valid (stamp d t) = true
      ∧ timestamp_of (basename file_path) = Some (stamp d t).
Proof.
  intros file_path.
  destruct (kept_files_have_first_token [file_path] ∅ file_path) as (out & Hr & H).
  assert (result (parse_and_sort_files [file_path] ∅) = Ok [file_path]) as Hr'
    by (vm_compute; reflexivity).
  rewrite Hr' in Hr. injection Hr as <-. apply H, list_elem_of_here.
Defined.

Lemma browse_input_files_outcome_witness :
  let good := py "/v/RecM01_20240101_090000.mp4" in
  let other := py "/v/notes.txt" in
  (Log [Txt "     "; Str (py "notes.txt")])
    ∈ events (browse_input_files one_file [good; other] ∅).
Proof.
  intros good other.
  destruct (browse_input_files_outcome one_file [good; other] ∅)
    as (app' & _ & _ & _ & _ & _ & _ & Hne).
  destruct (Hne ltac:(discriminate)) as [_ Hall].
  pose proof (Hall other ltac:(in_list)) as Hother.
  assert (startswith (basename other) (py "RecM0") = false) as Hs by reflexivity.
  rewrite Hs in Hother. exact (proj2 Hother).
Defined.

Lemma files_mode_pipeline_witness :
  let good := py "/v/RecM01_20240101_090000.mp4" in
  let other := py "/v/notes.txt" in
  ∃ app' out,
    result (browse_input_files one_file [good; other] ∅) = Ok app'
    ∧ (selection_mode one_file ≠ py "folder" →
       result (find_video_files (tool (Some 5)) app' [] ∅) = Ok out)
    ∧ out ≡ₚ filter (λ p, parsable p ∧ startswith (basename p) (py "RecM0") = true)
               [good; other]
    ∧ chronological out.
Proof.
  intros good other.
  apply (files_mode_pipeline (tool (Some 5)) one_file [good; other] [] ∅ ∅).
  discriminate.
Defined.

Lemma escape_path_injective_witness :
  py "it's" ≠ py "its" ∧ escape_path (py "it's") ≠ escape_path (py "its").
Proof.
  assert (py "it's" ≠ py "its") as Hne by discriminate.
  split; [exact Hne|]. exact (escape_path_injective (py "it's") (py "its") Hne).
Defined.

Lemma missing_folder_stops_merge_witness :
  merge_videos (tool (Some 5)) empty_folder ∅
  = Step (Ok ()) ∅ [Log [Txt "Output folder does not exist!"]; ResetUI].
Proof.
  apply (proj1 (missing_folder_stops_merge (tool (Some 5)) empty_folder ∅)).
  apply not_elem_of_empty.
Defined.

Lemma overwrite_needs_consent_witness :
  let fs : gset (list N) := {[py "/out"; py "/out/Panorama.mp4"]} in
  let s := merge_videos declining one_file fs in
  (YesNoBox "File Exists"
     [Txt "The file 'Panorama.mp4' already exists in the output folder. Do you want to overwrite it?"])
    ∈ events s
  ∧ result s = Ok () ∧ disk s = fs.
Proof.
  intros fs s.
  assert (panorama one_file ∈ fs) as Hpan.
  { apply (bool_decide_eq_true_1 (panorama one_file ∈ fs)). vm_compute. reflexivity. }
  destruct (proj2 (overwrite_needs_consent declining one_file fs) Hpan eq_refl)
    as (Hr & Hd & _).
  split; [vm_compute; in_list|]. split; [exact Hr|exact Hd].
Defined.

Lemma merger_gets_sorted_files_witness :
  let files := [py "/v/RecM01_20240101_090000.mp4"] in
  py "/out/Panorama.mp4" = path_join (output_folder one_file) (py "Panorama.mp4")
  ∧ result (find_video_files (tool (Some 5)) one_file (input_folder one_file) {[py "/out"]})
    = Ok files
  ∧ chronological files
  ∧ ∀ p, p ∈ files → parsable p.
Proof.
  intros files.
  apply (merger_gets_sorted_files (tool (Some 5)) one_file {[py "/out"]}).
  vm_compute. in_list.
Defined.

Lemma final_dialog_matches_result_witness :
  let s := merge_videos (tool (Some 5)) one_file {[py "/out"]} in
  result s = Ok ()
  ∧ (∃ m, InfoBox "Success" m ∈ events s)
  ∧ ∀ title m, ErrorBox title m ∉ events s.
Proof.
  intros s.
  assert (Merging [py "/v/RecM01_20240101_090000.mp4"] (py "/out/Panorama.mp4") ∈ events s)
    as Hin by (vm_compute; in_list).
  pose proof (final_dialog_matches_result (tool (Some 5)) one_file {[py "/out"]}
                [py "/v/RecM01_20240101_090000.mp4"] (py "/out/Panorama.mp4") Hin) as H.
  assert (result (merge_videos_with_ffmpeg (tool (Some 5))
                    [py "/v/RecM01_20240101_090000.mp4"] (py "/out/Panorama.mp4")
                    {[py "/out"]}) = Ok true) as Hm by (vm_compute; reflexivity).
  rewrite Hm in H. exact H.
Defined.

Lemma failure_is_reported_witness :
  let s := merge_videos_with_ffmpeg failing_tool
             [py "/v/RecM01_20240101_090000.mp4"] (py "/out/Panorama.mp4") ∅ in
  result s = Ok false
  ∧ (Log [Txt "FFmpeg process failed with return code "; Int 1;
          Str [newline]; Txt "Stderr: "; Str (py "Invalid data found")]) ∈ events s.
Proof.
  intros s.
  apply (failure_is_reported failing_tool
           [py "/v/RecM01_20240101_090000.mp4"] (py "/out/Panorama.mp4") ∅
           (ffmpeg_command (py "ffmpeg") (py "/tmp/tmpconcat.txt") (py "/out/Panorama.mp4"))).
  - vm_compute. in_list.
  - reflexivity.
Defined.

Lemma empty_discovery_is_explained_witness :
  let s := find_video_files_in_folder (tool (Some 5)) (py "/v") ∅ in
  (∀ p, ¬ globbed (tool (Some 5)) ∅ (py "/v") p)
  ∧ events s
    = [Log [Txt "Searching for video files in folder..."];
       Log [Txt "No video files starting with 'RecM0' found in folder!"]]
  ∨ (∃ p, globbed (tool (Some 5)) ∅ (py "/v") p)
    ∧ (∀ p, globbed (tool (Some 5)) ∅ (py "/v") p → ¬ parsable p)
    ∧ last (events s) = Some (Log [Txt "No files with valid timestamp format found!"]).
Proof.
  intros s.
  apply (empty_discovery_is_explained (tool (Some 5)) (py "/v") ∅).
  vm_compute. reflexivity.
Defined.

Lemma playlist_is_chronological_witness :
  let s := merge_videos (tool (Some 5)) one_file {[py "/out"]} in
  ∃ files name,
    result (find_video_files (tool (Some 5)) one_file (input_folder one_file) {[py "/out"]})
    = Ok files
    ∧ chronological files
    ∧ written (events s) = (λ p, (name, playlist_line p)) <$> files
    ∧ last (ffmpeg_command (py "ffmpeg") (py "/tmp/tmpconcat.txt") (py "/out/Panorama.mp4"))
      = Some (path_join (output_folder one_file) (py "Panorama.mp4")).
Proof.
  intros s.
  apply (playlist_is_chronological (tool (Some 5)) one_file {[py "/out"]}).
  vm_compute. in_list.
Defined.

(** The session in which both folders are chosen can be reached. *)
Lemma ready_session_reachable : Gui.reachable (tool (Some 5)) ready_session.
Proof.
  exists ∅, started. split; [vm_compute; reflexivity|].
  eapply rtc_l.
  { apply (Gui.answer_output_folder started 0 (py "/out") ∅). reflexivity. }
  eapply rtc_l.
  { eapply (Gui.answer_input_folder _ 0 (py "/v") ∅); reflexivity. }
  apply rtc_refl.
Qed.



Lemma mode_keeps_its_input_only_witness :
  selection_mode (Gui.app (Gui.window ready_session)) = py "folder"
  ∧ Gui.input_frame (Gui.window ready_session) = Some Gui.FolderSection
  ∧ selected_files (Gui.app (Gui.window ready_session)) = []
  ∨ selection_mode (Gui.app (Gui.window ready_session)) = py "files"
    ∧ Gui.input_frame (Gui.window ready_session) = Some Gui.FilesSection
    ∧ input_folder (Gui.app (Gui.window ready_session)) = [].
Proof.
  exact (mode_keeps_its_input_only (tool (Some 5)) ready_session ready_session_reachable).
Defined.

End Runs2.
